(** * A shallow embedding of the MIPS-like CPU simulator

  The development follows the Python sources:
  - [memory_bus.py]  : the word cache kept in a dict and the memory bus;
  - [cache.py]       : the direct-mapped, line based cache (the class the
                       module exports under the name [Cache]);
  - [instruction_set.py] and [cpu.py] : the operations and the
                       fetch / decode / execute / update-pc loop.

  Python integers are unbounded, so they are [Z]; masks and shifts are
  written as in the source with [Z.land], [Z.lor], [Z.shiftl] and
  [Z.shiftr].  A [bytearray] is a [list Z] of byte values, a [dict] a
  [gmap].  Methods mutate [self]: they are functions in a state and
  exception monad whose state is the object, and an exception leaves the
  state as it was when it was raised (Python rolls nothing back).
  A [float] is an IEEE 754 double: a [spec_float] with 53 bits of
  precision, and the operations on it round to nearest, ties to even.
  Calls to [print] have no effect on the state and are left out. *)

From Stdlib Require Import ZArith List Lia Bool.
From Stdlib Require Import Floats.SpecFloat.
From stdpp Require Import base option list gmap.

Local Open Scope Z_scope.

(** ** Python exceptions and the state-and-exception monad *)

Inductive exn : Type :=
| ValueError
| MemoryError
| IndexError
| KeyError
| TypeError
| OverflowError
| ZeroDivisionError
| MemoryBusError.

(** Every exception above derives from Python's [Exception], which is what
  an [except Exception] clause tests. *)
Definition isinstance_Exception (e : exn) : bool :=
match e with
| ValueError | MemoryError | IndexError | KeyError
| TypeError | OverflowError | ZeroDivisionError | MemoryBusError => true
end.

Inductive result (S A : Type) : Type :=
| Ok (a : A) (s : S)
| Raise (e : exn) (s : S).
Arguments Ok {S A} a s.
Arguments Raise {S A} e s.

Definition M (S A : Type) : Type := S -> result S A.

Definition ret {S A} (a : A) : M S A := fun s => Ok a s.
Definition raise {S A} (e : exn) : M S A := fun s => Raise e s.
Definition bind {S A B} (c : M S A) (k : A -> M S B) : M S B :=
fun s => match c s with
         | Ok a s' => k a s'
         | Raise e s' => Raise e s'
         end.
Definition gets {S A} (f : S -> A) : M S A := fun s => Ok (f s) s.
Definition modify {S} (f : S -> S) : M S unit := fun s => Ok tt (f s).

(** [try: c except Exception as e: raise e'] *)
Definition reraise_as {S A} (e' : exn) (c : M S A) : M S A :=
fun s => match c s with
         | Ok a s' => Ok a s'
         | Raise e s' => Raise (if isinstance_Exception e then e' else e) s'
         end.

(** Running a computation on a component of the state (an attribute that
  holds another object). *)
Definition zoom {S T A} (get : S -> T) (set : T -> S -> S) (c : M T A) : M S A :=
fun s => match c (get s) with
         | Ok a t => Ok a (set t s)
         | Raise e t => Raise e (set t s)
         end.

Notation "'let*' x ':=' c 'in' k" := (bind c (fun x => k))
(at level 10, x pattern, c at level 100, k at level 200).
Notation "c ';;' k" := (bind c (fun _ => k))
(at level 100, k at level 200, right associativity).

Definition state_of {S A} (r : result S A) : S :=
match r with Ok _ s => s | Raise _ s => s end.

(** ** Python sequences *)

Module Py.

(** [seq[i]] : a negative index counts from the end; out of range is an
    [IndexError]. *)
Definition index (len i : Z) : option nat :=
  if (0 <=? i) && (i <? len) then Some (Z.to_nat i)
  else if (i <? 0) && (0 <=? i + len) then Some (Z.to_nat (i + len))
  else None.

Definition getitem {A} (l : list A) (i : Z) : option A :=
  match index (Z.of_nat (length l)) i with
  | Some n => l !! n
  | None => None
  end.

Definition setitem {A} (l : list A) (i : Z) (x : A) : option (list A) :=
  match index (Z.of_nat (length l)) i with
  | Some n => Some (<[n := x]> l)
  | None => None
  end.

(** Bounds of the slice [seq[a:b]] as CPython's [PySlice_AdjustIndices]
    computes them for step 1. *)
Definition adjust (len i : Z) : Z :=
  if i <? 0 then Z.max (i + len) 0 else Z.min i len.

Definition slice {A} (l : list A) (a b : Z) : list A :=
  let len := Z.of_nat (length l) in
  let start := adjust len a in
  let stop := adjust len b in
  take (Z.to_nat (stop - start)) (drop (Z.to_nat start) l).

(** [seq[a:b] = xs] : the slice is replaced by [xs], whatever its length;
    an empty slice (stop before start) inserts at [start]. *)
Definition slice_assign {A} (l : list A) (a b : Z) (xs : list A) : list A :=
  let len := Z.of_nat (length l) in
  let start := adjust len a in
  let stop := Z.max start (adjust len b) in
  take (Z.to_nat start) l ++ xs ++ drop (Z.to_nat stop) l.

(** [value.to_bytes(4, byteorder='big')] raises [OverflowError] unless
    [0 <= value < 2^32]. *)
Definition to_bytes4 (value : Z) : option (list Z) :=
  if (0 <=? value) && (value <? 2 ^ 32) then
    Some [ Z.land (Z.shiftr value 24) 255; Z.land (Z.shiftr value 16) 255;
           Z.land (Z.shiftr value 8) 255; Z.land value 255 ]
  else None.

(** [int.from_bytes(bs, byteorder='big')], for any number of bytes. *)
Definition from_bytes (bs : list Z) : Z :=
  fold_left (fun acc b => acc * 256 + b) bs 0.

(** [range(n)] as the values it yields. *)
Definition range (n : Z) : list Z := map Z.of_nat (seq 0 (Z.to_nat n)).

(** *** Numbers

    A Python number is an [int] or a [float]; a [float] is a double. *)
Definition prec : Z := 53.
Definition emax : Z := 1024.

Inductive number : Type :=
  | Int (n : Z)
  | Float (x : spec_float).

(** An int as an unrounded binary number: the mantissa is its absolute
    value, the exponent 0. *)
Definition binary_of_int (n : Z) : spec_float :=
  match n with
  | 0 => S754_zero false
  | Z.pos p => S754_finite false p 0
  | Z.neg p => S754_finite true p 0
  end.

(** [float(n)] : the double nearest to the int; an int beyond the range
    of the doubles is an [OverflowError] ([None]). *)
Definition float_of_int (n : Z) : option spec_float :=
  match binary_normalize prec emax n 0 false with
  | S754_infinity _ | S754_nan => None
  | x => Some x
  end.

(** [a / b] on two ints with [b] other than 0: the double nearest to the
    quotient of the two integers (CPython rounds the true quotient once,
    whatever the size of the ints); a quotient beyond the range of the
    doubles is an [OverflowError] ([None]). *)
Definition int_truediv (a b : Z) : option spec_float :=
  match SFdiv prec emax (binary_of_int a) (binary_of_int b) with
  | S754_infinity _ | S754_nan => None
  | x => Some x
  end.

(** [x * n] for a float and an int: the int is converted first, the
    product of the two doubles is rounded and may be infinite. *)
Definition float_mul_int (x : spec_float) (n : Z) : option spec_float :=
  match float_of_int n with
  | Some y => Some (SFmul prec emax x y)
  | None => None
  end.

End Py.

(** Lifting the partial sequence operations into the monad. *)
Definition orraise {S A} (e : exn) (o : option A) : M S A :=
match o with Some a => ret a | None => raise e end.

(** [a / b] on two ints. *)
Definition truediv {S} (a b : Z) : M S spec_float :=
if b =? 0 then raise ZeroDivisionError
else orraise OverflowError (Py.int_truediv a b).

(** [for x in xs: body x] *)
Fixpoint for_each {S A} (xs : list A) (body : A -> M S unit) : M S unit :=
match xs with
| [] => ret tt
| x :: xs' => body x ;; for_each xs' body
end.

(** ** memory_bus.py *)

(** *** class Cache (memory_bus.py): a dict from word addresses to words *)

Module BusCache.

Record t : Type := mk {
  cache_size : Z;
  block_size : Z;
  cache : gmap Z Z;
  hits : Z;
  misses : Z
}.

Definition init (cache_size block_size : Z) : t :=
  mk cache_size block_size ∅ 0 0.

Definition set_cache (f : gmap Z Z -> gmap Z Z) (c : t) : t :=
  mk (cache_size c) (block_size c) (f (cache c)) (hits c) (misses c).
Definition set_hits (f : Z -> Z) (c : t) : t :=
  mk (cache_size c) (block_size c) (cache c) (f (hits c)) (misses c).
Definition set_misses (f : Z -> Z) (c : t) : t :=
  mk (cache_size c) (block_size c) (cache c) (hits c) (f (misses c)).

(** Returns [None] (Python's [None]) on a miss. *)
Definition read_word (address : Z) : M t (option Z) :=
  let* d := gets cache in
  match d !! address with
  | Some v => modify (set_hits (fun h => h + 1)) ;; ret (Some v)
  | None => modify (set_misses (fun m => m + 1)) ;; ret None
  end.

Definition write_word (address value : Z) : M t unit :=
  modify (set_cache (fun d => <[address := value]> d)).

Record stats : Type := mk_stats {
  stats_hits : Z;
  stats_misses : Z;
  stats_hit_rate : Py.number
}.

(** [hit_rate = (self.hits / total * 100) if total > 0 else 0] : a float
    when there has been an access, the int 0 otherwise. *)
Definition get_stats : M t stats :=
  let* h := gets hits in
  let* m := gets misses in
  let total := h + m in
  let* hit_rate :=
    if 0 <? total then
      let* quotient := truediv h total in
      let* percent := orraise OverflowError (Py.float_mul_int quotient 100) in
      ret (Py.Float percent)
    else ret (Py.Int 0) in
  ret (mk_stats h m hit_rate).

Definition clear : M t unit :=
  modify (fun c => mk (cache_size c) (block_size c) ∅ 0 0).

End BusCache.

(** *** class MemoryBus *)

Module MemoryBus.

Definition MEMORY_SIZE : Z := 0x100000.
Definition IO_BASE : Z := 0xF0000000.

Record t : Type := mk {
  memory : list Z;
  cache : BusCache.t;
  io_devices : gmap Z Z;
  reads : Z;
  writes : Z;
  io_reads : Z;
  io_writes : Z
}.

Definition init : t :=
  mk (replicate (Z.to_nat MEMORY_SIZE) 0)
     (BusCache.init 1024 16)
     (<[IO_BASE := 8]> (<[IO_BASE + 4 := 0]> ∅))
     0 0 0 0.

Definition set_memory (f : list Z -> list Z) (b : t) : t :=
  mk (f (memory b)) (cache b) (io_devices b) (reads b) (writes b)
     (io_reads b) (io_writes b).
Definition set_cache (c : BusCache.t) (b : t) : t :=
  mk (memory b) c (io_devices b) (reads b) (writes b)
     (io_reads b) (io_writes b).
Definition set_io_devices (f : gmap Z Z -> gmap Z Z) (b : t) : t :=
  mk (memory b) (cache b) (f (io_devices b)) (reads b) (writes b)
     (io_reads b) (io_writes b).
Definition set_reads (f : Z -> Z) (b : t) : t :=
  mk (memory b) (cache b) (io_devices b) (f (reads b)) (writes b)
     (io_reads b) (io_writes b).
Definition set_writes (f : Z -> Z) (b : t) : t :=
  mk (memory b) (cache b) (io_devices b) (reads b) (f (writes b))
     (io_reads b) (io_writes b).
Definition set_io_reads (f : Z -> Z) (b : t) : t :=
  mk (memory b) (cache b) (io_devices b) (reads b) (writes b)
     (f (io_reads b)) (io_writes b).
Definition set_io_writes (f : Z -> Z) (b : t) : t :=
  mk (memory b) (cache b) (io_devices b) (reads b) (writes b)
     (io_reads b) (f (io_writes b)).

(** Calls on [self.cache]. *)
Definition on_cache {A} (c : M BusCache.t A) : M t A := zoom cache set_cache c.

(** The values of a memory initialisation dict: an int, a bytes-like
    object, or anything else. *)
Inductive init_value : Type :=
  | IInt (data : Z)
  | IBytes (data : list Z)
  | IOther.

(** [init_data.items()] in the dict's insertion order. *)
Definition load_memory (init_data : list (Z * init_value)) : M t unit :=
  reraise_as MemoryBusError
    (for_each init_data (fun '(address, data) =>
       let* data_bytes :=
         match data with
         | IOther => raise MemoryBusError
         | IInt n => orraise OverflowError (Py.to_bytes4 n)
         | IBytes bs => ret bs
         end in
       let len := Z.of_nat (length data_bytes) in
       if MEMORY_SIZE <? address + len then raise MemoryBusError
       else modify (set_memory (fun m =>
              Py.slice_assign m address (address + len) data_bytes)))).

Definition load_program (program : list Z) (base_address : Z) : M t unit :=
  reraise_as MemoryBusError
    (let len := Z.of_nat (length program) in
     if MEMORY_SIZE <? base_address + len then raise MemoryBusError
     else
       for_each (Py.range len) (fun i =>
         let* b := orraise IndexError (Py.getitem program i) in
         let* m := gets memory in
         let* m' := orraise IndexError (Py.setitem m (base_address + i) b) in
         modify (set_memory (fun _ => m'))) ;;
       on_cache BusCache.clear).

Definition read_word (address : Z) : M t Z :=
  if IO_BASE <=? address then
    let* io := gets io_devices in
    match io !! address with
    | Some v => modify (set_io_reads (fun n => n + 1)) ;; ret v
    | None => raise MemoryError
    end
  else if MEMORY_SIZE <? address + 4 then raise MemoryError
  else
    let* value := on_cache (BusCache.read_word address) in
    match value with
    | Some v => ret v
    | None =>
        let* m := gets memory in
        let value := Py.from_bytes (Py.slice m address (address + 4)) in
        on_cache (BusCache.write_word address value) ;;
        modify (set_reads (fun n => n + 1)) ;;
        ret value
    end.

Definition write_word (address value : Z) : M t unit :=
  if IO_BASE <=? address then
    let* io := gets io_devices in
    match io !! address with
    | Some _ =>
        modify (set_io_devices (fun d => <[address := value]> d)) ;;
        modify (set_io_writes (fun n => n + 1))
    | None => raise MemoryError
    end
  else if MEMORY_SIZE <? address + 4 then raise MemoryError
  else
    on_cache (BusCache.write_word address value) ;;
    let* bs := orraise OverflowError (Py.to_bytes4 value) in
    modify (set_memory (fun m => Py.slice_assign m address (address + 4) bs)) ;;
    modify (set_writes (fun n => n + 1)).

Record stats : Type := mk_stats {
  stats_cache : BusCache.stats;
  memory_reads : Z;
  memory_writes : Z;
  stats_io_reads : Z;
  stats_io_writes : Z
}.

Definition get_stats : M t stats :=
  let* cache_stats := on_cache BusCache.get_stats in
  let* r := gets reads in
  let* w := gets writes in
  let* ir := gets io_reads in
  let* iw := gets io_writes in
  ret (mk_stats cache_stats r w ir iw).

Definition clear : M t unit :=
  modify (set_memory (fun _ => replicate (Z.to_nat MEMORY_SIZE) 0)) ;;
  on_cache BusCache.clear ;;
  modify (fun b => mk (memory b) (cache b) (io_devices b) 0 0 0 0).

(** [_is_io_address] *)
Definition _is_io_address (address : Z) (b : t) : bool :=
  bool_decide (is_Some (io_devices b !! address)).

(** [read]: the bounds are [0 <= address < MEMORY_SIZE - 3]; an I/O read
    is not counted, and on a miss the word is not put in the cache. *)
Definition read (address : Z) : M t Z :=
  if IO_BASE <=? address then
    let* io := gets io_devices in
    match io !! address with
    | Some v => ret v
    | None => raise MemoryError
    end
  else if negb ((0 <=? address) && (address <? MEMORY_SIZE - 3)) then
    raise MemoryError
  else
    let* word := on_cache (BusCache.read_word address) in
    match word with
    | Some w => ret w
    | None =>
        let* m := gets memory in
        let word := Py.from_bytes (Py.slice m address (address + 4)) in
        modify (set_reads (fun n => n + 1)) ;;
        ret word
    end.

(** [write]: [write_word] with the bounds of [read]. *)
Definition write (address data : Z) : M t unit :=
  if IO_BASE <=? address then
    let* io := gets io_devices in
    match io !! address with
    | Some _ =>
        modify (set_io_devices (fun d => <[address := data]> d)) ;;
        modify (set_io_writes (fun n => n + 1))
    | None => raise MemoryError
    end
  else if negb ((0 <=? address) && (address <? MEMORY_SIZE - 3)) then
    raise MemoryError
  else
    on_cache (BusCache.write_word address data) ;;
    let* data_bytes := orraise OverflowError (Py.to_bytes4 data) in
    modify (set_memory (fun m =>
      Py.slice_assign m address (address + 4) data_bytes)) ;;
    modify (set_writes (fun n => n + 1)).

(** [_check_bounds] *)
Definition _check_bounds (address : Z) : M t unit :=
  if (address <? 0) || (MEMORY_SIZE <=? address) then
    let* io := gets io_devices in
    match io !! address with
    | Some _ => ret tt
    | None => raise MemoryError
    end
  else ret tt.

(** [dump_memory] *)
Definition dump_memory (start_addr size : Z) : M t (list Z) :=
  if MEMORY_SIZE <? start_addr + size then raise MemoryBusError
  else
    let* m := gets memory in
    ret (Py.slice m start_addr (start_addr + size)).

End MemoryBus.

(** ** instruction_set.py *)

Module InstructionSet.

(** The static methods take the destination index and ignore it. *)
Definition add (rd rs rt : Z) : Z := rs + rt.
Definition sub (rd rs rt : Z) : Z := rs - rt.
Definition slt (rd rs rt : Z) : Z := if rs <? rt then 1 else 0.
Definition addi (rt rs immediate : Z) : Z := rs + immediate.
Definition bne (rs rt offset : Z) : bool := negb (rs =? rt).

End InstructionSet.

(** ** cpu.py *)

Module CPU.

(** The dict that [decode_instruction] returns: its keys depend on the
    instruction format. *)
Inductive decoded : Type :=
  | RType (opcode rs rt rd shamt funct : Z)
  | IType (opcode rs rt immediate : Z)
  | JType (opcode target : Z)
  | Halt (opcode : Z).

(** [decoded_instr[key]] : a missing key is a [KeyError]. *)
Definition key_opcode (d : decoded) : Z :=
  match d with
  | RType op _ _ _ _ _ | IType op _ _ _ | JType op _ | Halt op => op
  end.
Definition key_rs (d : decoded) : option Z :=
  match d with
  | RType _ rs _ _ _ _ | IType _ rs _ _ => Some rs
  | _ => None
  end.
Definition key_rt (d : decoded) : option Z :=
  match d with
  | RType _ _ rt _ _ _ | IType _ _ rt _ => Some rt
  | _ => None
  end.
Definition key_rd (d : decoded) : option Z :=
  match d with RType _ _ _ rd _ _ => Some rd | _ => None end.
Definition key_funct (d : decoded) : option Z :=
  match d with RType _ _ _ _ _ funct => Some funct | _ => None end.
Definition key_immediate (d : decoded) : option Z :=
  match d with IType _ _ _ imm => Some imm | _ => None end.
Definition key_target (d : decoded) : option Z :=
  match d with JType _ target => Some target | _ => None end.

(** [self.pc] and [self.branch_target] may hold Python's [None]. *)
Record t : Type := mk {
  memory_bus : MemoryBus.t;
  pc : option Z;
  registers : list Z;
  halted : bool;
  branch_taken : bool;
  branch_target : option Z
}.

Definition set_memory_bus (b : MemoryBus.t) (c : t) : t :=
  mk b (pc c) (registers c) (halted c) (branch_taken c) (branch_target c).
Definition set_pc (p : option Z) (c : t) : t :=
  mk (memory_bus c) p (registers c) (halted c) (branch_taken c) (branch_target c).
Definition set_registers (r : list Z) (c : t) : t :=
  mk (memory_bus c) (pc c) r (halted c) (branch_taken c) (branch_target c).
Definition set_halted (h : bool) (c : t) : t :=
  mk (memory_bus c) (pc c) (registers c) h (branch_taken c) (branch_target c).
Definition set_branch_taken (b : bool) (c : t) : t :=
  mk (memory_bus c) (pc c) (registers c) (halted c) b (branch_target c).
Definition set_branch_target (p : option Z) (c : t) : t :=
  mk (memory_bus c) (pc c) (registers c) (halted c) (branch_taken c) p.

(** [reset], called by [__init__] on the bus it is given. *)
Definition reset (bus : MemoryBus.t) : t :=
  let regs := replicate 32 0 in
  let regs := <[0%nat := 0]> regs in
  let regs := <[29%nat := 0x7FFFFFFF]> regs in
  let regs := <[30%nat := 0]> regs in
  let regs := <[31%nat := 0]> regs in
  mk bus (Some 0) regs false false None.

Definition on_bus {A} (c : M MemoryBus.t A) : M t A :=
  zoom memory_bus set_memory_bus c.

(** [self.registers[i]] and [self.registers[i] = v] *)
Definition get_reg (i : Z) : M t Z :=
  let* regs := gets registers in orraise IndexError (Py.getitem regs i).
Definition set_reg (i v : Z) : M t unit :=
  let* regs := gets registers in
  let* regs' := orraise IndexError (Py.setitem regs i v) in
  modify (set_registers regs').

(** [self.pc] used as a number: arithmetic or a comparison on [None] is
    a [TypeError]. *)
Definition get_pc : M t Z :=
  let* p := gets pc in orraise TypeError p.

Definition I_TYPE : list Z := [0x08; 0x23; 0x2B; 0x05; 0x04].
Definition J_TYPE : list Z := [0x02; 0x03].
Definition mem_of (x : Z) (l : list Z) : bool := existsb (Z.eqb x) l.

(** [if immediate & 0x8000: immediate |= -1 << 16] *)
Definition sign_extend (immediate : Z) : Z :=
  if Z.land immediate 0x8000 =? 0 then immediate
  else Z.lor immediate (Z.shiftl (-1) 16).

Definition decode_instruction (instruction : Z) : M t decoded :=
  let opcode := Z.land (Z.shiftr instruction 26) 0x3F in
  if opcode =? 0x00 then
    let rs := Z.land (Z.shiftr instruction 21) 0x1F in
    let rt := Z.land (Z.shiftr instruction 16) 0x1F in
    let rd := Z.land (Z.shiftr instruction 11) 0x1F in
    let shamt := Z.land (Z.shiftr instruction 6) 0x1F in
    let funct := Z.land instruction 0x3F in
    ret (RType opcode rs rt rd shamt funct)
  else if mem_of opcode I_TYPE then
    let rs := Z.land (Z.shiftr instruction 21) 0x1F in
    let rt := Z.land (Z.shiftr instruction 16) 0x1F in
    let immediate := sign_extend (Z.land instruction 0xFFFF) in
    ret (IType opcode rs rt immediate)
  else if mem_of opcode J_TYPE then
    ret (JType opcode (Z.land instruction 0x3FFFFFF))
  else if opcode =? 0x3F then ret (Halt opcode)
  else raise ValueError.

Definition _execute_r_type (decoded_instr : decoded) : M t unit :=
  let* funct := orraise KeyError (key_funct decoded_instr) in
  let* rs_idx := orraise KeyError (key_rs decoded_instr) in
  let* rs := get_reg rs_idx in
  let* rt_idx := orraise KeyError (key_rt decoded_instr) in
  let* rt := get_reg rt_idx in
  let* rd_idx := orraise KeyError (key_rd decoded_instr) in
  (if funct =? 0x20 then set_reg rd_idx (InstructionSet.add rd_idx rs rt)
   else if funct =? 0x22 then set_reg rd_idx (InstructionSet.sub rd_idx rs rt)
   else if funct =? 0x2A then set_reg rd_idx (InstructionSet.slt rd_idx rs rt)
   else ret tt) ;;
  set_reg 0 0.

(** The branch arm shared by BNE and BEQ once the comparison holds. *)
Definition take_branch (immediate : Z) : M t unit :=
  let immediate := sign_extend immediate in
  let* p := get_pc in
  modify (set_branch_target (Some (Z.land (p + 4 + Z.shiftl immediate 2) 0xFFFFFFFF))) ;;
  modify (set_branch_taken true).

Definition _execute_i_type (decoded_instr : decoded) : M t unit :=
  let opcode := key_opcode decoded_instr in
  let* rs_idx := orraise KeyError (key_rs decoded_instr) in
  let* rs := get_reg rs_idx in
  let* rt_idx := orraise KeyError (key_rt decoded_instr) in
  let* immediate := orraise KeyError (key_immediate decoded_instr) in
  let immediate :=
    if mem_of opcode [0x08; 0x23; 0x2B] then sign_extend immediate
    else immediate in
  (if opcode =? 0x08 then
     let result := rs + immediate in
     set_reg rt_idx (Z.land result 0xFFFFFFFF)
   else if opcode =? 0x23 then
     let addr := Z.land (rs + immediate) 0xFFFFFFFF in
     if MemoryBus.MEMORY_SIZE <=? addr then raise MemoryError
     else
       let* v := on_bus (MemoryBus.read_word addr) in
       set_reg rt_idx v
   else if opcode =? 0x2B then
     let addr := Z.land (rs + immediate) 0xFFFFFFFF in
     if MemoryBus.MEMORY_SIZE <=? addr then raise MemoryError
     else
       let* value := get_reg rt_idx in
       on_bus (MemoryBus.write_word addr value)
   else if opcode =? 0x05 then
     let* a := get_reg rs_idx in
     let* b := get_reg rt_idx in
     if negb (a =? b) then take_branch immediate else ret tt
   else if opcode =? 0x04 then
     let* a := get_reg rs_idx in
     let* b := get_reg rt_idx in
     if a =? b then take_branch immediate else ret tt
   else ret tt) ;;
  set_reg 0 0.

(** [target = (self.pc & 0xF0000000) | (target_addr << 2)], the bounds
    check, and [self.pc = target - 4]. *)
Definition jump_to (target_addr : Z) : M t unit :=
  let* p := get_pc in
  let target := Z.lor (Z.land p 0xF0000000) (Z.shiftl target_addr 2) in
  if MemoryBus.MEMORY_SIZE <=? target then raise MemoryError
  else modify (set_pc (Some (target - 4))).

Definition _execute_j_type (decoded_instr : decoded) : M t unit :=
  let opcode := key_opcode decoded_instr in
  let* target_addr := orraise KeyError (key_target decoded_instr) in
  if opcode =? 0x02 then jump_to target_addr
  else if opcode =? 0x03 then
    let* p := get_pc in
    let return_addr := p + 4 in
    set_reg 31 return_addr ;;
    jump_to target_addr
  else ret tt.

Definition update_pc : M t unit :=
  let* taken := gets branch_taken in
  (if taken then
     let* target := gets branch_target in
     modify (set_pc target) ;;
     modify (set_branch_taken false) ;;
     modify (set_branch_target None)
   else
     let* p := get_pc in
     modify (set_pc (Some (Z.land (p + 4) 0xFFFFFFFF)))) ;;
  let* p := get_pc in
  if MemoryBus.MEMORY_SIZE <=? p then raise MemoryError else ret tt.

Definition execute_instruction (decoded_instr : decoded) : M t unit :=
  let opcode := key_opcode decoded_instr in
  if opcode =? 0x00 then _execute_r_type decoded_instr
  else if mem_of opcode I_TYPE then _execute_i_type decoded_instr
  else if mem_of opcode J_TYPE then _execute_j_type decoded_instr
  else if opcode =? 0x3F then modify (set_halted true)
  else ret tt.

(** The body of the [try] in [run]; the result tells whether the loop
    was left by [break]. *)
Definition run_body : M t bool :=
  let* p := get_pc in
  let* instruction := on_bus (MemoryBus.read_word p) in
  let* decoded := decode_instruction instruction in
  let opcode := key_opcode decoded in
  if opcode =? 0x00 then
    _execute_r_type decoded ;; update_pc ;; ret false
  else if mem_of opcode I_TYPE then
    _execute_i_type decoded ;; update_pc ;; ret false
  else if mem_of opcode J_TYPE then
    _execute_j_type decoded ;; update_pc ;; ret false
  else if opcode =? 0x3F then
    modify (set_halted true) ;; ret true
  else raise ValueError.

(** One trip through the [while] loop of [run]. *)
Inductive trip : Type :=
  | Continue (s : t)
  | Break (s : t)
  | Propagate (e : exn) (s : t).

(** The handler prints [hex(self.pc)], a [TypeError] when [self.pc] is
    [None], then sets [self.halted] and leaves the loop. *)
Definition run_iteration (s : t) : trip :=
  match run_body s with
  | Ok false s' => Continue s'
  | Ok true s' => Break s'
  | Raise e s' =>
      if isinstance_Exception e then
        match pc s' with
        | Some _ => Break (set_halted true s')
        | None => Propagate TypeError s'
        end
      else Propagate e s'
  end.

Inductive outcome : Type :=
  | Returned (s : t)
  | Propagated (e : exn) (s : t).

(** [run]: the loop may go on for ever, so it is given a bound on the
    number of trips; [None] means the bound was reached. *)
Fixpoint run (fuel : nat) (s : t) : option outcome :=
  if halted s then Some (Returned s)
  else
    match fuel with
    | O => None
    | S fuel' =>
        match run_iteration s with
        | Continue s' => run fuel' s'
        | Break s' => Some (Returned s')
        | Propagate e s' => Some (Propagated e s')
        end
    end.

End CPU.

(** ** cache.py: the direct-mapped cache

  The module defines [Cache] twice; the second definition is the one the
  name is bound to, and the one embedded here.  Its [memory_bus] is any
  object with an [IO_START] attribute and [read_word] / [write_word]
  methods; the bus is therefore a parameter: its state type, the
  constant and the two methods. *)

Module Cache.
Section WithBus.

Context {B : Type}.
Variable IO_START : Z.
Variable bus_read_word : Z -> M B Z.
Variable bus_write_word : Z -> Z -> M B unit.

(** A cache line is the tuple [(valid, tag, data)]; [data] is a
    [bytearray], shared by every tuple built from it. *)
Definition line : Type := (bool * Z * list Z)%type.

Record t : Type := mk {
  memory_bus : B;
  size : Z;
  line_size : Z;
  num_lines : Z;
  lines : list line;
  hits : Z;
  misses : Z
}.

Definition set_memory_bus (b : B) (c : t) : t :=
  mk b (size c) (line_size c) (num_lines c) (lines c) (hits c) (misses c).
Definition set_lines (f : list line -> list line) (c : t) : t :=
  mk (memory_bus c) (size c) (line_size c) (num_lines c) (f (lines c))
     (hits c) (misses c).
Definition set_hits (f : Z -> Z) (c : t) : t :=
  mk (memory_bus c) (size c) (line_size c) (num_lines c) (lines c)
     (f (hits c)) (misses c).
Definition set_misses (f : Z -> Z) (c : t) : t :=
  mk (memory_bus c) (size c) (line_size c) (num_lines c) (lines c)
     (hits c) (f (misses c)).

Definition empty_line (line_size : Z) : line :=
  (false, 0, replicate (Z.to_nat line_size) 0).

Definition init (bus : B) (size : Z) : t :=
  let line_size := 32 in
  let num_lines := size / line_size in
  mk bus size line_size num_lines
     (replicate (Z.to_nat num_lines) (empty_line line_size)) 0 0.

Definition on_bus {A} (c : M B A) : M t A := zoom memory_bus set_memory_bus c.

(** Python's [//] and [%] round towards minus infinity, as [Z.div] and
    [Z.modulo] do, and raise on a zero divisor. *)
Definition floordiv (a b : Z) : M t Z :=
  if b =? 0 then raise ZeroDivisionError else ret (a / b).
Definition pymod (a b : Z) : M t Z :=
  if b =? 0 then raise ZeroDivisionError else ret (a mod b).

Definition get_line (line_index : Z) : M t line :=
  let* ls := gets lines in orraise IndexError (Py.getitem ls line_index).
Definition set_line (line_index : Z) (l : line) : M t unit :=
  let* ls := gets lines in
  let* ls' := orraise IndexError (Py.setitem ls line_index l) in
  modify (set_lines (fun _ => ls')).

(** [(line_index, tag, offset)] of an address, in the order the source
    computes them. *)
Definition locate (address : Z) : M t (Z * Z * Z) :=
  let* ls := gets line_size in
  let* nl := gets num_lines in
  let* q := floordiv address ls in
  let* line_index := pymod q nl in
  let* tag := floordiv address (ls * nl) in
  let* offset := pymod address ls in
  ret (line_index, tag, offset).

(** [range(0, line_size, 4)] *)
Definition word_offsets (line_size : Z) : list Z :=
  map (fun k => 4 * k) (Py.range ((line_size + 3) / 4)).

(** The refill loop writes into [data] in place, so the line of the
    cache sees each word as soon as it is stored, under the valid bit
    and the tag it had. *)
Definition refill (line_index line_addr : Z) : M t unit :=
  let* ls := gets line_size in
  for_each (word_offsets ls) (fun i =>
    let* word := on_bus (bus_read_word (line_addr + i)) in
    let* bs := orraise OverflowError (Py.to_bytes4 word) in
    let* ln := get_line line_index in
    let '(valid, line_tag, data) := ln in
    set_line line_index (valid, line_tag, Py.slice_assign data i (i + 4) bs)).

Definition read_word (address : Z) : M t Z :=
  if IO_START <=? address then on_bus (bus_read_word address)
  else
    let* loc := locate address in
    let '(line_index, tag, offset) := loc in
    let* ln := get_line line_index in
    let '(valid, line_tag, data) := ln in
    if valid && (line_tag =? tag) then
      modify (set_hits (fun h => h + 1)) ;;
      ret (Py.from_bytes (Py.slice data offset (offset + 4)))
    else
      modify (set_misses (fun m => m + 1)) ;;
      let* ls := gets line_size in
      let* q := floordiv address ls in
      let line_addr := q * ls in
      refill line_index line_addr ;;
      let* ln := get_line line_index in
      let '(_, _, data) := ln in
      set_line line_index (true, tag, data) ;;
      ret (Py.from_bytes (Py.slice data offset (offset + 4))).

Definition write_word (address value : Z) : M t unit :=
  if IO_START <=? address then on_bus (bus_write_word address value)
  else
    on_bus (bus_write_word address value) ;;
    let* loc := locate address in
    let '(line_index, tag, offset) := loc in
    let* ln := get_line line_index in
    let '(valid, line_tag, data) := ln in
    if valid && (line_tag =? tag) then
      modify (set_hits (fun h => h + 1)) ;;
      let* bs := orraise OverflowError (Py.to_bytes4 value) in
      set_line line_index
        (true, tag, Py.slice_assign data offset (offset + 4) bs)
    else
      modify (set_misses (fun m => m + 1)).

Definition invalidate (address : option Z) : M t unit :=
  let* ls := gets line_size in
  let* nl := gets num_lines in
  match address with
  | None =>
      for_each (Py.range nl) (fun i => set_line i (empty_line ls))
  | Some a =>
      let* q := floordiv a ls in
      let* line_index := pymod q nl in
      set_line line_index (empty_line ls)
  end.

Definition get_hits (c : t) : Z := hits c.
Definition get_misses (c : t) : Z := misses c.

(** [(self.hits / total) if total > 0 else 0.0] : a float in both
    cases. *)
Definition get_hit_rate : M t spec_float :=
  let* h := gets hits in
  let* m := gets misses in
  let total := h + m in
  if 0 <? total then truediv h total else ret (S754_zero false).

End WithBus.
End Cache.

(** * Statements used by the properties *)

(** The value of a 32-bit register read as a two's-complement number. *)
Definition signed32 (x : Z) : Z := if x <? 2 ^ 31 then x else x - 2 ^ 32.

(** The value of a 16-bit immediate read as a two's-complement number. *)
Definition signed16 (x : Z) : Z := if x <? 2 ^ 15 then x else x - 2 ^ 16.

(** A register file as [reset] leaves it: 32 slots. *)
Definition well_formed (s : CPU.t) : Prop := length (CPU.registers s) = 32%nat.

(** SLT as a signed comparison of 32-bit register values: the destination
    (other than register 0) receives 1 exactly when [rs < rt] as signed
    numbers. *)
Definition slt_signed_claim : Prop :=
  forall (s s' : CPU.t) (rs rt rd shamt a b : Z),
    well_formed s ->
    0 <= rs < 32 -> 0 <= rt < 32 -> 0 < rd < 32 ->
    Py.getitem (CPU.registers s) rs = Some a ->
    Py.getitem (CPU.registers s) rt = Some b ->
    0 <= a < 2 ^ 32 -> 0 <= b < 2 ^ 32 ->
    CPU._execute_r_type (CPU.RType 0 rs rt rd shamt 0x2A) s = Ok tt s' ->
    Py.getitem (CPU.registers s') rd =
      Some (if signed32 a <? signed32 b then 1 else 0).

(** [decode_instruction] followed by [execute_instruction], for each word
    in turn. *)
Definition execute_words (ws : list Z) : M CPU.t unit :=
  for_each ws (fun w =>
    let* d := CPU.decode_instruction w in CPU.execute_instruction d).

(** [ADDI $8,$0,-1] and [ADDI $9,$0,1] *)
Definition minus_one_and_one : list Z := [0x2008FFFF; 0x20090001].
(** [ADD $10,$8,$9], [SUB $10,$0,$9] and [SLT $10,$8,$9] *)
Definition ADD_10_8_9 : Z := 0x01095020.
Definition SUB_10_0_9 : Z := 0x00095022.
Definition SLT_10_8_9 : Z := 0x0109502A.
(** [SUB $8,$0,$9] *)
Definition SUB_8_0_9 : Z := 0x00094022.

Definition register_after (ws : list Z) (bus : MemoryBus.t) (i : Z) : option Z :=
  match execute_words ws (CPU.reset bus) with
  | Ok _ s => Py.getitem (CPU.registers s) i
  | Raise _ _ => None
  end.

Definition state_after (ws : list Z) (bus : MemoryBus.t) : CPU.t :=
  state_of (execute_words ws (CPU.reset bus)).

(** A computation started in a state satisfying [P] ends in [Q] when it
    returns and in [E] when it raises. *)
Definition hoare {S A} (P : S -> Prop) (c : M S A)
  (Q : A -> S -> Prop) (E : exn -> S -> Prop) : Prop :=
  forall s, P s ->
    match c s with
    | Ok a s' => Q a s'
    | Raise e s' => E e s'
    end.

(** Register 0 reads 0. *)
Definition reg0_is_zero (s : CPU.t) : Prop :=
  Py.getitem (CPU.registers s) 0 = Some 0.

(** The opcodes that [execute_instruction] sends to [_execute_r_type] and
    [_execute_i_type]. *)
Definition r_or_i_type (d : CPU.decoded) : bool :=
  (CPU.key_opcode d =? 0x00) || CPU.mem_of (CPU.key_opcode d) CPU.I_TYPE.

Definition has_registers (s : CPU.t) : Prop :=
  (0 < length (CPU.registers s))%nat.

(** A bus on which one word has been stored with [write_word], the way
    main.py stores memory initialisation data. *)
Definition bus_with_word (address w : Z) : MemoryBus.t :=
  state_of (MemoryBus.write_word address w MemoryBus.init).

(** [LW $8, 0($29)]: after [reset], [$29] holds 0x7FFFFFFF. *)
Definition LW_8_0_29 : Z := 0x8FA80000.
Definition lw_fault_state : CPU.t := CPU.reset (bus_with_word 0 LW_8_0_29).
Definition lw_fault_fetched : CPU.t :=
  state_of (CPU.on_bus (MemoryBus.read_word 0) lw_fault_state).

(** The jump target of J and JAL. *)
Definition jump_target (p target26 : Z) : Z :=
  Z.lor (Z.land p 0xF0000000) (Z.shiftl target26 2).

(** The execute step of a J-type instruction followed by [update_pc], as
    [run] chains them. *)
Definition jump_step (opcode target26 : Z) : M CPU.t unit :=
  CPU._execute_j_type (CPU.JType opcode target26) ;; CPU.update_pc.

(** J sets the PC of the next fetch to the jump target, for every state
    at the start of an instruction and every 26-bit target field. *)
Definition jump_claim : Prop :=
  forall (s : CPU.t) (p target26 : Z),
    CPU.pc s = Some p -> CPU.branch_taken s = false ->
    0 <= p < MemoryBus.MEMORY_SIZE -> 0 <= target26 < 2 ^ 26 ->
    exists s' : CPU.t,
      jump_step 0x02 target26 s = Ok tt s' /\
      CPU.pc s' = Some (jump_target p target26).

(** What holds of the CPU between two instructions: the PC is a number,
    and a pending branch has its target. *)
Definition run_invariant (s : CPU.t) : Prop :=
  CPU.pc s <> None /\
  (CPU.branch_taken s = true -> CPU.branch_target s <> None).

(** [run] did not let an exception out, and if it returned the CPU is
    halted. *)
Definition caught_and_halted (o : option CPU.outcome) : Prop :=
  match o with
  | Some (CPU.Returned s') => CPU.halted s' = true
  | Some (CPU.Propagated _ _) => False
  | None => True
  end.

(** An opcode that [decode_instruction] rejects, stored at address 0. *)
Definition bad_opcode_state : CPU.t := CPU.reset (bus_with_word 0 0x04000000).
Definition bad_opcode_fetched : CPU.t :=
  state_of (CPU.on_bus (MemoryBus.read_word 0) bad_opcode_state).

(** The big-endian word stored in [memory] at [address], as [read_word]
    reads it on a miss. *)
Definition memory_word (b : MemoryBus.t) (address : Z) : Z :=
  Py.from_bytes (Py.slice (MemoryBus.memory b) address (address + 4)).

(** The dict of the bus cache. *)
Definition cached (b : MemoryBus.t) (address : Z) : option Z :=
  BusCache.cache (MemoryBus.cache b) !! address.

(** A new bus on which address 0 has been read once, and then memory
    initialisation data [{0: 1}] loaded with [load_memory]. *)
Definition bus_read_once : MemoryBus.t :=
  state_of (MemoryBus.read_word 0 MemoryBus.init).
Definition bus_then_loaded : MemoryBus.t :=
  state_of (MemoryBus.load_memory [(0, MemoryBus.IInt 1)] bus_read_once).

(** The counters and the geometry of a cache. *)
Definition cache_frame {B} (h m ls nl : Z) (c : @Cache.t B) : Prop :=
  Cache.hits c = h /\ Cache.misses c = m /\
  Cache.line_size c = ls /\ Cache.num_lines c = nl.

(** The line an address maps to, and its tag. *)
Definition line_index_of {B} (c : @Cache.t B) (address : Z) : Z :=
  (address / Cache.line_size c) mod Cache.num_lines c.
Definition tag_of {B} (c : @Cache.t B) (address : Z) : Z :=
  address / (Cache.line_size c * Cache.num_lines c).

(** The address maps to a line of the cache, and that line is invalid or
    carries another tag. *)
Definition not_resident {B} (c : @Cache.t B) (address : Z) : Prop :=
  Cache.line_size c <> 0 /\ Cache.num_lines c <> 0 /\
  exists valid line_tag data,
    Py.getitem (Cache.lines c) (line_index_of c address) =
      Some (valid, line_tag, data) /\
    valid && (line_tag =? tag_of c address) = false.

(** The doubles 0.0, 0.5 = 2^52 * 2^-53 and 50.0 = 50 * 2^47 * 2^-47. *)
Definition float_zero : spec_float := S754_zero false.
Definition float_half : spec_float := S754_finite false (2 ^ 52) (-53).
Definition float_fifty : spec_float := S754_finite false (50 * 2 ^ 47) (-47).

(** What a call returned, if it returned. *)
Definition returned {S A} (r : result S A) : option A :=
  match r with Ok a _ => Some a | Raise _ _ => None end.

(** The hit rate that the bus reports: [get_stats()['cache']['hit_rate']]. *)
Definition bus_hit_rate (b : MemoryBus.t) : option Py.number :=
  returned
    ((let* st := MemoryBus.get_stats in
      ret (BusCache.stats_hit_rate (MemoryBus.stats_cache st))) b).

(** After one miss and one hit on a new cache the reported hit rate is
    0.5, read on the statistics of the bus. *)
Definition bus_hit_rate_claim : Prop :=
  forall (b : MemoryBus.t) (address : Z),
    0 <= address -> address + 4 <= MemoryBus.MEMORY_SIZE ->
    cached b address = None ->
    BusCache.hits (MemoryBus.cache b) = 0 ->
    BusCache.misses (MemoryBus.cache b) = 0 ->
    bus_hit_rate
      (state_of (MemoryBus.read_word address
         (state_of (MemoryBus.read_word address b)))) =
      Some (Py.Float float_half).

(** A word write to an address that is not in the cache counts a miss
    and does not put the address in the cache, read on the cache of the
    bus. *)
Definition bus_write_no_allocate_claim : Prop :=
  forall (b : MemoryBus.t) (address value : Z),
    0 <= address -> address + 4 <= MemoryBus.MEMORY_SIZE ->
    0 <= value < 2 ^ 32 ->
    cached b address = None ->
    let b' := state_of (MemoryBus.write_word address value b) in
    BusCache.misses (MemoryBus.cache b') =
      BusCache.misses (MemoryBus.cache b) + 1 /\
    cached b' address = None.

(** The line cache of cache.py in front of the bus of memory_bus.py, which
    names [IO_BASE] the constant the cache calls [IO_START]. *)
Definition line_cache_read : Z -> M (@Cache.t MemoryBus.t) Z :=
  Cache.read_word MemoryBus.IO_BASE MemoryBus.read_word.
Definition line_cache_write : Z -> Z -> M (@Cache.t MemoryBus.t) unit :=
  Cache.write_word MemoryBus.IO_BASE MemoryBus.write_word.

(** A new bus whose first 32 bytes have been stored word by word. *)
Definition bus_with_first_line : MemoryBus.t :=
  state_of (for_each [0; 4; 8; 12; 16; 20; 24; 28]
              (fun a => MemoryBus.write_word a (a + 1)) MemoryBus.init).

Definition new_line_cache : @Cache.t MemoryBus.t :=
  Cache.init bus_with_first_line 1024.
Definition line_cache_read_once : @Cache.t MemoryBus.t :=
  state_of (line_cache_read 0 new_line_cache).

(** Whether a call returned, and the value it returned. *)
Definition returns {S A} (r : result S A) : bool :=
  match r with Ok _ _ => true | Raise _ _ => false end.
Definition value_of {S A} (default : A) (r : result S A) : A :=
  match r with Ok a _ => a | Raise _ _ => default end.

(** * instruction_parser.py: the words the assembler emits

    The text handling of the parser (splitting lines, register names,
    number formats, the label table) is not modelled; what is modelled is
    what each [_parse_*] method computes from the fields once they are
    parsed: opcode and function codes, register numbers, immediates and
    label addresses.  An [InstructionParserError] is [None]. *)

Module InstructionParser.

(** The values of the opcode and function code tables, in the order
    ADD, SUB, SLT; ADDI, LW, SW, BNE, BEQ; J, JAL. *)
Definition R_TYPE_OPCODE : Z := 0x00.
Definition R_TYPE_FUNCTS : list Z := [0x20; 0x22; 0x2A].
Definition I_TYPE_OPCODES : list Z := [0x08; 0x23; 0x2B; 0x05; 0x04].
Definition J_TYPE_OPCODES : list Z := [0x02; 0x03].

(** [_parse_r_type]:
    [(opcode << 26) | (rs << 21) | (rt << 16) | (rd << 11) | funct] *)
Definition _parse_r_type (opcode funct rd rs rt : Z) : Z :=
  Z.lor (Z.lor (Z.lor (Z.lor (Z.shiftl opcode 26) (Z.shiftl rs 21))
                  (Z.shiftl rt 16)) (Z.shiftl rd 11)) funct.

(** [_parse_immediate], also the offset of LW and SW: the number is cut
    to 16 bits and sign extended. *)
Definition _parse_immediate (value : Z) : Z :=
  let value := Z.land value 0xFFFF in
  if Z.land value 0x8000 =? 0 then value
  else Z.lor value (Z.shiftl (-1) 16).

(** The immediate of BNE and BEQ: the distance in words from the
    instruction after the branch to the label. *)
Definition branch_immediate (target_addr current_address : Z) : option Z :=
  let current_addr := current_address + 4 in
  let offset := Z.shiftr (target_addr - current_addr) 2 in
  if (-32768 <=? offset) && (offset <=? 32767) then Some (Z.land offset 0xFFFF)
  else None.

(** [_parse_i_type]:
    [(opcode << 26) | (rs << 21) | (rt << 16) | (immediate & 0xFFFF)] *)
Definition _parse_i_type (opcode rs rt immediate : Z) : Z :=
  Z.lor (Z.lor (Z.lor (Z.shiftl opcode 26) (Z.shiftl rs 21)) (Z.shiftl rt 16))
    (Z.land immediate 0xFFFF).

(** [_parse_j_type] on the address of the label. *)
Definition _parse_j_type (opcode target_addr : Z) : option Z :=
  let target := Z.shiftr target_addr 2 in
  if (0 <=? target) && (target <? Z.shiftl 1 26) then
    Some (Z.lor (Z.shiftl opcode 26) (Z.land target 0x3FFFFFF))
  else None.


(** The second pass of [parse_file] on the words of the instructions:
    [self.machine_code.extend(instruction.to_bytes(4, byteorder='big'))]
    for each one; [get_machine_code] returns the bytes.  A word outside
    [0, 2^32) makes [to_bytes] raise ([None]). *)
Fixpoint extend_machine_code (machine_code : list Z) (instructions : list Z)
  : option (list Z) :=
  match instructions with
  | [] => Some machine_code
  | instruction :: rest =>
      match Py.to_bytes4 instruction with
      | Some bs => extend_machine_code (machine_code ++ bs) rest
      | None => None
      end
  end.

Definition get_machine_code (instructions : list Z) : option (list Z) :=
  extend_machine_code [] instructions.

End InstructionParser.

(** * Statements used by the further properties *)


(** The opcode field of a word. *)
Definition opcode_field (w : Z) : Z := Z.land (Z.shiftr w 26) 0x3F.

(** The program counter is a word-aligned address inside the memory. *)
Definition pc_in_memory (s : CPU.t) : Prop :=
  exists p, CPU.pc s = Some p /\
            0 <= p < MemoryBus.MEMORY_SIZE /\ p mod 4 = 0.

(** The state of the CPU between two instructions of [run]. *)
Definition between_instructions (s : CPU.t) : Prop :=
  pc_in_memory s /\ CPU.branch_taken s = false.

(** The state in which [run] handed back control. *)
Definition returned_state (o : option CPU.outcome) : option CPU.t :=
  match o with Some (CPU.Returned s) => Some s | _ => None end.

(** A function code that [_execute_r_type] does not test for. *)
Definition unknown_funct (funct : Z) : Prop :=
  funct <> 0x20 /\ funct <> 0x22 /\ funct <> 0x2A.

(** A property of the state in which [run] returned, if it did. *)
Definition on_return (P : CPU.t -> Prop) (o : option CPU.outcome) : Prop :=
  match o with
  | Some (CPU.Returned s') => P s'
  | _ => True
  end.

(** A property that looks at the register file only. *)
Definition registers_only (P : CPU.t -> Prop) : Prop :=
  forall s s', CPU.registers s' = CPU.registers s -> P s -> P s'.

(** Inside an instruction: the PC is a multiple of 4 (a jump has already
    moved it to four below its target) and a recorded branch target is a
    non-negative multiple of 4. *)
Definition within_instruction (s : CPU.t) : Prop :=
  (exists q, CPU.pc s = Some q /\ q mod 4 = 0) /\
  (CPU.branch_taken s = true ->
   exists t, CPU.branch_target s = Some t /\ 0 <= t /\ t mod 4 = 0).

(** Whether a trip of the loop goes on to another one, and the state it
    ends in. *)
Definition continues (t : CPU.trip) : bool :=
  match t with CPU.Continue _ => true | _ => false end.
Definition trip_state (t : CPU.trip) : CPU.t :=
  match t with
  | CPU.Continue s | CPU.Break s | CPU.Propagate _ s => s
  end.

(** A CPU whose bus holds [ADDI $8,$0,-1] at address 0, and one whose bus
    holds HALT there. *)
Definition addi_state : CPU.t := CPU.reset (bus_with_word 0 0x2008FFFF).
Definition halt_state : CPU.t := CPU.reset (bus_with_word 0 0xFC000000).
Definition halt_fetched : CPU.t :=
  state_of (CPU.on_bus (MemoryBus.read_word 0) halt_state).

(** The bytearray of the bus has the size the constructor gave it. *)
Definition memory_sized (b : MemoryBus.t) : Prop :=
  Z.of_nat (length (MemoryBus.memory b)) = MemoryBus.MEMORY_SIZE.

(** The four bytes of a word, most significant first. *)
Definition big_endian (v : Z) : list Z :=
  [ (v / 2 ^ 24) mod 256; (v / 2 ^ 16) mod 256; (v / 2 ^ 8) mod 256; v mod 256 ].

(** An entry of the initialisation data that [load_memory] refuses: a value
    that is no int and no bytes, an int that does not fit in four bytes, or
    data that ends beyond the memory. *)
Definition entry_rejected (entry : Z * MemoryBus.init_value) : Prop :=
  match snd entry with
  | MemoryBus.IOther => True
  | MemoryBus.IInt n =>
      ~ (0 <= n < 2 ^ 32) \/ MemoryBus.MEMORY_SIZE < fst entry + 4
  | MemoryBus.IBytes bs =>
      MemoryBus.MEMORY_SIZE < fst entry + Z.of_nat (length bs)
  end.

(** A line cache of 32 lines in front of a new bus, whose line 0 holds the
    32 zero bytes at address 0 with tag 0. *)
Definition line_cache_holding_zero : @Cache.t MemoryBus.t :=
  Cache.set_lines
    (fun ls => <[0%nat := (true, 0, replicate 32 0)]> ls)
    (Cache.init MemoryBus.init 1024).

(** * io_device.py

    The two [print] calls of [write] are left out. *)

Module IODevice.

Record t : Type := mk {
  input_value : Z;
  output_buffer : list Z;
  completion_status : Z
}.

Definition init : t := mk 10 [] 0.

Definition read (address : Z) (d : t) : Z :=
  if address =? 0xF0000000 then input_value d else 0.

Definition write (address value : Z) (d : t) : t :=
  if address =? 0xF0000004 then
    mk (input_value d) (output_buffer d ++ [value]) (completion_status d)
  else if address =? 0xF0000008 then
    mk (input_value d) (output_buffer d) value
  else d.

Definition set_input (value : Z) (d : t) : t :=
  mk value (output_buffer d) (completion_status d).

Definition get_output (d : t) : list Z := output_buffer d.

Definition get_completion_status (d : t) : Z := completion_status d.

End IODevice.

(** The device after the values have been written, in order, to one
    address. *)
Definition after_writes (address : Z) (values : list Z) (d : IODevice.t)
  : IODevice.t :=
  fold_left (fun d value => IODevice.write address value d) values d.

(** * Properties *)

(** ** Sequences *)

Lemma index_nonneg (len i : Z) :
  0 <= i < len -> Py.index len i = Some (Z.to_nat i).
Proof.
  intros [H0 H1]. unfold Py.index.
  destruct (Z.leb_spec 0 i); [|lia].
  destruct (Z.ltb_spec i len); [|lia]. reflexivity.
Qed.

Lemma index_lt_length (len i : Z) (n : nat) :
  Py.index len i = Some n -> (Z.of_nat n < len).
Proof.
  unfold Py.index.
  destruct (Z.leb_spec 0 i), (Z.ltb_spec i len); simpl;
    try destruct (Z.ltb_spec i 0); try destruct (Z.leb_spec 0 (i + len));
    simpl; intros [= <-]; lia.
Qed.

Lemma index_zero (len : Z) (n : nat) :
  Py.index len 0 = Some n -> n = 0%nat.
Proof.
  unfold Py.index. simpl.
  destruct (Z.ltb_spec 0 len); simpl.
  - intros [= <-]. reflexivity.
  - discriminate.
Qed.

Lemma index_pos_ne_zero (len i : Z) (n : nat) :
  0 < i -> Py.index len i = Some n -> n <> 0%nat.
Proof.
  intros Hi. unfold Py.index.
  destruct (Z.leb_spec 0 i); [|lia].
  destruct (Z.ltb_spec i len); simpl.
  - intros [= <-]. lia.
  - destruct (Z.ltb_spec i 0); [lia|]. simpl. discriminate.
Qed.

Lemma getitem_nonneg {A} (l : list A) (i : Z) :
  0 <= i < Z.of_nat (length l) -> Py.getitem l i = l !! Z.to_nat i.
Proof. intros H. unfold Py.getitem. rewrite index_nonneg by exact H. reflexivity. Qed.

Lemma setitem_nonneg {A} (l : list A) (i : Z) (x : A) :
  0 <= i < Z.of_nat (length l) ->
  Py.setitem l i x = Some (<[Z.to_nat i := x]> l).
Proof. intros H. unfold Py.setitem. rewrite index_nonneg by exact H. reflexivity. Qed.

Lemma setitem_length {A} (l l' : list A) (i : Z) (x : A) :
  Py.setitem l i x = Some l' -> length l' = length l.
Proof.
  unfold Py.setitem. destruct (Py.index _ i); intros [= <-].
  apply length_insert.
Qed.

(** After [l[0] = x] succeeded, [l[0]] is [x]. *)
Lemma getitem_setitem_zero {A} (l l' : list A) (x : A) :
  Py.setitem l 0 x = Some l' -> Py.getitem l' 0 = Some x.
Proof.
  intros H. pose proof (setitem_length _ _ _ _ H) as Hlen.
  unfold Py.setitem in H. unfold Py.getitem. rewrite Hlen.
  destruct (Py.index _ 0) as [n|] eqn:E; [|discriminate].
  injection H as <-. pose proof (index_lt_length _ _ _ E).
  apply index_zero in E. subst n.
  apply list_lookup_insert_eq. lia.
Qed.

(** Storing at a positive index leaves [l[0]] alone. *)
Lemma getitem_zero_setitem_pos {A} (l l' : list A) (i : Z) (x : A) :
  0 < i -> Py.setitem l i x = Some l' -> Py.getitem l' 0 = Py.getitem l 0.
Proof.
  intros Hi H. pose proof (setitem_length _ _ _ _ H) as Hlen.
  unfold Py.setitem in H. unfold Py.getitem. rewrite Hlen.
  destruct (Py.index _ i) as [n|] eqn:E; [|discriminate].
  injection H as <-. apply index_pos_ne_zero in E; [|exact Hi].
  destruct (Py.index _ 0) as [m|] eqn:E0; [|reflexivity].
  apply index_zero in E0. subst m.
  apply list_lookup_insert_ne. exact E.
Qed.

(** ** The monad *)

Lemma bind_Ok {S A B} (c : M S A) (k : A -> M S B) (s s' : S) (a : A) :
  c s = Ok a s' -> bind c k s = k a s'.
Proof. intros H. unfold bind. rewrite H. reflexivity. Qed.

Lemma bind_Raise {S A B} (c : M S A) (k : A -> M S B) (s s' : S) (e : exn) :
  c s = Raise e s' -> bind c k s = Raise e s'.
Proof. intros H. unfold bind. rewrite H. reflexivity. Qed.

(** ** Registers *)

Lemma get_reg_Ok (s : CPU.t) (i a : Z) :
  Py.getitem (CPU.registers s) i = Some a -> CPU.get_reg i s = Ok a s.
Proof. intros H. unfold CPU.get_reg, bind, gets, orraise. rewrite H. reflexivity. Qed.

Lemma set_reg_Ok (s : CPU.t) (i v : Z) :
  0 <= i < Z.of_nat (length (CPU.registers s)) ->
  CPU.set_reg i v s =
    Ok tt (CPU.set_registers (<[Z.to_nat i := v]> (CPU.registers s)) s).
Proof.
  intros H. unfold CPU.set_reg, bind, gets, orraise, modify.
  rewrite setitem_nonneg by exact H. reflexivity.
Qed.

(** What [set_reg] can do: fail with the state untouched, or store. *)
Lemma set_reg_cases (s : CPU.t) (i v : Z) :
  (CPU.set_reg i v s = Raise IndexError s /\
   Py.setitem (CPU.registers s) i v = None) \/
  (exists regs', Py.setitem (CPU.registers s) i v = Some regs' /\
     CPU.set_reg i v s = Ok tt (CPU.set_registers regs' s)).
Proof.
  unfold CPU.set_reg, bind, gets, orraise, modify.
  destruct (Py.setitem _ i v) as [regs'|]; [right; eauto | left; auto].
Qed.

(** ** C1: ADD and SUB store the unreduced result

    [_execute_r_type] stores what [InstructionSet.add] and
    [InstructionSet.sub] return, and those return [rs + rt] and [rs - rt]
    as Python integers; ADDI, next to them, masks with [0xFFFFFFFF]. *)

(** C1 (evaluation at the failing input): after [ADDI $8,$0,-1] and
    [ADDI $9,$0,1], which leave 0xFFFFFFFF and 1 in registers 8 and 9,
    [ADD $10,$8,$9] leaves 2^32 in register 10 and [SUB $10,$0,$9] leaves
    -1 there: neither value lies in [0, 2^32). *)
Theorem add_sub_leave_unreduced_result :
  forall bus : MemoryBus.t,
    register_after minus_one_and_one bus 8 = Some 0xFFFFFFFF /\
    register_after minus_one_and_one bus 9 = Some 1 /\
    register_after (minus_one_and_one ++ [ADD_10_8_9]) bus 10 = Some (2 ^ 32) /\
    register_after (minus_one_and_one ++ [SUB_10_0_9]) bus 10 = Some (-1).
Proof. intros bus. vm_compute. auto. Qed.

(** ** C2: SLT compares the stored integers

    [InstructionSet.slt] is [1 if rs < rt else 0] on the integers the
    registers hold, and nothing reads a register as a signed 32-bit
    number: 0xFFFFFFFF, which ADDI leaves for -1, is not less than 1,
    while the -1 that SUB leaves unreduced is. *)

Lemma slt_example (bus : MemoryBus.t) :
  let s := state_after minus_one_and_one bus in
  let s' := state_after (minus_one_and_one ++ [SLT_10_8_9]) bus in
  well_formed s /\
  Py.getitem (CPU.registers s) 8 = Some 0xFFFFFFFF /\
  Py.getitem (CPU.registers s) 9 = Some 1 /\
  CPU._execute_r_type (CPU.RType 0 8 9 10 0 0x2A) s = Ok tt s' /\
  Py.getitem (CPU.registers s') 10 = Some 0.
Proof. vm_compute. auto. Qed.

(** The signed reading of SLT fails: with 0xFFFFFFFF (signed -1) in
    register 8 and 1 in register 9, [SLT $10,$8,$9] leaves 0 in register
    10, where a signed comparison gives 1. *)
Lemma slt_signed_claim_fails : ~ slt_signed_claim.
Proof.
  intros H.
  destruct (slt_example MemoryBus.init) as (Hwf & H8 & H9 & Hex & H10).
  specialize (H _ _ 8 9 10 0 _ _ Hwf ltac:(lia) ltac:(lia) ltac:(lia)
                H8 H9 ltac:(lia) ltac:(lia) Hex).
  rewrite H10 in H. vm_compute in H. discriminate H.
Qed.

(** What SLT does in every state: it stores in [rd] the outcome of
    comparing the integers held in [rs] and [rt] (1 when the first is
    smaller, else 0); register 0 ends as 0 whatever [rd] is. *)
Lemma slt_compares_stored_integers :
  forall (s : CPU.t) (rs rt rd shamt a b : Z),
    well_formed s ->
    0 <= rs < 32 -> 0 <= rt < 32 -> 0 <= rd < 32 ->
    Py.getitem (CPU.registers s) rs = Some a ->
    Py.getitem (CPU.registers s) rt = Some b ->
    exists s' : CPU.t,
      CPU._execute_r_type (CPU.RType 0 rs rt rd shamt 0x2A) s = Ok tt s' /\
      Py.getitem (CPU.registers s') rd =
        Some (if rd =? 0 then 0 else if a <? b then 1 else 0) /\
      Py.getitem (CPU.registers s') 0 = Some 0.
Proof.
  intros s rs rt rd shamt a b Hwf Hrs Hrt Hrd Ha Hb.
  unfold well_formed in Hwf.
  unfold CPU._execute_r_type. simpl CPU.key_funct. simpl CPU.key_rs.
  simpl CPU.key_rt. simpl CPU.key_rd. unfold orraise at 1 2 3 4.
  unfold bind at 1. unfold ret at 1.
  unfold bind at 1. unfold ret at 1.
  rewrite (bind_Ok _ _ _ _ _ (get_reg_Ok _ _ _ Ha)).
  unfold bind at 1. unfold ret at 1.
  rewrite (bind_Ok _ _ _ _ _ (get_reg_Ok _ _ _ Hb)).
  unfold bind at 1. unfold ret at 1.
  change (0x2A =? 0x20) with false. change (0x2A =? 0x22) with false.
  change (0x2A =? 0x2A) with true. cbv iota.
  erewrite bind_Ok by (apply set_reg_Ok; rewrite Hwf; lia).
  rewrite set_reg_Ok by (simpl; rewrite length_insert, Hwf; lia).
  eexists. split; [reflexivity|]. simpl CPU.registers.
  rewrite !getitem_nonneg by (rewrite !length_insert, Hwf; lia).
  unfold InstructionSet.slt. split.
  - destruct (Z.eqb_spec rd 0) as [->|Hne].
    + apply list_lookup_insert_eq. rewrite length_insert, Hwf. simpl. lia.
    + rewrite list_lookup_insert_ne by lia.
      apply list_lookup_insert_eq. lia.
  - apply list_lookup_insert_eq. rewrite length_insert, Hwf. simpl. lia.
Qed.

(** C2 (evaluation at the failing input): after [ADDI $8,$0,-1] and
    [ADDI $9,$0,1], which leave 0xFFFFFFFF (signed -1) and 1 in registers
    8 and 9, [SLT $10,$8,$9] leaves 0 in register 10, where the signed
    comparison -1 < 1 gives 1.  The comparison is not the unsigned one
    either: when [SUB $8,$0,$9] has left its unreduced -1 in register 8,
    the same [SLT $10,$8,$9] leaves 1. *)
Theorem slt_reads_no_sign :
  forall bus : MemoryBus.t,
    register_after minus_one_and_one bus 8 = Some 0xFFFFFFFF /\
    register_after minus_one_and_one bus 9 = Some 1 /\
    signed32 0xFFFFFFFF = -1 /\
    register_after (minus_one_and_one ++ [SLT_10_8_9]) bus 10 = Some 0 /\
    register_after (minus_one_and_one ++ [SUB_8_0_9]) bus 8 = Some (-1) /\
    register_after (minus_one_and_one ++ [SUB_8_0_9; SLT_10_8_9]) bus 10 =
      Some 1.
Proof. intros bus. vm_compute. auto 10. Qed.

(** ** Rules for [hoare] *)

Section HoareRules.

Context {S : Type}.
Implicit Types (P : S -> Prop) (E : exn -> S -> Prop).

Lemma hoare_bind {A B} P (c : M S A) (k : A -> M S B)
    (Q : A -> S -> Prop) (R : B -> S -> Prop) E :
  hoare P c Q E -> (forall a, hoare (Q a) (k a) R E) -> hoare P (bind c k) R E.
Proof.
  intros Hc Hk s HP. unfold bind. specialize (Hc s HP).
  destruct (c s) as [a s'|e s']; [apply Hk; exact Hc | exact Hc].
Qed.

Lemma hoare_ret {A} P (a : A) (Q : A -> S -> Prop) E :
  (forall s, P s -> Q a s) -> hoare P (ret a) Q E.
Proof. intros H s HP. apply H, HP. Qed.

Lemma hoare_raise {A} P (e : exn) (Q : A -> S -> Prop) E :
  (forall s, P s -> E e s) -> hoare P (raise e : M S A) Q E.
Proof. intros H s HP. apply H, HP. Qed.

Lemma hoare_gets {A} P (f : S -> A) (Q : A -> S -> Prop) E :
  (forall s, P s -> Q (f s) s) -> hoare P (gets f) Q E.
Proof. intros H s HP. apply H, HP. Qed.

Lemma hoare_modify P (f : S -> S) (Q : unit -> S -> Prop) E :
  (forall s, P s -> Q tt (f s)) -> hoare P (modify f) Q E.
Proof. intros H s HP. apply H, HP. Qed.

Lemma hoare_orraise {A} P (e : exn) (o : option A) (Q : A -> S -> Prop) E :
  (forall a s, o = Some a -> P s -> Q a s) ->
  (forall s, o = None -> P s -> E e s) ->
  hoare P (orraise e o) Q E.
Proof.
  intros H1 H2 s HP. destruct o as [a|]; simpl.
  - apply H1; auto.
  - apply H2; auto.
Qed.

Lemma hoare_weaken {A} P P' (c : M S A) (Q Q' : A -> S -> Prop) E E' :
  hoare P' c Q' E' ->
  (forall s, P s -> P' s) ->
  (forall a s, Q' a s -> Q a s) ->
  (forall e s, E' e s -> E e s) ->
  hoare P c Q E.
Proof.
  intros H HP HQ HE s0 Hs. specialize (H s0 (HP s0 Hs)).
  destruct (c s0); auto.
Qed.

Lemma hoare_for_each {A} P (xs : list A) (body : A -> M S unit) E :
  (forall x, hoare P (body x) (fun _ => P) E) ->
  hoare P (for_each xs body) (fun _ => P) E.
Proof.
  intros H. induction xs as [|x xs IH]; simpl.
  - apply hoare_ret. auto.
  - eapply hoare_bind; [apply H|]. intros []. exact IH.
Qed.

(** A computation on a component keeps whatever the setter of that
    component keeps. *)
Lemma hoare_zoom_frame {T A} P (get : S -> T) (set : T -> S -> S) (c : M T A) :
  (forall t s, P s -> P (set t s)) ->
  hoare P (zoom get set c) (fun _ => P) (fun _ => P).
Proof.
  intros H s HP. unfold zoom. destruct (c (get s)); apply H, HP.
Qed.

End HoareRules.

(** ** C5: register 0 *)

(** Reading a register changes nothing. *)
Lemma hoare_get_reg (P : CPU.t -> Prop) (i : Z) :
  hoare P (CPU.get_reg i) (fun _ => P) (fun _ => P).
Proof.
  intros s HP. unfold CPU.get_reg, bind, gets, orraise.
  destruct (Py.getitem _ i); exact HP.
Qed.

Lemma hoare_get_pc (P : CPU.t -> Prop) :
  hoare P CPU.get_pc (fun _ => P) (fun _ => P).
Proof.
  intros s HP. unfold CPU.get_pc, bind, gets, orraise.
  destruct (CPU.pc s); exact HP.
Qed.

Lemma hoare_orraise_frame {S A} (P : S -> Prop) (e : exn) (o : option A) :
  hoare P (orraise e o) (fun _ => P) (fun _ => P).
Proof. apply hoare_orraise; auto. Qed.

Lemma hoare_modify_frame {S} (P : S -> Prop) (f : S -> S) :
  (forall s, P s -> P (f s)) ->
  hoare P (modify f) (fun _ => P) (fun _ => P).
Proof. intros H. apply hoare_modify. exact H. Qed.

Lemma hoare_gets_frame {S A} (P : S -> Prop) (f : S -> A) :
  hoare P (gets f) (fun _ => P) (fun _ => P).
Proof. apply hoare_gets. auto. Qed.

Lemma hoare_frame_weaken {S A} (P : S -> Prop) (c : M S A)
    (Q : A -> S -> Prop) (E : exn -> S -> Prop) :
  hoare P c (fun _ => P) (fun _ => P) ->
  (forall a s, P s -> Q a s) -> (forall e s, P s -> E e s) ->
  hoare P c Q E.
Proof. intros H HQ HE. eapply hoare_weaken; eauto. Qed.

Lemma reg0_has_registers (s : CPU.t) : reg0_is_zero s -> has_registers s.
Proof.
  unfold reg0_is_zero, has_registers, Py.getitem.
  destruct (Py.index _ 0) as [n|] eqn:E; [|discriminate].
  intros _. apply index_lt_length in E. lia.
Qed.

(** A store into the register file either fails and changes nothing, or
    keeps the number of registers. *)
Lemma hoare_set_reg_length (i v : Z) :
  hoare reg0_is_zero (CPU.set_reg i v)
    (fun _ => has_registers) (fun _ => reg0_is_zero).
Proof.
  intros s H0. destruct (set_reg_cases s i v) as [[-> _]|(regs' & Hset & ->)].
  - exact H0.
  - unfold has_registers. simpl. rewrite (setitem_length _ _ _ _ Hset).
    apply reg0_has_registers, H0.
Qed.

(** [self.registers[0] = 0] succeeds on a non-empty register file. *)
Lemma hoare_set_reg_zero (E : exn -> CPU.t -> Prop) :
  hoare has_registers (CPU.set_reg 0 0) (fun _ => reg0_is_zero) E.
Proof.
  intros s H. unfold has_registers in H.
  rewrite set_reg_Ok by lia. unfold reg0_is_zero. simpl.
  rewrite getitem_nonneg by (rewrite length_insert; lia).
  apply list_lookup_insert_eq. simpl. lia.
Qed.

(** A store at a positive index keeps register 0. *)
Lemma hoare_set_reg_pos (i v : Z) :
  0 < i ->
  hoare reg0_is_zero (CPU.set_reg i v)
    (fun _ => reg0_is_zero) (fun _ => reg0_is_zero).
Proof.
  intros Hi s H0. destruct (set_reg_cases s i v) as [[-> _]|(regs' & Hset & ->)].
  - exact H0.
  - unfold reg0_is_zero. simpl.
    rewrite (getitem_zero_setitem_pos _ _ _ _ Hi Hset). exact H0.
Qed.

Lemma hoare_on_bus_reg0 {A} (c : M MemoryBus.t A) :
  hoare reg0_is_zero (CPU.on_bus c)
    (fun _ => reg0_is_zero) (fun _ => reg0_is_zero).
Proof. apply hoare_zoom_frame. intros t s H. exact H. Qed.

Lemma hoare_take_branch_reg0 (immediate : Z) :
  hoare reg0_is_zero (CPU.take_branch immediate)
    (fun _ => reg0_is_zero) (fun _ => reg0_is_zero).
Proof.
  unfold CPU.take_branch.
  eapply hoare_bind; [apply hoare_get_pc|]. intros p.
  eapply hoare_bind; [apply hoare_modify_frame; intros s H; exact H|].
  intros []. apply hoare_modify_frame. intros s H. exact H.
Qed.

Lemma hoare_jump_to_reg0 (target_addr : Z) :
  hoare reg0_is_zero (CPU.jump_to target_addr)
    (fun _ => reg0_is_zero) (fun _ => reg0_is_zero).
Proof.
  unfold CPU.jump_to.
  eapply hoare_bind; [apply hoare_get_pc|]. intros p.
  destruct (_ <=? _).
  - apply hoare_raise. auto.
  - apply hoare_modify_frame. intros s H. exact H.
Qed.

(** Peeling the dictionary and register reads that open each
    [_execute_*] method. *)
Ltac peel_reads :=
  repeat match goal with
         | |- hoare _ (bind _ _) _ _ =>
             eapply hoare_bind;
             [ first [ apply hoare_orraise_frame | apply hoare_get_reg
                     | apply hoare_get_pc | apply hoare_on_bus_reg0 ]
             | intros ? ]
         end.

Lemma hoare_execute_r_type_reg0 (d : CPU.decoded) :
  hoare reg0_is_zero (CPU._execute_r_type d)
    (fun _ => reg0_is_zero) (fun _ => reg0_is_zero).
Proof.
  unfold CPU._execute_r_type. peel_reads.
  eapply hoare_bind with (Q := fun _ => has_registers);
    [|intros []; apply hoare_set_reg_zero].
  repeat match goal with
         | |- hoare _ (if ?b then _ else _) _ _ => destruct b
         end; try apply hoare_set_reg_length.
  apply hoare_ret. intros s. apply reg0_has_registers.
Qed.

Lemma hoare_execute_i_type_reg0 (d : CPU.decoded) :
  hoare reg0_is_zero (CPU._execute_i_type d)
    (fun _ => reg0_is_zero) (fun _ => reg0_is_zero).
Proof.
  unfold CPU._execute_i_type. peel_reads.
  eapply hoare_bind with (Q := fun _ => has_registers);
    [|intros []; apply hoare_set_reg_zero].
  repeat match goal with
         | |- hoare _ (if ?b then _ else _) _ _ => destruct b
         end; peel_reads;
  repeat match goal with
         | |- hoare _ (if ?b then _ else _) _ _ => destruct b
         end;
  try apply hoare_set_reg_length;
  try (apply hoare_raise; auto);
  try (apply hoare_ret; intros s; apply reg0_has_registers);
  try (eapply hoare_frame_weaken;
       [ first [apply hoare_on_bus_reg0 | apply hoare_take_branch_reg0]
       | intros _ s; apply reg0_has_registers | auto ]).
Qed.

Lemma hoare_execute_j_type_reg0 (d : CPU.decoded) :
  hoare reg0_is_zero (CPU._execute_j_type d)
    (fun _ => reg0_is_zero) (fun _ => reg0_is_zero).
Proof.
  unfold CPU._execute_j_type. peel_reads.
  repeat match goal with
         | |- hoare _ (if ?b then _ else _) _ _ => destruct b
         end.
  - apply hoare_jump_to_reg0.
  - peel_reads.
    eapply hoare_bind; [apply hoare_set_reg_pos; lia|]. intros [].
    apply hoare_jump_to_reg0.
  - apply hoare_ret. auto.
Qed.

Lemma hoare_execute_instruction_reg0 (d : CPU.decoded) :
  hoare reg0_is_zero (CPU.execute_instruction d)
    (fun _ => reg0_is_zero) (fun _ => reg0_is_zero).
Proof.
  unfold CPU.execute_instruction.
  repeat match goal with
         | |- hoare _ (if ?b then _ else _) _ _ => destruct b
         end.
  - apply hoare_execute_r_type_reg0.
  - apply hoare_execute_i_type_reg0.
  - apply hoare_execute_j_type_reg0.
  - apply hoare_modify. intros s H. exact H.
  - apply hoare_ret. auto.
Qed.

(** Whatever precedes it, a method that ends with
    [self.registers[0] = 0] returns with register 0 at 0. *)
Lemma ends_with_set_reg_zero {A} (c : M CPU.t A) (s s' : CPU.t) :
  bind c (fun _ => CPU.set_reg 0 0) s = Ok tt s' -> reg0_is_zero s'.
Proof.
  unfold bind. destruct (c s) as [a s1|e s1]; [|discriminate].
  destruct (set_reg_cases s1 0 0) as [[-> _]|(regs' & Hset & ->)];
    [discriminate|].
  intros [= <-]. unfold reg0_is_zero. simpl.
  apply (getitem_setitem_zero _ _ _ Hset).
Qed.

Lemma bind_Ok_inv {S A B} (c : M S A) (k : A -> M S B) (s s2 : S) (b : B) :
  bind c k s = Ok b s2 -> exists a s1, c s = Ok a s1 /\ k a s1 = Ok b s2.
Proof.
  unfold bind. destruct (c s) as [a s1|e s1]; [|discriminate]. eauto.
Qed.

Lemma execute_r_type_sets_reg0 (d : CPU.decoded) (s s' : CPU.t) :
  CPU._execute_r_type d s = Ok tt s' -> reg0_is_zero s'.
Proof.
  unfold CPU._execute_r_type. intros H.
  do 6 (apply bind_Ok_inv in H as (? & ? & _ & H)).
  exact (ends_with_set_reg_zero _ _ _ H).
Qed.

Lemma execute_i_type_sets_reg0 (d : CPU.decoded) (s s' : CPU.t) :
  CPU._execute_i_type d s = Ok tt s' -> reg0_is_zero s'.
Proof.
  unfold CPU._execute_i_type. intros H.
  do 4 (apply bind_Ok_inv in H as (? & ? & _ & H)).
  exact (ends_with_set_reg_zero _ _ _ H).
Qed.

(** C5: register 0 reads 0 after the execute step of every decoded
    instruction.  [_execute_r_type] and [_execute_i_type] force it to 0
    whenever they return, whatever the state was; over all instructions
    (J, JAL and HALT touch no register but [$ra]) it reads 0 after the
    step, returned or raised, as soon as it read 0 before it, which
    [reset] establishes. *)
Theorem register_zero_after_execute :
  (forall bus, reg0_is_zero (CPU.reset bus)) /\
  (forall (d : CPU.decoded) (s s' : CPU.t),
     r_or_i_type d = true ->
     CPU.execute_instruction d s = Ok tt s' -> reg0_is_zero s') /\
  (forall (d : CPU.decoded) (s : CPU.t),
     reg0_is_zero s -> reg0_is_zero (state_of (CPU.execute_instruction d s))).
Proof.
  split; [|split].
  - intros bus. reflexivity.
  - intros d s s'. unfold r_or_i_type, CPU.execute_instruction.
    destruct (CPU.key_opcode d =? 0); simpl.
    + intros _. apply execute_r_type_sets_reg0.
    + intros ->. apply execute_i_type_sets_reg0.
  - intros d s H. pose proof (hoare_execute_instruction_reg0 d s H) as Hh.
    destruct (CPU.execute_instruction d s); exact Hh.
Qed.


Lemma register_zero_after_execute_witness :
  reg0_is_zero
    (state_of (CPU.execute_instruction (CPU.IType 0x08 0 0 5)
                 (CPU.reset MemoryBus.init))) /\
  reg0_is_zero
    (state_of (CPU.execute_instruction (CPU.JType 0x03 4)
                 (CPU.reset MemoryBus.init))).
Proof.
  split.
  - apply (proj1 (proj2 register_zero_after_execute) (CPU.IType 0x08 0 0 5)
             (CPU.reset MemoryBus.init)).
    + reflexivity.
    + reflexivity.
  - apply (proj2 (proj2 register_zero_after_execute)). reflexivity.
Defined.

(** ** Bit facts *)

Lemma land_mask32 (x : Z) : Z.land x 0xFFFFFFFF = x mod 2 ^ 32.
Proof. change 0xFFFFFFFF with (Z.ones 32). apply Z.land_ones. lia. Qed.

Lemma land_bit15_low (x : Z) : 0 <= x < 2 ^ 15 -> Z.land x 0x8000 = 0.
Proof.
  intros H. apply Z.bits_inj'. intros n Hn.
  rewrite Z.land_spec, Z.bits_0. change 0x8000 with (2 ^ 15).
  rewrite Z.pow2_bits_eqb by lia.
  destruct (Z.eqb_spec 15 n) as [<-|]; [|apply andb_false_r].
  rewrite andb_true_r. apply Z.testbit_false; [lia|].
  rewrite Z.div_small by lia. reflexivity.
Qed.

Lemma land_bit15_high (x : Z) : 2 ^ 15 <= x < 2 ^ 16 -> Z.land x 0x8000 = 0x8000.
Proof.
  intros H. apply Z.bits_inj'. intros n Hn.
  rewrite Z.land_spec. change 0x8000 with (2 ^ 15).
  rewrite Z.pow2_bits_eqb by lia.
  destruct (Z.eqb_spec 15 n) as [<-|]; [|apply andb_false_r].
  rewrite andb_true_r. apply Z.testbit_true; [lia|].
  assert (x / 2 ^ 15 = 1) as ->
    by (symmetry; apply Z.div_unique with (r := x - 2 ^ 15); lia).
  reflexivity.
Qed.

Lemma lor_sign_bits (x : Z) :
  0 <= x < 2 ^ 16 -> Z.lor x (Z.shiftl (-1) 16) = x - 2 ^ 16.
Proof.
  intros H. change (Z.shiftl (-1) 16) with (Z.lnot (Z.ones 16)).
  assert (Z.land x (Z.lnot (Z.ones 16)) = 0) as Hdisj.
  { rewrite <- Z.ldiff_land, Z.ldiff_ones_r by lia.
    rewrite Z.shiftr_div_pow2 by lia. rewrite Z.div_small by lia.
    apply Z.shiftl_0_l. }
  rewrite <- Z.lxor_lor by exact Hdisj.
  rewrite <- Z.add_nocarry_lxor by exact Hdisj.
  change (Z.lnot (Z.ones 16)) with (- 2 ^ 16). lia.
Qed.

(** On a 16-bit field, the source's sign extension is the two's-complement
    reading of the field. *)
Lemma sign_extend_signed16 (x : Z) :
  0 <= x < 2 ^ 16 -> CPU.sign_extend x = signed16 x.
Proof.
  intros H. unfold CPU.sign_extend, signed16.
  destruct (Z.ltb_spec x (2 ^ 15)).
  - rewrite land_bit15_low by lia. reflexivity.
  - rewrite land_bit15_high by lia. change (0x8000 =? 0) with false. cbv iota.
    apply lor_sign_bits. lia.
Qed.

(** Extending an already extended immediate changes nothing. *)
Lemma sign_extend_idempotent (x : Z) :
  CPU.sign_extend (CPU.sign_extend x) = CPU.sign_extend x.
Proof.
  unfold CPU.sign_extend.
  destruct (Z.land x 0x8000 =? 0) eqn:E.
  - rewrite E. reflexivity.
  - destruct (Z.land (Z.lor x _) 0x8000 =? 0); [reflexivity|].
    rewrite <- Z.lor_assoc, Z.lor_diag. reflexivity.
Qed.

(** The instruction fields are masked with [2^n - 1]. *)
Lemma land_ones_range (x n : Z) :
  0 <= n -> 0 <= Z.land x (Z.ones n) < 2 ^ n.
Proof.
  intros Hn. rewrite Z.land_ones by exact Hn.
  apply Z.mod_pos_bound. apply Z.pow_pos_nonneg; lia.
Qed.

(** ** C7: a load beyond the memory *)

Lemma mem_of_cons (x y : Z) (l : list Z) :
  CPU.mem_of x (y :: l) = (x =? y) || CPU.mem_of x l.
Proof. reflexivity. Qed.

(** Decoding a word whose opcode field is 0x23. *)
Lemma decode_lw (w : Z) (s : CPU.t) :
  Z.land (Z.shiftr w 26) 0x3F = 0x23 ->
  CPU.decode_instruction w s =
    Ok (CPU.IType 0x23 (Z.land (Z.shiftr w 21) 0x1F)
          (Z.land (Z.shiftr w 16) 0x1F)
          (CPU.sign_extend (Z.land w 0xFFFF))) s.
Proof.
  intros H. unfold CPU.decode_instruction. rewrite H. reflexivity.
Qed.

(** The address LW computes is [(rs + sign_extend(imm)) mod 2^32]; at or
    beyond [MEMORY_SIZE] the method raises before it touches anything. *)
Lemma execute_lw_out_of_bounds (s : CPU.t) (rs rt imm16 a : Z) :
  0 <= imm16 < 2 ^ 16 ->
  Py.getitem (CPU.registers s) rs = Some a ->
  MemoryBus.MEMORY_SIZE <= (a + signed16 imm16) mod 2 ^ 32 ->
  CPU._execute_i_type (CPU.IType 0x23 rs rt (CPU.sign_extend imm16)) s =
    Raise MemoryError s.
Proof.
  intros Himm Ha Hoob. unfold CPU._execute_i_type.
  simpl CPU.key_rs. simpl CPU.key_rt. simpl CPU.key_immediate.
  simpl CPU.key_opcode. unfold orraise.
  unfold bind at 1. unfold ret at 1.
  rewrite (bind_Ok _ _ _ _ _ (get_reg_Ok _ _ _ Ha)).
  unfold bind at 1. unfold ret at 1.
  unfold bind at 1. unfold ret at 1.
  change (CPU.mem_of 0x23 [0x08; 0x23; 0x2B]) with true. cbv iota.
  change (0x23 =? 0x08) with false. change (0x23 =? 0x23) with true. cbv iota.
  rewrite sign_extend_idempotent, sign_extend_signed16 by exact Himm.
  rewrite land_mask32.
  destruct (Z.leb_spec MemoryBus.MEMORY_SIZE ((a + signed16 imm16) mod 2 ^ 32));
    [|lia].
  reflexivity.
Qed.

(** C7: when the word fetched at the PC is an LW whose address
    [(rs + sign_extend(imm)) mod 2^32] is at or beyond [MEMORY_SIZE], the
    execute step raises [MemoryError] and changes nothing, the loop of
    [run] catches it, sets [halted] and returns, and the register file is
    the one the instruction found. *)
Theorem lw_out_of_bounds_halts :
  forall (s : CPU.t) (p w a : Z) (bus' : MemoryBus.t),
    CPU.halted s = false ->
    CPU.pc s = Some p ->
    MemoryBus.read_word p (CPU.memory_bus s) = Ok w bus' ->
    Z.land (Z.shiftr w 26) 0x3F = 0x23 ->
    Py.getitem (CPU.registers s) (Z.land (Z.shiftr w 21) 0x1F) = Some a ->
    MemoryBus.MEMORY_SIZE <= (a + signed16 (Z.land w 0xFFFF)) mod 2 ^ 32 ->
    let fetched := CPU.set_memory_bus bus' s in
    let d := CPU.IType 0x23 (Z.land (Z.shiftr w 21) 0x1F)
               (Z.land (Z.shiftr w 16) 0x1F)
               (CPU.sign_extend (Z.land w 0xFFFF)) in
    CPU.decode_instruction w fetched = Ok d fetched /\
    CPU._execute_i_type d fetched = Raise MemoryError fetched /\
    CPU.run_iteration s = CPU.Break (CPU.set_halted true fetched) /\
    (forall fuel, CPU.run (S fuel) s =
                  Some (CPU.Returned (CPU.set_halted true fetched))) /\
    CPU.halted (CPU.set_halted true fetched) = true /\
    CPU.registers (CPU.set_halted true fetched) = CPU.registers s.
Proof.
  intros s p w a bus' Hrun Hpc Hfetch Hop Ha Hoob fetched d.
  assert (0 <= Z.land w 0xFFFF < 2 ^ 16) as Himm
    by (change 0xFFFF with (Z.ones 16); apply land_ones_range; lia).
  assert (CPU.decode_instruction w fetched = Ok d fetched) as Hdec
    by (apply decode_lw; exact Hop).
  assert (CPU._execute_i_type d fetched = Raise MemoryError fetched) as Hex
    by (apply (execute_lw_out_of_bounds fetched _ _ _ a); assumption).
  assert (CPU.run_body s = Raise MemoryError fetched) as Hbody.
  { unfold CPU.run_body.
    erewrite bind_Ok
      by (unfold CPU.get_pc, bind, gets, orraise; rewrite Hpc; reflexivity).
    erewrite bind_Ok
      by (unfold CPU.on_bus, zoom; rewrite Hfetch; reflexivity).
    fold fetched. erewrite bind_Ok by exact Hdec.
    change (CPU.key_opcode d) with 0x23.
    change (0x23 =? 0x00) with false.
    change (CPU.mem_of 0x23 CPU.I_TYPE) with true. cbv iota.
    apply bind_Raise. exact Hex. }
  assert (CPU.run_iteration s = CPU.Break (CPU.set_halted true fetched)) as Hit.
  { unfold CPU.run_iteration. rewrite Hbody. simpl. rewrite Hpc. reflexivity. }
  repeat split; try assumption.
  intros fuel. simpl. rewrite Hrun, Hit. reflexivity.
Qed.

Lemma lw_out_of_bounds_halts_witness :
  CPU.run 1 lw_fault_state =
    Some (CPU.Returned (CPU.set_halted true lw_fault_fetched)) /\
  CPU.registers (CPU.set_halted true lw_fault_fetched) =
    CPU.registers lw_fault_state.
Proof.
  pose proof (lw_out_of_bounds_halts lw_fault_state 0 LW_8_0_29 0x7FFFFFFF
                (CPU.memory_bus lw_fault_fetched)) as H.
  assert (CPU.halted lw_fault_state = false) as H1 by reflexivity.
  assert (CPU.pc lw_fault_state = Some 0) as H2 by reflexivity.
  assert (MemoryBus.read_word 0 (CPU.memory_bus lw_fault_state) =
          Ok LW_8_0_29 (CPU.memory_bus lw_fault_fetched)) as H3 by reflexivity.
  assert (Z.land (Z.shiftr LW_8_0_29 26) 0x3F = 0x23) as H4 by reflexivity.
  assert (Py.getitem (CPU.registers lw_fault_state)
            (Z.land (Z.shiftr LW_8_0_29 21) 0x1F) = Some 0x7FFFFFFF) as H5
    by reflexivity.
  assert (MemoryBus.MEMORY_SIZE <=
          (0x7FFFFFFF + signed16 (Z.land LW_8_0_29 0xFFFF)) mod 2 ^ 32) as H6
    by (vm_compute; discriminate).
  destruct (H H1 H2 H3 H4 H5 H6) as (_ & _ & _ & Hrun & _ & Hregs).
  split; [apply Hrun | exact Hregs].
Defined.

(** ** C9: J and JAL *)

Lemma jump_beyond_memory (bus : MemoryBus.t) :
  jump_step 0x02 0x40000 (CPU.reset bus) = Raise MemoryError (CPU.reset bus).
Proof. reflexivity. Qed.

(** C9 (counterexample): at PC 0 a J whose target field is 0x40000 aims at
    0x100000 = MEMORY_SIZE; the execute step raises and the PC stays 0. *)
Lemma jump_claim_fails : ~ jump_claim.
Proof.
  intros H.
  destruct (H (CPU.reset MemoryBus.init) 0 0x40000) as (s' & Hstep & _);
    try reflexivity; try (vm_compute; split; congruence).
  rewrite jump_beyond_memory in Hstep. discriminate Hstep.
Qed.

Lemma jump_target_nonneg (p target26 : Z) :
  0 <= target26 -> 0 <= jump_target p target26.
Proof.
  intros H. unfold jump_target. apply Z.lor_nonneg. split.
  - apply Z.land_nonneg. right. lia.
  - apply Z.shiftl_nonneg. exact H.
Qed.

Lemma get_pc_Ok (s : CPU.t) (p : Z) :
  CPU.pc s = Some p -> CPU.get_pc s = Ok p s.
Proof.
  intros H. unfold CPU.get_pc, bind, gets, orraise. rewrite H. reflexivity.
Qed.

Lemma jump_to_within (s : CPU.t) (p target26 : Z) :
  CPU.pc s = Some p ->
  jump_target p target26 < MemoryBus.MEMORY_SIZE ->
  CPU.jump_to target26 s =
    Ok tt (CPU.set_pc (Some (jump_target p target26 - 4)) s).
Proof.
  intros Hpc Hlt. unfold CPU.jump_to.
  rewrite (bind_Ok _ _ _ _ _ (get_pc_Ok _ _ Hpc)).
  fold (jump_target p target26).
  destruct (Z.leb_spec MemoryBus.MEMORY_SIZE (jump_target p target26)); [lia|].
  reflexivity.
Qed.

Lemma jump_to_beyond (s : CPU.t) (p target26 : Z) :
  CPU.pc s = Some p ->
  MemoryBus.MEMORY_SIZE <= jump_target p target26 ->
  CPU.jump_to target26 s = Raise MemoryError s.
Proof.
  intros Hpc Hge. unfold CPU.jump_to.
  rewrite (bind_Ok _ _ _ _ _ (get_pc_Ok _ _ Hpc)).
  fold (jump_target p target26).
  destruct (Z.leb_spec MemoryBus.MEMORY_SIZE (jump_target p target26)); [|lia].
  reflexivity.
Qed.

(** [update_pc] after [self.pc = target - 4], with no branch pending. *)
Lemma update_pc_after_jump (s : CPU.t) (target : Z) :
  CPU.branch_taken s = false ->
  0 <= target < MemoryBus.MEMORY_SIZE ->
  CPU.update_pc (CPU.set_pc (Some (target - 4)) s) =
    Ok tt (CPU.set_pc (Some target) s).
Proof.
  intros Hbt Ht. unfold CPU.update_pc, bind, gets, modify, CPU.get_pc, orraise.
  simpl. rewrite Hbt. simpl.
  replace (target - 4 + 4) with target by lia.
  rewrite land_mask32, Z.mod_small
    by (unfold MemoryBus.MEMORY_SIZE in Ht; lia).
  destruct (Z.leb_spec MemoryBus.MEMORY_SIZE target); [lia|].
  reflexivity.
Qed.

(** C9 (amended): with no branch pending and the target
    [(PC & 0xF0000000) | (target26 << 2)] below [MEMORY_SIZE], J sets the
    PC of the next fetch to exactly the target, and JAL first stores
    [PC + 4] in register 31 and then does the same; with the target at or
    beyond [MEMORY_SIZE] the execute step raises [MemoryError] and leaves
    the PC where it was, JAL having stored [PC + 4] in register 31. *)
Theorem jump_sets_pc_below_memory_size :
  forall (s : CPU.t) (p target26 : Z),
    CPU.pc s = Some p ->
    CPU.branch_taken s = false ->
    0 <= target26 ->
    (31 < length (CPU.registers s))%nat ->
    let target := jump_target p target26 in
    let linked := CPU.set_registers (<[31%nat := p + 4]> (CPU.registers s)) s in
    (target < MemoryBus.MEMORY_SIZE ->
       jump_step 0x02 target26 s = Ok tt (CPU.set_pc (Some target) s) /\
       jump_step 0x03 target26 s = Ok tt (CPU.set_pc (Some target) linked)) /\
    (MemoryBus.MEMORY_SIZE <= target ->
       CPU._execute_j_type (CPU.JType 0x02 target26) s = Raise MemoryError s /\
       CPU._execute_j_type (CPU.JType 0x03 target26) s =
         Raise MemoryError linked).
Proof.
  intros s p target26 Hpc Hbt H26 Hlen target linked.
  pose proof (jump_target_nonneg p target26 H26) as Hnn. fold target in Hnn.
  assert (CPU.set_reg 31 (p + 4) s = Ok tt linked) as Hlink
    by (rewrite set_reg_Ok by lia; reflexivity).
  split.
  - intros Hlt. split.
    + unfold jump_step, CPU._execute_j_type. simpl.
      unfold bind at 2. unfold orraise, ret.
      erewrite bind_Ok by (apply (jump_to_within s p); assumption).
      apply update_pc_after_jump; [assumption|]. fold target. lia.
    + unfold jump_step, CPU._execute_j_type. simpl.
      unfold bind at 2. unfold orraise, ret.
      erewrite bind_Ok.
      2:{ rewrite (bind_Ok _ _ _ _ _ (get_pc_Ok _ _ Hpc)).
          rewrite (bind_Ok _ _ _ _ _ Hlink).
          apply (jump_to_within linked p); assumption. }
      apply (update_pc_after_jump linked); [assumption|]. fold target. lia.
  - intros Hge. split.
    + unfold CPU._execute_j_type. simpl. unfold bind at 1. unfold orraise, ret.
      apply (jump_to_beyond s p); assumption.
    + unfold CPU._execute_j_type. simpl. unfold bind at 1. unfold orraise, ret.
      rewrite (bind_Ok _ _ _ _ _ (get_pc_Ok _ _ Hpc)).
      rewrite (bind_Ok _ _ _ _ _ Hlink).
      apply (jump_to_beyond linked p); assumption.
Qed.

Lemma jump_sets_pc_below_memory_size_witness :
  (jump_step 0x02 4 (CPU.reset MemoryBus.init) =
     Ok tt (CPU.set_pc (Some 16) (CPU.reset MemoryBus.init)) /\
   jump_step 0x03 4 (CPU.reset MemoryBus.init) =
     Ok tt (CPU.set_pc (Some 16)
              (CPU.set_registers
                 (<[31%nat := 4]> (CPU.registers (CPU.reset MemoryBus.init)))
                 (CPU.reset MemoryBus.init)))) /\
  (CPU._execute_j_type (CPU.JType 0x02 0x40000) (CPU.reset MemoryBus.init) =
     Raise MemoryError (CPU.reset MemoryBus.init) /\
   CPU._execute_j_type (CPU.JType 0x03 0x40000) (CPU.reset MemoryBus.init) =
     Raise MemoryError
       (CPU.set_registers
          (<[31%nat := 4]> (CPU.registers (CPU.reset MemoryBus.init)))
          (CPU.reset MemoryBus.init))).
Proof.
  split.
  - apply (jump_sets_pc_below_memory_size (CPU.reset MemoryBus.init) 0 4).
    + reflexivity.
    + reflexivity.
    + lia.
    + simpl. lia.
    + reflexivity.
  - apply (jump_sets_pc_below_memory_size (CPU.reset MemoryBus.init) 0 0x40000).
    + reflexivity.
    + reflexivity.
    + lia.
    + simpl. lia.
    + vm_compute. discriminate.
Defined.

(** ** C10: [run] catches every exception *)

Ltac split_ifs :=
  repeat match goal with
         | |- hoare _ (if ?b then _ else _) _ _ => destruct b
         end.

Lemma hoare_set_reg_inv (i v : Z) :
  hoare run_invariant (CPU.set_reg i v)
    (fun _ => run_invariant) (fun _ => run_invariant).
Proof.
  intros s H. destruct (set_reg_cases s i v) as [[-> _]|(regs' & _ & ->)];
    exact H.
Qed.

Lemma hoare_on_bus_inv {A} (c : M MemoryBus.t A) :
  hoare run_invariant (CPU.on_bus c)
    (fun _ => run_invariant) (fun _ => run_invariant).
Proof. apply hoare_zoom_frame. intros t s H. exact H. Qed.

Lemma hoare_decode_frame (P : CPU.t -> Prop) (w : Z) :
  hoare P (CPU.decode_instruction w) (fun _ => P) (fun _ => P).
Proof.
  unfold CPU.decode_instruction. split_ifs;
    first [apply hoare_ret | apply hoare_raise]; auto.
Qed.

Lemma hoare_take_branch_inv (immediate : Z) :
  hoare run_invariant (CPU.take_branch immediate)
    (fun _ => run_invariant) (fun _ => run_invariant).
Proof.
  intros s [Hpc Hbt].
  unfold CPU.take_branch, CPU.get_pc.
  unfold bind, gets, orraise, modify, ret, raise.
  destruct (CPU.pc s) as [p|] eqn:E; simpl.
  - split; simpl; [rewrite E|]; discriminate.
  - congruence.
Qed.

Lemma hoare_jump_to_inv (target_addr : Z) :
  hoare run_invariant (CPU.jump_to target_addr)
    (fun _ => run_invariant) (fun _ => run_invariant).
Proof.
  intros s [Hpc Hbt].
  unfold CPU.jump_to, CPU.get_pc.
  unfold bind, gets, orraise, modify, ret, raise.
  destruct (CPU.pc s) as [p|] eqn:E; simpl.
  - destruct (_ <=? _); simpl.
    + split; [rewrite E; discriminate | exact Hbt].
    + split; [discriminate | exact Hbt].
  - congruence.
Qed.

Lemma hoare_update_pc_inv :
  hoare run_invariant CPU.update_pc
    (fun _ => run_invariant) (fun _ => run_invariant).
Proof.
  intros s [Hpc Hbt].
  unfold CPU.update_pc, CPU.get_pc.
  unfold bind, gets, orraise, modify, ret, raise.
  destruct (CPU.branch_taken s) eqn:Et; simpl.
  - specialize (Hbt eq_refl).
    destruct (CPU.branch_target s) as [t|] eqn:Etg; [|congruence]. simpl.
    destruct (_ <=? _); simpl; split; simpl; discriminate.
  - destruct (CPU.pc s) as [p|] eqn:E; [|congruence]. simpl.
    destruct (_ <=? _); simpl; split; simpl; try discriminate;
      rewrite Et; discriminate.
Qed.

Ltac peel_inv :=
  repeat match goal with
         | |- hoare _ (bind _ _) _ _ =>
             eapply hoare_bind;
             [ first [ apply hoare_orraise_frame | apply hoare_get_reg
                     | apply hoare_get_pc | apply hoare_on_bus_inv
                     | apply hoare_set_reg_inv ]
             | intros ? ]
         end.

Ltac close_inv :=
  first [ apply hoare_set_reg_inv | apply hoare_on_bus_inv
        | apply hoare_take_branch_inv | apply hoare_jump_to_inv
        | apply hoare_raise; auto | apply hoare_ret; auto ].

Lemma hoare_execute_r_type_inv (d : CPU.decoded) :
  hoare run_invariant (CPU._execute_r_type d)
    (fun _ => run_invariant) (fun _ => run_invariant).
Proof.
  unfold CPU._execute_r_type. peel_inv.
  eapply hoare_bind with (Q := fun _ => run_invariant);
    [|intros []; apply hoare_set_reg_inv].
  split_ifs; close_inv.
Qed.

Lemma hoare_execute_i_type_inv (d : CPU.decoded) :
  hoare run_invariant (CPU._execute_i_type d)
    (fun _ => run_invariant) (fun _ => run_invariant).
Proof.
  unfold CPU._execute_i_type. peel_inv.
  eapply hoare_bind with (Q := fun _ => run_invariant);
    [|intros []; apply hoare_set_reg_inv].
  split_ifs; peel_inv; split_ifs; close_inv.
Qed.

Lemma hoare_execute_j_type_inv (d : CPU.decoded) :
  hoare run_invariant (CPU._execute_j_type d)
    (fun _ => run_invariant) (fun _ => run_invariant).
Proof.
  unfold CPU._execute_j_type. peel_inv. split_ifs; peel_inv; close_inv.
Qed.

(** The body of the loop keeps the invariant, returned or raised, and
    says [break] only after it has set [halted]. *)
Lemma hoare_run_body :
  hoare run_invariant CPU.run_body
    (fun brk s' => run_invariant s' /\ (brk = true -> CPU.halted s' = true))
    (fun _ => run_invariant).
Proof.
  unfold CPU.run_body.
  eapply hoare_bind; [apply hoare_get_pc|]. intros p.
  eapply hoare_bind; [apply hoare_on_bus_inv|]. intros w.
  eapply hoare_bind; [apply hoare_decode_frame|]. intros d.
  split_ifs.
  - eapply hoare_bind; [apply hoare_execute_r_type_inv|]. intros [].
    eapply hoare_bind; [apply hoare_update_pc_inv|]. intros [].
    apply hoare_ret. intros s H. split; [exact H | discriminate].
  - eapply hoare_bind; [apply hoare_execute_i_type_inv|]. intros [].
    eapply hoare_bind; [apply hoare_update_pc_inv|]. intros [].
    apply hoare_ret. intros s H. split; [exact H | discriminate].
  - eapply hoare_bind; [apply hoare_execute_j_type_inv|]. intros [].
    eapply hoare_bind; [apply hoare_update_pc_inv|]. intros [].
    apply hoare_ret. intros s H. split; [exact H | discriminate].
  - eapply hoare_bind with (Q := fun _ s => run_invariant s /\ CPU.halted s = true).
    + apply hoare_modify. intros s H. split; [exact H | reflexivity].
    + intros []. apply hoare_ret. intros s [H Hh]. split; auto.
  - apply hoare_raise. auto.
Qed.

(** One trip never lets an exception out. *)
Lemma run_iteration_cases (s : CPU.t) :
  run_invariant s ->
  match CPU.run_iteration s with
  | CPU.Continue s' => run_invariant s'
  | CPU.Break s' => CPU.halted s' = true
  | CPU.Propagate _ _ => False
  end.
Proof.
  intros H. pose proof (hoare_run_body s H) as Hb. unfold CPU.run_iteration.
  destruct (CPU.run_body s) as [[|] s'|e s'].
  - apply Hb. reflexivity.
  - apply Hb.
  - destruct e; simpl; destruct Hb as [Hpc _];
      destruct (CPU.pc s'); solve [reflexivity | congruence].
Qed.

Lemma run_caught_and_halted (fuel : nat) :
  forall s : CPU.t, run_invariant s -> caught_and_halted (CPU.run fuel s).
Proof.
  induction fuel as [|fuel IH]; intros s H; simpl.
  - destruct (CPU.halted s) eqn:Eh; simpl; auto.
  - destruct (CPU.halted s) eqn:Eh; simpl; [exact Eh|].
    pose proof (run_iteration_cases s H) as Hc.
    destruct (CPU.run_iteration s) as [s'|s'|e s'].
    + apply IH, Hc.
    + exact Hc.
    + exact Hc.
Qed.

Lemma reset_invariant (bus : MemoryBus.t) : run_invariant (CPU.reset bus).
Proof. split; simpl; discriminate. Qed.

(** C10: started on a CPU as [reset] leaves it, over any bus (any loaded
    program), [run] lets no exception out and, whenever it returns, the
    CPU is halted; and whatever the body of the loop raises in a state of
    a run is caught, after which [run] returns with [halted] set and the
    state as it was when the exception was raised. *)
Theorem run_catches_every_exception :
  (forall (bus : MemoryBus.t) (fuel : nat),
     caught_and_halted (CPU.run fuel (CPU.reset bus))) /\
  (forall (s s1 : CPU.t) (e : exn) (fuel : nat),
     run_invariant s -> CPU.halted s = false ->
     CPU.run_body s = Raise e s1 ->
     CPU.run (S fuel) s = Some (CPU.Returned (CPU.set_halted true s1))).
Proof.
  split.
  - intros bus fuel. apply run_caught_and_halted, reset_invariant.
  - intros s s1 e fuel Hinv Hrun Hbody. simpl. rewrite Hrun.
    pose proof (hoare_run_body s Hinv) as Hb. rewrite Hbody in Hb.
    unfold CPU.run_iteration. rewrite Hbody.
    destruct Hb as [Hpc _].
    destruct e; simpl; destruct (CPU.pc s1); solve [reflexivity | congruence].
Qed.

Lemma run_catches_every_exception_witness :
  CPU.run 1 bad_opcode_state =
    Some (CPU.Returned (CPU.set_halted true bad_opcode_fetched)).
Proof.
  apply (proj2 run_catches_every_exception bad_opcode_state bad_opcode_fetched
           ValueError 0%nat).
  - split; simpl; discriminate.
  - reflexivity.
  - reflexivity.
Defined.

(** ** Slices *)

Lemma adjust_in_range (len i : Z) : 0 <= i <= len -> Py.adjust len i = i.
Proof.
  intros H. unfold Py.adjust.
  destruct (Z.ltb_spec i 0); [lia|]. lia.
Qed.

Lemma slice_in_range {A} (l : list A) (a b : Z) :
  0 <= a <= b -> b <= Z.of_nat (length l) ->
  Py.slice l a b = take (Z.to_nat (b - a)) (drop (Z.to_nat a) l).
Proof.
  intros H1 H2. unfold Py.slice.
  rewrite !adjust_in_range by lia. reflexivity.
Qed.

Lemma slice_assign_in_range {A} (l : list A) (a b : Z) (xs : list A) :
  0 <= a <= b -> b <= Z.of_nat (length l) ->
  Py.slice_assign l a b xs =
    take (Z.to_nat a) l ++ xs ++ drop (Z.to_nat b) l.
Proof.
  intros H1 H2. unfold Py.slice_assign.
  rewrite !adjust_in_range by lia. rewrite Z.max_r by lia. reflexivity.
Qed.

(** Storing as many bytes as the slice holds keeps the length. *)
Lemma slice_assign_length {A} (l : list A) (a : Z) (xs : list A) :
  0 <= a -> a + Z.of_nat (length xs) <= Z.of_nat (length l) ->
  length (Py.slice_assign l a (a + Z.of_nat (length xs)) xs) = length l.
Proof.
  intros H1 H2. rewrite slice_assign_in_range by lia.
  rewrite !length_app, length_take, length_drop. lia.
Qed.

(** Reading back the slice that was just stored. *)
Lemma slice_slice_assign {A} (l : list A) (a : Z) (xs : list A) :
  0 <= a -> a + Z.of_nat (length xs) <= Z.of_nat (length l) ->
  Py.slice (Py.slice_assign l a (a + Z.of_nat (length xs)) xs)
    a (a + Z.of_nat (length xs)) = xs.
Proof.
  intros H1 H2.
  rewrite slice_in_range by (rewrite ?slice_assign_length; lia).
  rewrite slice_assign_in_range by lia.
  rewrite drop_app_length' by (rewrite length_take; lia).
  replace (Z.to_nat (a + Z.of_nat (length xs) - a)) with (length xs) by lia.
  apply take_app_length.
Qed.

(** ** The bus *)

Lemma bus_read_word_miss (b : MemoryBus.t) (address : Z) :
  address < MemoryBus.IO_BASE ->
  address + 4 <= MemoryBus.MEMORY_SIZE ->
  cached b address = None ->
  MemoryBus.read_word address b =
    Ok (memory_word b address)
       (MemoryBus.set_reads (fun n => n + 1)
          (MemoryBus.set_cache
             (BusCache.set_cache (fun d => <[address := memory_word b address]> d)
                (BusCache.set_misses (fun m => m + 1) (MemoryBus.cache b)))
             b)).
Proof.
  intros Hio Hmem Hc. unfold MemoryBus.read_word.
  destruct (Z.leb_spec MemoryBus.IO_BASE address); [lia|].
  destruct (Z.ltb_spec MemoryBus.MEMORY_SIZE (address + 4)); [lia|].
  unfold cached in Hc.
  unfold bind, MemoryBus.on_cache, zoom, BusCache.read_word, bind, gets, modify, ret.
  rewrite Hc. reflexivity.
Qed.

Lemma bus_read_word_hit (b : MemoryBus.t) (address v : Z) :
  address < MemoryBus.IO_BASE ->
  address + 4 <= MemoryBus.MEMORY_SIZE ->
  cached b address = Some v ->
  MemoryBus.read_word address b =
    Ok v (MemoryBus.set_cache
            (BusCache.set_hits (fun h => h + 1) (MemoryBus.cache b)) b).
Proof.
  intros Hio Hmem Hc. unfold MemoryBus.read_word.
  destruct (Z.leb_spec MemoryBus.IO_BASE address); [lia|].
  destruct (Z.ltb_spec MemoryBus.MEMORY_SIZE (address + 4)); [lia|].
  unfold cached in Hc.
  unfold bind, MemoryBus.on_cache, zoom, BusCache.read_word, bind, gets, modify, ret.
  rewrite Hc. reflexivity.
Qed.

Lemma bus_write_word_memory (b : MemoryBus.t) (address value : Z) (bs : list Z) :
  address < MemoryBus.IO_BASE ->
  address + 4 <= MemoryBus.MEMORY_SIZE ->
  Py.to_bytes4 value = Some bs ->
  MemoryBus.write_word address value b =
    Ok tt
       (MemoryBus.set_writes (fun n => n + 1)
          (MemoryBus.set_memory
             (fun m => Py.slice_assign m address (address + 4) bs)
             (MemoryBus.set_cache
                (BusCache.set_cache (fun d => <[address := value]> d)
                   (MemoryBus.cache b))
                b))).
Proof.
  intros Hio Hmem Hbs. unfold MemoryBus.write_word.
  destruct (Z.leb_spec MemoryBus.IO_BASE address); [lia|].
  destruct (Z.ltb_spec MemoryBus.MEMORY_SIZE (address + 4)); [lia|].
  unfold bind, MemoryBus.on_cache, zoom, BusCache.write_word, orraise, modify, ret.
  rewrite Hbs. reflexivity.
Qed.

Lemma bus_write_word_io_unregistered (b : MemoryBus.t) (address value : Z) :
  MemoryBus.IO_BASE <= address ->
  MemoryBus.io_devices b !! address = None ->
  MemoryBus.write_word address value b = Raise MemoryError b.
Proof.
  intros Hio Hnone. unfold MemoryBus.write_word.
  destruct (Z.leb_spec MemoryBus.IO_BASE address); [|lia].
  unfold bind, gets. rewrite Hnone. reflexivity.
Qed.

Lemma bus_write_word_io_registered (b : MemoryBus.t) (address value old : Z) :
  MemoryBus.IO_BASE <= address ->
  MemoryBus.io_devices b !! address = Some old ->
  MemoryBus.write_word address value b =
    Ok tt (MemoryBus.set_io_writes (fun n => n + 1)
             (MemoryBus.set_io_devices (fun d => <[address := value]> d) b)).
Proof.
  intros Hio Hsome. unfold MemoryBus.write_word.
  destruct (Z.leb_spec MemoryBus.IO_BASE address); [|lia].
  unfold bind, gets, modify. rewrite Hsome. reflexivity.
Qed.

(** ** C8: the I/O map of a new bus *)

(** C8 (evaluation at the failing input): on a new bus the I/O map holds
    IO_BASE and IO_BASE+4 only; a word write to IO_BASE+8 raises
    [MemoryError] and leaves the bus, its I/O map and its io-writes
    counter as they were, while a write to IO_BASE+4 is stored and
    counted. *)
Theorem write_to_completion_register_raises :
  forall value : Z,
    MemoryBus.io_devices MemoryBus.init !! (MemoryBus.IO_BASE + 8) = None /\
    MemoryBus.write_word (MemoryBus.IO_BASE + 8) value MemoryBus.init =
      Raise MemoryError MemoryBus.init /\
    MemoryBus.write_word (MemoryBus.IO_BASE + 4) value MemoryBus.init =
      Ok tt (MemoryBus.set_io_writes (fun n => n + 1)
               (MemoryBus.set_io_devices
                  (fun d => <[MemoryBus.IO_BASE + 4 := value]> d)
                  MemoryBus.init)).
Proof.
  intros value.
  assert (MemoryBus.io_devices MemoryBus.init !! (MemoryBus.IO_BASE + 8) = None)
    as Hnone by reflexivity.
  split; [exact Hnone|]. split.
  - apply bus_write_word_io_unregistered; [|exact Hnone].
    unfold MemoryBus.IO_BASE. lia.
  - apply (bus_write_word_io_registered _ _ _ 0).
    + unfold MemoryBus.IO_BASE. lia.
    + reflexivity.
Qed.

(** ** C6: cached words and the memory behind them *)

Lemma hoare_for_each_in {S A} (P : S -> Prop) (xs : list A)
    (body : A -> M S unit) (E : exn -> S -> Prop) :
  (forall x, x ∈ xs -> hoare P (body x) (fun _ => P) E) ->
  hoare P (for_each xs body) (fun _ => P) E.
Proof.
  induction xs as [|x xs IH]; intros H; simpl.
  - apply hoare_ret. auto.
  - eapply hoare_bind; [apply H; left|]. intros [].
    apply IH. intros y Hy. apply H. right. exact Hy.
Qed.

Lemma range_elem (n i : Z) : i ∈ Py.range n -> 0 <= i < n.
Proof.
  unfold Py.range. intros H. apply list_elem_of_In, in_map_iff in H.
  destruct H as (k & <- & Hk). apply in_seq in Hk. lia.
Qed.

Lemma init_memory_length :
  Z.of_nat (length (MemoryBus.memory MemoryBus.init)) = MemoryBus.MEMORY_SIZE.
Proof.
  change (MemoryBus.memory MemoryBus.init)
    with (replicate (Z.to_nat MemoryBus.MEMORY_SIZE) 0).
  rewrite length_replicate. unfold MemoryBus.MEMORY_SIZE. lia.
Qed.

(** [load_program] within the memory returns, with the cache emptied. *)
Lemma load_program_clears_cache (b : MemoryBus.t) (program : list Z) (base : Z) :
  Z.of_nat (length (MemoryBus.memory b)) = MemoryBus.MEMORY_SIZE ->
  0 <= base ->
  base + Z.of_nat (length program) <= MemoryBus.MEMORY_SIZE ->
  exists b', MemoryBus.load_program program base b = Ok tt b' /\
             BusCache.cache (MemoryBus.cache b') = ∅.
Proof.
  intros Hlen Hbase Hfit.
  set (P := fun s : MemoryBus.t =>
              Z.of_nat (length (MemoryBus.memory s)) = MemoryBus.MEMORY_SIZE).
  assert (hoare P
            (for_each (Py.range (Z.of_nat (length program))) (fun i =>
               let* x := orraise IndexError (Py.getitem program i) in
               let* m := gets MemoryBus.memory in
               let* m' := orraise IndexError (Py.setitem m (base + i) x) in
               modify (MemoryBus.set_memory (fun _ => m')))
             ;; MemoryBus.on_cache BusCache.clear)
            (fun _ s => BusCache.cache (MemoryBus.cache s) = ∅)
            (fun _ _ => False)) as Hh.
  { eapply hoare_bind with (Q := fun _ => P).
    - apply hoare_for_each_in. intros i Hi. apply range_elem in Hi.
      intros s Hs. unfold P in Hs. unfold bind, orraise, gets, modify, ret.
      rewrite getitem_nonneg by lia.
      destruct (lookup_lt_is_Some_2 program (Z.to_nat i) ltac:(lia)) as [x ->].
      rewrite setitem_nonneg by lia.
      unfold P. simpl. rewrite length_insert. exact Hs.
    - intros []. intros s _. reflexivity. }
  specialize (Hh b Hlen). unfold MemoryBus.load_program, reraise_as.
  destruct (Z.ltb_spec MemoryBus.MEMORY_SIZE (base + Z.of_nat (length program)));
    [lia|].
  match type of Hh with
  | match ?c with _ => _ end =>
      destruct c as [[] b'|e b'] eqn:Ec; [|contradiction]
  end.
  exists b'. split; [reflexivity | exact Hh].
Qed.

Ltac bus_side :=
  first [ reflexivity
        | unfold MemoryBus.IO_BASE, MemoryBus.MEMORY_SIZE; lia ].

Lemma init_memory_word_zero : memory_word MemoryBus.init 0 = 0.
Proof.
  unfold memory_word.
  rewrite slice_in_range by (rewrite ?init_memory_length;
                             unfold MemoryBus.MEMORY_SIZE; lia).
  reflexivity.
Qed.

Lemma bus_read_once_eq :
  bus_read_once =
    MemoryBus.set_reads (fun n => n + 1)
      (MemoryBus.set_cache
         (BusCache.set_cache (fun d => <[0 := 0]> d)
            (BusCache.set_misses (fun m => m + 1)
               (MemoryBus.cache MemoryBus.init)))
         MemoryBus.init).
Proof.
  unfold bus_read_once.
  rewrite bus_read_word_miss; [|bus_side..].
  rewrite init_memory_word_zero. reflexivity.
Qed.

(** C6 (evaluation at the failing input): a new bus, [read_word(0)] (a
    miss that caches the word 0), then [load_memory({0: 1})].  The load
    returns and memory now holds the word 1 at address 0, but the cache
    still holds 0 for that address and the next [read_word(0)] returns
    the stale 0.  [load_program], called in the same state, empties the
    cache. *)
Theorem load_memory_leaves_stale_cache :
  MemoryBus.read_word 0 MemoryBus.init = Ok 0 bus_read_once /\
  MemoryBus.load_memory [(0, MemoryBus.IInt 1)] bus_read_once =
    Ok tt bus_then_loaded /\
  memory_word bus_then_loaded 0 = 1 /\
  cached bus_then_loaded 0 = Some 0 /\
  (exists b', MemoryBus.read_word 0 bus_then_loaded = Ok 0 b') /\
  (exists b', MemoryBus.load_program [0; 0; 0; 1] 0 bus_read_once = Ok tt b' /\
              cached b' 0 = None).
Proof.
  assert (cached bus_then_loaded 0 = Some 0) as Hstale.
  { unfold bus_then_loaded. rewrite bus_read_once_eq. reflexivity. }
  split; [|split; [|split; [|split; [|split]]]].
  - rewrite bus_read_once_eq.
    rewrite bus_read_word_miss; [|bus_side..].
    rewrite init_memory_word_zero. reflexivity.
  - reflexivity.
  - unfold memory_word.
    assert (MemoryBus.memory bus_then_loaded =
            Py.slice_assign (MemoryBus.memory MemoryBus.init) 0
              (0 + Z.of_nat (length [0; 0; 0; 1])) [0; 0; 0; 1]) as ->
      by (unfold bus_then_loaded; rewrite bus_read_once_eq; reflexivity).
    change (0 + 4) with (0 + Z.of_nat (length [0; 0; 0; 1])).
    rewrite slice_slice_assign
      by (rewrite ?init_memory_length; unfold MemoryBus.MEMORY_SIZE; simpl; lia).
    reflexivity.
  - exact Hstale.
  - eexists. apply bus_read_word_hit; [bus_side | bus_side | exact Hstale].
  - destruct (load_program_clears_cache bus_read_once [0; 0; 0; 1] 0)
      as (b' & Hb' & Hempty).
    + rewrite bus_read_once_eq. exact init_memory_length.
    + lia.
    + unfold MemoryBus.MEMORY_SIZE. simpl. lia.
    + exists b'. split; [exact Hb'|]. unfold cached. rewrite Hempty.
      apply lookup_empty.
Qed.

(** ** The line cache of cache.py *)

Lemma getitem_setitem_same {A} (l l' : list A) (i : Z) (x : A) :
  Py.setitem l i x = Some l' -> Py.getitem l' i = Some x.
Proof.
  intros H. pose proof (setitem_length _ _ _ _ H) as Hlen.
  unfold Py.setitem in H. unfold Py.getitem. rewrite Hlen.
  destruct (Py.index _ i) as [n|] eqn:E; [|discriminate].
  injection H as <-. apply index_lt_length in E.
  apply list_lookup_insert_eq. lia.
Qed.

Lemma hoare_apply {S A} (P : S -> Prop) (c : M S A)
    (Q : A -> S -> Prop) (E : exn -> S -> Prop) (s : S) :
  hoare P c Q E -> P s ->
  match c s with Ok a s' => Q a s' | Raise e s' => E e s' end.
Proof. intros H HP. apply H, HP. Qed.

Section CacheLines.

Context {B : Type}.
Implicit Types (c : @Cache.t B) (P : @Cache.t B -> Prop).

Lemma locate_Ok c (address : Z) :
  Cache.line_size c <> 0 -> Cache.num_lines c <> 0 ->
  Cache.locate address c =
    Ok (line_index_of c address, tag_of c address,
        address mod Cache.line_size c) c.
Proof.
  intros Hls Hnl.
  unfold Cache.locate, Cache.floordiv, Cache.pymod, bind, gets, ret.
  destruct (Z.eqb_spec (Cache.line_size c) 0); [contradiction|].
  destruct (Z.eqb_spec (Cache.num_lines c) 0); [contradiction|].
  destruct (Z.eqb_spec (Cache.line_size c * Cache.num_lines c) 0) as [E|_];
    [apply Z.eq_mul_0 in E; tauto|].
  reflexivity.
Qed.

Lemma get_line_Ok c (i : Z) (l : Cache.line) :
  Py.getitem (Cache.lines c) i = Some l -> Cache.get_line i c = Ok l c.
Proof.
  intros H. unfold Cache.get_line, bind, gets, orraise. rewrite H. reflexivity.
Qed.

Lemma hoare_get_line P (i : Z) :
  hoare P (Cache.get_line i) (fun _ => P) (fun _ => P).
Proof.
  intros c HP. unfold Cache.get_line, bind, gets, orraise.
  destruct (Py.getitem _ i); exact HP.
Qed.

Lemma hoare_floordiv P (a b : Z) :
  hoare P (Cache.floordiv a b) (fun _ => P) (fun _ => P).
Proof. intros c HP. unfold Cache.floordiv. destruct (b =? 0); exact HP. Qed.

Lemma hoare_cache_on_bus {A} (h m ls nl : Z) (k : M B A) :
  hoare (cache_frame h m ls nl) (Cache.on_bus k)
    (fun _ => cache_frame h m ls nl) (fun _ => cache_frame h m ls nl).
Proof. apply hoare_zoom_frame. intros t c H. exact H. Qed.

(** [self.lines[i] = l] keeps counters and geometry and, when it returns,
    line [i] is [l]. *)
Lemma hoare_set_line (h m ls nl : Z) (i : Z) (l : Cache.line) :
  hoare (cache_frame h m ls nl) (Cache.set_line i l)
    (fun _ c => cache_frame h m ls nl c /\
                Py.getitem (Cache.lines c) i = Some l)
    (fun _ => cache_frame h m ls nl).
Proof.
  intros c H. unfold Cache.set_line, bind, gets, orraise, modify, ret, raise.
  destruct (Py.setitem (Cache.lines c) i l) as [ls'|] eqn:E.
  - split; [exact H|]. simpl. apply (getitem_setitem_same _ _ _ _ E).
  - exact H.
Qed.

End CacheLines.

Section CacheReads.

Context {B : Type}.
Variable IO_START : Z.
Variable bus_read_word : Z -> M B Z.
Implicit Types (c : @Cache.t B).

Lemma hoare_refill (h m ls nl : Z) (line_index line_addr : Z) :
  hoare (cache_frame h m ls nl) (Cache.refill bus_read_word line_index line_addr)
    (fun _ => cache_frame h m ls nl) (fun _ => cache_frame h m ls nl).
Proof.
  unfold Cache.refill.
  eapply hoare_bind; [apply hoare_gets_frame|]. intros lsz.
  apply hoare_for_each. intros i.
  eapply hoare_bind; [apply hoare_cache_on_bus|]. intros word.
  eapply hoare_bind; [apply hoare_orraise_frame|]. intros bs.
  eapply hoare_bind; [apply hoare_get_line|]. intros [[valid line_tag] data].
  eapply hoare_weaken;
    [ apply (hoare_set_line h m ls nl)
    | intros c H; exact H
    | intros ? c [H _]; exact H
    | intros ? c H; exact H ].
Qed.

(** A read of an address that is not resident counts one miss and no hit,
    whether the refill from the bus returns or raises; when it returns,
    the line is valid under the tag of the address. *)
Lemma hoare_read_word_miss (h m : Z) c (address : Z) :
  address < IO_START ->
  Cache.hits c = h -> Cache.misses c = m ->
  not_resident c address ->
  match Cache.read_word IO_START bus_read_word address c with
  | Ok _ c' =>
      cache_frame h (m + 1) (Cache.line_size c) (Cache.num_lines c) c' /\
      exists data,
        Py.getitem (Cache.lines c') (line_index_of c address) =
          Some (true, tag_of c address, data)
  | Raise _ c' =>
      cache_frame h (m + 1) (Cache.line_size c) (Cache.num_lines c) c'
  end.
Proof.
  intros Hio Hh Hm (Hls & Hnl & valid & line_tag & data & Hline & Hcond).
  unfold Cache.read_word.
  destruct (Z.leb_spec IO_START address); [lia|].
  rewrite (bind_Ok _ _ _ _ _ (locate_Ok c address Hls Hnl)).
  rewrite (bind_Ok _ _ _ _ _ (get_line_Ok c _ _ Hline)).
  rewrite Hcond.
  set (F := cache_frame h (m + 1) (Cache.line_size c) (Cache.num_lines c)).
  apply hoare_apply with (P := fun c' => c' = c); [|reflexivity].
  eapply hoare_bind with (Q := fun _ => F).
  { apply hoare_modify. intros ? ->. unfold F, cache_frame. simpl.
    rewrite Hh, Hm. auto. }
  intros [].
  eapply hoare_bind; [apply hoare_gets_frame|]. intros lsz.
  eapply hoare_bind; [apply hoare_floordiv|]. intros q.
  eapply hoare_bind; [apply hoare_refill|]. intros [].
  eapply hoare_bind; [apply hoare_get_line|]. intros [[valid' tag'] data'].
  eapply hoare_bind; [apply hoare_set_line|]. intros [].
  apply hoare_ret. intros c' [HF Hl]. split; [exact HF|]. eauto.
Qed.

(** A read of a resident address is a hit: it counts one hit and touches
    neither the lines nor the bus. *)
Lemma read_word_hit c (address tag : Z) (data : list Z) :
  address < IO_START ->
  Cache.line_size c <> 0 -> Cache.num_lines c <> 0 ->
  Py.getitem (Cache.lines c) (line_index_of c address) =
    Some (true, tag_of c address, data) ->
  Cache.read_word IO_START bus_read_word address c =
    Ok (Py.from_bytes
          (Py.slice data (address mod Cache.line_size c)
             (address mod Cache.line_size c + 4)))
       (Cache.set_hits (fun h => h + 1) c).
Proof.
  intros Hio Hls Hnl Hline. unfold Cache.read_word.
  destruct (Z.leb_spec IO_START address); [lia|].
  rewrite (bind_Ok _ _ _ _ _ (locate_Ok c address Hls Hnl)).
  rewrite (bind_Ok _ _ _ _ _ (get_line_Ok c _ _ Hline)).
  rewrite Z.eqb_refl. reflexivity.
Qed.

End CacheReads.

Section CacheWrites.

Context {B : Type}.
Variable IO_START : Z.
Variable bus_write_word : Z -> Z -> M B unit.
Implicit Types (c : @Cache.t B).

(** A write to an address that is not resident: the bus first, then one
    miss, and nothing else. *)
Lemma write_word_miss c (address value : Z) (bus' : B) :
  address < IO_START ->
  not_resident c address ->
  bus_write_word address value (Cache.memory_bus c) = Ok tt bus' ->
  Cache.write_word IO_START bus_write_word address value c =
    Ok tt (Cache.set_misses (fun m => m + 1) (Cache.set_memory_bus bus' c)).
Proof.
  intros Hio (Hls & Hnl & valid & line_tag & data & Hline & Hcond) Hbus.
  unfold Cache.write_word.
  destruct (Z.leb_spec IO_START address); [lia|].
  erewrite bind_Ok by (unfold Cache.on_bus, zoom; rewrite Hbus; reflexivity).
  rewrite (bind_Ok _ _ _ _ _
             (locate_Ok (Cache.set_memory_bus bus' c) address Hls Hnl)).
  rewrite (bind_Ok _ _ _ _ _
             (get_line_Ok (Cache.set_memory_bus bus' c) _ _ Hline)).
  unfold tag_of. simpl. unfold tag_of in Hcond. rewrite Hcond. reflexivity.
Qed.

(** When the bus refuses the write, the cache is not touched. *)
Lemma write_word_bus_raises c (address value : Z) (e : exn) (bus' : B) :
  address < IO_START ->
  bus_write_word address value (Cache.memory_bus c) = Raise e bus' ->
  Cache.write_word IO_START bus_write_word address value c =
    Raise e (Cache.set_memory_bus bus' c).
Proof.
  intros Hio Hbus. unfold Cache.write_word.
  destruct (Z.leb_spec IO_START address); [lia|].
  apply bind_Raise. unfold Cache.on_bus, zoom. rewrite Hbus. reflexivity.
Qed.

End CacheWrites.

(** ** C4: a write to an address that is not in the cache *)

Lemma to_bytes4_in_range (value : Z) :
  0 <= value < 2 ^ 32 -> exists bs, Py.to_bytes4 value = Some bs.
Proof.
  intros H. unfold Py.to_bytes4.
  destruct (Z.leb_spec 0 value); [|lia].
  destruct (Z.ltb_spec value (2 ^ 32)); [|lia]. simpl. eauto.
Qed.

Lemma to_bytes4_out_of_range (value : Z) :
  ~ (0 <= value < 2 ^ 32) -> Py.to_bytes4 value = None.
Proof.
  intros H. unfold Py.to_bytes4.
  destruct (Z.leb_spec 0 value); [|reflexivity].
  destruct (Z.ltb_spec value (2 ^ 32)); [lia|]. reflexivity.
Qed.

Lemma io_base_above_memory : MemoryBus.MEMORY_SIZE < MemoryBus.IO_BASE.
Proof. reflexivity. Qed.

(** [MemoryBus.write_word] in memory: the word goes into the dict cache,
    no counter of the cache moves, and the next read is a hit. *)
Lemma bus_write_allocates (b : MemoryBus.t) (address value : Z) :
  0 <= address -> address + 4 <= MemoryBus.MEMORY_SIZE ->
  0 <= value < 2 ^ 32 ->
  exists b',
    MemoryBus.write_word address value b = Ok tt b' /\
    cached b' address = Some value /\
    BusCache.hits (MemoryBus.cache b') = BusCache.hits (MemoryBus.cache b) /\
    BusCache.misses (MemoryBus.cache b') = BusCache.misses (MemoryBus.cache b) /\
    MemoryBus.read_word address b' =
      Ok value (MemoryBus.set_cache
                  (BusCache.set_hits (fun h => h + 1) (MemoryBus.cache b')) b').
Proof.
  intros H0 Hmem Hv. pose proof io_base_above_memory as Hio.
  destruct (to_bytes4_in_range value Hv) as [bs Hbs].
  eexists. split; [apply (bus_write_word_memory b address value bs); [lia|lia|exact Hbs]|].
  assert (forall d : gmap Z Z, <[address := value]> d !! address = Some value)
    as Hl by (intros d; apply lookup_insert_eq).
  split; [apply Hl|]. split; [reflexivity|]. split; [reflexivity|].
  apply bus_read_word_hit; [lia | lia | apply Hl].
Qed.

(** When the value does not fit four bytes, the cache already has it and
    memory is left alone: the cache is written first. *)
Lemma bus_write_caches_first (b : MemoryBus.t) (address value : Z) :
  address < MemoryBus.IO_BASE -> address + 4 <= MemoryBus.MEMORY_SIZE ->
  ~ (0 <= value < 2 ^ 32) ->
  MemoryBus.write_word address value b =
    Raise OverflowError
      (MemoryBus.set_cache
         (BusCache.set_cache (fun d => <[address := value]> d)
            (MemoryBus.cache b)) b).
Proof.
  intros Hio Hmem Hv. unfold MemoryBus.write_word.
  destruct (Z.leb_spec MemoryBus.IO_BASE address); [lia|].
  destruct (Z.ltb_spec MemoryBus.MEMORY_SIZE (address + 4)); [lia|].
  unfold bind, MemoryBus.on_cache, zoom, BusCache.write_word, orraise, modify, raise.
  rewrite (to_bytes4_out_of_range _ Hv). reflexivity.
Qed.

(** C4 (counterexample): on a new bus, [write_word(0, 5)] puts address 0
    in the cache of the bus; the claim has it still absent. *)
Lemma bus_write_no_allocate_claim_fails : ~ bus_write_no_allocate_claim.
Proof.
  intros H.
  destruct (H MemoryBus.init 0 5) as [_ Habsent];
    [lia | unfold MemoryBus.MEMORY_SIZE; lia | lia | reflexivity |].
  destruct (bus_write_allocates MemoryBus.init 0 5) as (b' & Hw & Hc & _);
    [lia | unfold MemoryBus.MEMORY_SIZE; lia | lia |].
  rewrite Hw in Habsent. simpl in Habsent. congruence.
Qed.

(** C4 (amended): in the line cache of cache.py, a word write below
    [IO_START] passes the write to the bus before it looks at its lines:
    when the bus raises, the exception goes to the caller and the lines
    and both counters are as before.  When the bus accepts the write and
    the address is not resident, the cache then counts exactly one miss
    and leaves every line as it was, so the address is still not resident
    and the read that follows counts a miss and no hit.  The dict cache
    inside the bus of memory_bus.py allocates instead:
    [MemoryBus.write_word] stores the word in the cache, before it writes
    memory, moves neither the hit nor the miss counter, and the read that
    follows is a hit. *)
Theorem write_miss_allocation :
  (forall (B : Type) (IO_START : Z) (bus_read_word : Z -> M B Z)
          (bus_write_word : Z -> Z -> M B unit)
          (c : @Cache.t B) (address value : Z) (bus' : B),
     address < IO_START ->
     (forall e : exn,
        bus_write_word address value (Cache.memory_bus c) = Raise e bus' ->
        Cache.write_word IO_START bus_write_word address value c =
          Raise e (Cache.set_memory_bus bus' c)) /\
     (not_resident c address ->
      bus_write_word address value (Cache.memory_bus c) = Ok tt bus' ->
      let c' :=
        Cache.set_misses (fun m => m + 1) (Cache.set_memory_bus bus' c) in
      let r := state_of (Cache.read_word IO_START bus_read_word address c') in
      Cache.write_word IO_START bus_write_word address value c = Ok tt c' /\
      Cache.lines c' = Cache.lines c /\
      Cache.hits c' = Cache.hits c /\
      Cache.misses c' = Cache.misses c + 1 /\
      not_resident c' address /\
      Cache.misses r = Cache.misses c' + 1 /\
      Cache.hits r = Cache.hits c')) /\
  (forall (b : MemoryBus.t) (address value : Z),
     0 <= address -> address + 4 <= MemoryBus.MEMORY_SIZE ->
     (0 <= value < 2 ^ 32 ->
      exists b',
        MemoryBus.write_word address value b = Ok tt b' /\
        cached b' address = Some value /\
        BusCache.hits (MemoryBus.cache b') = BusCache.hits (MemoryBus.cache b) /\
        BusCache.misses (MemoryBus.cache b') =
          BusCache.misses (MemoryBus.cache b) /\
        MemoryBus.read_word address b' =
          Ok value (MemoryBus.set_cache
                      (BusCache.set_hits (fun h => h + 1) (MemoryBus.cache b'))
                      b')) /\
     (~ (0 <= value < 2 ^ 32) ->
      MemoryBus.write_word address value b =
        Raise OverflowError
          (MemoryBus.set_cache
             (BusCache.set_cache (fun d => <[address := value]> d)
                (MemoryBus.cache b)) b))).
Proof.
  split.
  - intros B IO_START brw bww c address value bus' Hio. split.
    { intros e Hbus. apply write_word_bus_raises; assumption. }
    intros Hnr Hbus c' r.
    assert (not_resident c' address) as Hnr' by exact Hnr.
    split; [apply write_word_miss; assumption|].
    split; [reflexivity|]. split; [reflexivity|]. split; [reflexivity|].
    split; [exact Hnr'|].
    pose proof (hoare_read_word_miss IO_START brw (Cache.hits c')
                  (Cache.misses c') c' address Hio eq_refl eq_refl Hnr') as Hr.
    subst r.
    destruct (Cache.read_word IO_START brw address c') as [v c2|e c2];
      simpl; [destruct Hr as [Hr _]|]; destruct Hr as (Hh & Hm & _); auto.
  - intros b address value H0 Hmem. pose proof io_base_above_memory. split.
    + intros Hv. apply bus_write_allocates; assumption.
    + intros Hv. apply bus_write_caches_first; [lia | lia | exact Hv].
Qed.

Lemma new_cache_not_resident (bus : MemoryBus.t) :
  not_resident (Cache.init bus 1024) 0.
Proof.
  split; [discriminate|]. split; [discriminate|].
  exists false, 0, (replicate (Z.to_nat 32) 0). split; reflexivity.
Qed.

Lemma write_miss_allocation_witness :
  line_cache_write 0 5 (Cache.init MemoryBus.init 1024) =
    Ok tt (Cache.set_misses (fun m => m + 1)
             (Cache.set_memory_bus (bus_with_word 0 5)
                (Cache.init MemoryBus.init 1024))) /\
  line_cache_write 0x100000 5 (Cache.init MemoryBus.init 1024) =
    Raise MemoryError
      (Cache.set_memory_bus MemoryBus.init (Cache.init MemoryBus.init 1024)) /\
  (exists b', MemoryBus.write_word 0 5 MemoryBus.init = Ok tt b' /\
              cached b' 0 = Some 5).
Proof.
  split; [|split].
  - apply (proj2 (proj1 write_miss_allocation MemoryBus.t MemoryBus.IO_BASE
                    MemoryBus.read_word MemoryBus.write_word
                    (Cache.init MemoryBus.init 1024) 0 5 (bus_with_word 0 5)
                    ltac:(reflexivity))).
    + apply new_cache_not_resident.
    + reflexivity.
  - apply (proj1 (proj1 write_miss_allocation MemoryBus.t MemoryBus.IO_BASE
                    MemoryBus.read_word MemoryBus.write_word
                    (Cache.init MemoryBus.init 1024) 0x100000 5 MemoryBus.init
                    ltac:(reflexivity))).
    reflexivity.
  - destruct (proj1 (proj2 write_miss_allocation MemoryBus.init 0 5
                       ltac:(lia) ltac:(unfold MemoryBus.MEMORY_SIZE; lia))
                ltac:(lia)) as (b' & Hw & Hc & _).
    exists b'. split; assumption.
Defined.

(** ** C3: the hit rate *)

(** The quotient and the remainder of [p * 2^54] by [2 * p]. *)
Lemma div_eucl_double (p : positive) :
  Z.div_eucl (Z.shiftl (Z.pos p) 54) (Z.pos p~0) = (2 ^ 53, 0).
Proof.
  rewrite Z.shiftl_mul_pow2 by lia.
  replace (Z.pos p * 2 ^ 54) with (2 ^ 53 * Z.pos p~0)
    by (change (2 ^ 54) with (2 * 2 ^ 53); rewrite (Pos2Z.inj_xO p); ring).
  pose proof (Z.div_mul (2 ^ 53) (Z.pos p~0) ltac:(discriminate)) as Hq.
  pose proof (Z.mod_mul (2 ^ 53) (Z.pos p~0) ltac:(discriminate)) as Hr.
  unfold Z.div in Hq. unfold Z.modulo in Hr.
  destruct (Z.div_eucl (2 ^ 53 * Z.pos p~0) (Z.pos p~0)) as [q r].
  subst q r. reflexivity.
Qed.

(** [n / (2 * n)] is the double 0.5, whatever the size of [n]. *)
Lemma int_truediv_half (p : positive) :
  Py.int_truediv (Z.pos p) (Z.pos p~0) = Some float_half.
Proof.
  unfold Py.int_truediv, Py.binary_of_int, SFdiv, SFdiv_core_binary.
  cbn [Zdigits2 digits2_pos].
  replace (Z.pos (digits2_pos p) + 0 - (Z.pos (Pos.succ (digits2_pos p)) + 0))
    with (-1) by lia.
  change (Z.min (fexp Py.prec Py.emax (-1)) (0 - 0)) with (-54).
  change (0 - 0 - -54) with 54.
  cbv iota beta.
  change (IntDef.Z.div_eucl (IntDef.Z.shiftl (Z.pos p) 54) (Z.pos p~0))
    with (Z.div_eucl (Z.shiftl (Z.pos p) 54) (Z.pos p~0)).
  rewrite div_eucl_double. reflexivity.
Qed.

Lemma int_truediv_double (n : Z) :
  0 < n -> Py.int_truediv n (n + n) = Some float_half.
Proof.
  intros Hn. destruct n as [|p|p]; try lia.
  replace (Z.pos p + Z.pos p) with (Z.pos p~0) by lia.
  apply int_truediv_half.
Qed.

Lemma truediv_half {S} (n : Z) (s : S) :
  0 < n -> truediv n (n + n) s = Ok float_half s.
Proof.
  intros Hn. unfold truediv.
  destruct (Z.eqb_spec (n + n) 0); [lia|].
  rewrite int_truediv_double by exact Hn. reflexivity.
Qed.

(** [0.5 * 100] is the double 50.0. *)
Lemma half_of_hundred : Py.float_mul_int float_half 100 = Some float_fifty.
Proof. reflexivity. Qed.

(** [truediv] does not look at the state. *)
Lemma truediv_Ok_inv {S} (a b : Z) (q : spec_float) (s s' : S) :
  truediv a b s = Ok q s' ->
  b <> 0 /\ Py.int_truediv a b = Some q /\ s' = s.
Proof.
  unfold truediv. destruct (Z.eqb_spec b 0); [discriminate|].
  unfold orraise. destruct (Py.int_truediv a b); [|discriminate].
  intros [= <- <-]. auto.
Qed.

Lemma get_hit_rate_cases {B} (c : @Cache.t B) :
  (0 < Cache.hits c + Cache.misses c ->
   Cache.get_hit_rate c =
     truediv (Cache.hits c) (Cache.hits c + Cache.misses c) c) /\
  (Cache.hits c + Cache.misses c <= 0 ->
   Cache.get_hit_rate c = Ok float_zero c) /\
  (0 < Cache.hits c -> Cache.misses c = Cache.hits c ->
   Cache.get_hit_rate c = Ok float_half c).
Proof.
  unfold Cache.get_hit_rate, bind, gets. split; [|split].
  - intros H.
    destruct (Z.ltb_spec 0 (Cache.hits c + Cache.misses c)); [|lia].
    reflexivity.
  - intros H.
    destruct (Z.ltb_spec 0 (Cache.hits c + Cache.misses c)); [lia|].
    reflexivity.
  - intros Hh Hm. rewrite Hm.
    destruct (Z.ltb_spec 0 (Cache.hits c + Cache.hits c)); [|lia].
    apply truediv_half, Hh.
Qed.

Lemma bus_get_stats_rate (b : MemoryBus.t) (rate : Py.number) :
  BusCache.get_stats (MemoryBus.cache b) =
    Ok (BusCache.mk_stats (BusCache.hits (MemoryBus.cache b))
          (BusCache.misses (MemoryBus.cache b)) rate) (MemoryBus.cache b) ->
  MemoryBus.get_stats b =
    Ok (MemoryBus.mk_stats
          (BusCache.mk_stats (BusCache.hits (MemoryBus.cache b))
             (BusCache.misses (MemoryBus.cache b)) rate)
          (MemoryBus.reads b) (MemoryBus.writes b)
          (MemoryBus.io_reads b) (MemoryBus.io_writes b)) b /\
  bus_hit_rate b = Some rate.
Proof.
  intros H.
  assert (MemoryBus.set_cache (MemoryBus.cache b) b = b) as Hsame
    by (destruct b; reflexivity).
  assert (MemoryBus.get_stats b =
            Ok (MemoryBus.mk_stats
                  (BusCache.mk_stats (BusCache.hits (MemoryBus.cache b))
                     (BusCache.misses (MemoryBus.cache b)) rate)
                  (MemoryBus.reads b) (MemoryBus.writes b)
                  (MemoryBus.io_reads b) (MemoryBus.io_writes b)) b) as Hst.
  { unfold MemoryBus.get_stats. unfold bind at 1.
    unfold MemoryBus.on_cache, zoom. rewrite H, Hsame. reflexivity. }
  split; [exact Hst|].
  unfold bus_hit_rate, returned. unfold bind. rewrite Hst. reflexivity.
Qed.

Lemma bus_cache_get_stats_cases (c : BusCache.t) :
  (BusCache.hits c + BusCache.misses c <= 0 ->
   BusCache.get_stats c =
     Ok (BusCache.mk_stats (BusCache.hits c) (BusCache.misses c) (Py.Int 0))
        c) /\
  (0 < BusCache.hits c -> BusCache.misses c = BusCache.hits c ->
   BusCache.get_stats c =
     Ok (BusCache.mk_stats (BusCache.hits c) (BusCache.misses c)
           (Py.Float float_fifty)) c).
Proof.
  unfold BusCache.get_stats, truediv, bind, gets, orraise, ret, raise. split.
  - intros H.
    destruct (Z.ltb_spec 0 (BusCache.hits c + BusCache.misses c)); [lia|].
    reflexivity.
  - intros Hh Hm. rewrite Hm.
    destruct (Z.ltb_spec 0 (BusCache.hits c + BusCache.hits c)); [|lia].
    destruct (Z.eqb_spec (BusCache.hits c + BusCache.hits c) 0); [lia|].
    rewrite int_truediv_double by exact Hh.
    rewrite half_of_hundred. reflexivity.
Qed.

(** The rate of the bus is the rate of the line cache, for the same
    counters, multiplied by the float of 100. *)
Lemma bus_rate_is_line_rate_times_100 {B} (c : @Cache.t B)
    (b : MemoryBus.t) (q : spec_float) :
  Cache.hits c = BusCache.hits (MemoryBus.cache b) ->
  Cache.misses c = BusCache.misses (MemoryBus.cache b) ->
  0 < Cache.hits c + Cache.misses c ->
  Cache.get_hit_rate c = Ok q c ->
  bus_hit_rate b =
    match Py.float_mul_int q 100 with
    | Some percent => Some (Py.Float percent)
    | None => None
    end.
Proof.
  intros Hh Hm Htot Hq.
  unfold Cache.get_hit_rate, bind, gets in Hq.
  destruct (Z.ltb_spec 0 (Cache.hits c + Cache.misses c)); [|lia].
  apply truediv_Ok_inv in Hq. destruct Hq as (Hne & Hdiv & _).
  rewrite Hh, Hm in Hne, Hdiv.
  assert (MemoryBus.set_cache (MemoryBus.cache b) b = b) as Hsame
    by (destruct b; reflexivity).
  unfold bus_hit_rate, returned, MemoryBus.get_stats, MemoryBus.on_cache, zoom,
    BusCache.get_stats, truediv, bind, gets, orraise, ret, raise.
  destruct (Z.ltb_spec 0 (BusCache.hits (MemoryBus.cache b) +
                          BusCache.misses (MemoryBus.cache b))); [|lia].
  destruct (Z.eqb_spec (BusCache.hits (MemoryBus.cache b) +
                        BusCache.misses (MemoryBus.cache b)) 0);
    [contradiction|].
  rewrite Hdiv.
  destruct (Py.float_mul_int q 100); reflexivity.
Qed.

(** One miss and one hit on the line cache. *)
Lemma line_cache_miss_then_hit {B} (IO_START : Z) (bus_read_word : Z -> M B Z)
    (c c1 : @Cache.t B) (address v : Z) :
  Cache.hits c = 0 -> Cache.misses c = 0 ->
  address < IO_START ->
  not_resident c address ->
  Cache.read_word IO_START bus_read_word address c = Ok v c1 ->
  exists v' c2,
    Cache.read_word IO_START bus_read_word address c1 = Ok v' c2 /\
    Cache.hits c2 = 1 /\ Cache.misses c2 = 1 /\
    Cache.get_hit_rate c2 = Ok float_half c2.
Proof.
  intros Hh Hm Hio Hnr Hread.
  pose proof (hoare_read_word_miss IO_START bus_read_word 0 0 c address
                Hio Hh Hm Hnr) as H1.
  rewrite Hread in H1.
  destruct H1 as ((Hh1 & Hm1 & Hls & Hnl) & data & Hline).
  destruct Hnr as (Hls0 & Hnl0 & _).
  assert (line_index_of c1 address = line_index_of c address) as Hidx
    by (unfold line_index_of; rewrite Hls, Hnl; reflexivity).
  assert (tag_of c1 address = tag_of c address) as Htag
    by (unfold tag_of; rewrite Hls, Hnl; reflexivity).
  rewrite <- Hidx, <- Htag in Hline.
  eexists _, _. split.
  - apply (read_word_hit IO_START bus_read_word c1 address
             (tag_of c1 address) data); [exact Hio | congruence | congruence | exact Hline].
  - assert (Cache.hits (Cache.set_hits (fun h => h + 1) c1) = 1) as Hh2
      by (simpl; lia).
    assert (Cache.misses (Cache.set_hits (fun h => h + 1) c1) = 1) as Hm2
      by (simpl; lia).
    split; [exact Hh2|]. split; [exact Hm2|].
    apply (proj2 (proj2 (get_hit_rate_cases _))); [lia | lia].
Qed.

(** One miss and one hit on the bus. *)
Lemma bus_miss_then_hit (b : MemoryBus.t) (address : Z) :
  0 <= address -> address + 4 <= MemoryBus.MEMORY_SIZE ->
  cached b address = None ->
  BusCache.hits (MemoryBus.cache b) = 0 ->
  BusCache.misses (MemoryBus.cache b) = 0 ->
  bus_hit_rate
    (state_of (MemoryBus.read_word address
       (state_of (MemoryBus.read_word address b)))) =
    Some (Py.Float float_fifty).
Proof.
  intros H0 Hmem Hc Hh Hm. pose proof io_base_above_memory as Hio.
  rewrite (bus_read_word_miss b address) by (try lia; exact Hc).
  simpl state_of.
  erewrite bus_read_word_hit;
    [| lia | lia | unfold cached; simpl; apply lookup_insert_eq].
  simpl state_of.
  apply bus_get_stats_rate.
  apply (proj2 (bus_cache_get_stats_cases _)); simpl; lia.
Qed.

(** C3 (counterexample): on a new bus, after [read_word(0)] twice (a miss,
    then a hit) the statistics of the bus report a hit rate of 50.0, not
    0.5. *)
Lemma bus_hit_rate_claim_fails : ~ bus_hit_rate_claim.
Proof.
  intros H.
  assert (0 <= 0) as H0 by lia.
  assert (0 + 4 <= MemoryBus.MEMORY_SIZE) as Hmem
    by (unfold MemoryBus.MEMORY_SIZE; lia).
  pose proof (H MemoryBus.init 0 H0 Hmem eq_refl eq_refl eq_refl) as Hhalf.
  pose proof (bus_miss_then_hit MemoryBus.init 0 H0 Hmem eq_refl eq_refl eq_refl)
    as Hfifty.
  rewrite Hfifty in Hhalf. discriminate Hhalf.
Qed.

(** C3 (amended): the line cache of cache.py reports the float
    [hits / (hits + misses)], a fraction: 0.0 when there has been no
    access, and exactly 0.5 whenever the hits equal the misses, as after
    one read that misses and a repeat read of the same address, which
    hits.  The statistics of the bus (memory_bus.py) report a percentage,
    that float quotient multiplied by 100: the int 0 when there has been
    no access, exactly 50.0 whenever the hits equal the misses, as after
    one miss and one hit. *)
Theorem hit_rate_fraction_and_percentage :
  (forall (B : Type) (c : @Cache.t B),
     (0 < Cache.hits c + Cache.misses c ->
      Cache.get_hit_rate c =
        truediv (Cache.hits c) (Cache.hits c + Cache.misses c) c) /\
     (Cache.hits c + Cache.misses c <= 0 ->
      Cache.get_hit_rate c = Ok float_zero c) /\
     (0 < Cache.hits c -> Cache.misses c = Cache.hits c ->
      Cache.get_hit_rate c = Ok float_half c)) /\
  (forall (B : Type) (IO_START : Z) (bus_read_word : Z -> M B Z)
          (c c1 : @Cache.t B) (address v : Z),
     Cache.hits c = 0 -> Cache.misses c = 0 ->
     address < IO_START ->
     not_resident c address ->
     Cache.read_word IO_START bus_read_word address c = Ok v c1 ->
     exists v' c2,
       Cache.read_word IO_START bus_read_word address c1 = Ok v' c2 /\
       Cache.hits c2 = 1 /\ Cache.misses c2 = 1 /\
       Cache.get_hit_rate c2 = Ok float_half c2) /\
  (forall b : MemoryBus.t,
     let h := BusCache.hits (MemoryBus.cache b) in
     let m := BusCache.misses (MemoryBus.cache b) in
     (h + m <= 0 -> bus_hit_rate b = Some (Py.Int 0)) /\
     (0 < h -> m = h -> bus_hit_rate b = Some (Py.Float float_fifty)) /\
     (forall (B : Type) (c : @Cache.t B) (q : spec_float),
        Cache.hits c = h -> Cache.misses c = m -> 0 < h + m ->
        Cache.get_hit_rate c = Ok q c ->
        bus_hit_rate b =
          match Py.float_mul_int q 100 with
          | Some percent => Some (Py.Float percent)
          | None => None
          end)) /\
  (forall (b : MemoryBus.t) (address : Z),
     0 <= address -> address + 4 <= MemoryBus.MEMORY_SIZE ->
     cached b address = None ->
     BusCache.hits (MemoryBus.cache b) = 0 ->
     BusCache.misses (MemoryBus.cache b) = 0 ->
     bus_hit_rate
       (state_of (MemoryBus.read_word address
          (state_of (MemoryBus.read_word address b)))) =
       Some (Py.Float float_fifty)).
Proof.
  split; [|split; [|split]].
  - intros B c. apply get_hit_rate_cases.
  - intros B. apply line_cache_miss_then_hit.
  - intros b h m. split; [|split].
    + intros H. apply bus_get_stats_rate.
      apply (proj1 (bus_cache_get_stats_cases _)), H.
    + intros Hh Hm. apply bus_get_stats_rate.
      apply (proj2 (bus_cache_get_stats_cases _)); assumption.
    + intros B c q Hh Hm Htot Hq.
      apply (bus_rate_is_line_rate_times_100 c b q); try assumption.
      rewrite Hh, Hm. exact Htot.
  - apply bus_miss_then_hit.
Qed.

Lemma returns_Ok {S A} (r : result S A) (default : A) :
  returns r = true -> r = Ok (value_of default r) (state_of r).
Proof. destruct r; [reflexivity | discriminate]. Qed.

Lemma hit_rate_fraction_and_percentage_witness :
  (exists v' c2,
     line_cache_read 0 line_cache_read_once = Ok v' c2 /\
     Cache.hits c2 = 1 /\ Cache.misses c2 = 1 /\
     Cache.get_hit_rate c2 = Ok float_half c2) /\
  bus_hit_rate
    (state_of (MemoryBus.read_word 0
       (state_of (MemoryBus.read_word 0 MemoryBus.init)))) =
    Some (Py.Float float_fifty).
Proof.
  split.
  - unfold line_cache_read_once, line_cache_read.
    apply (proj1 (proj2 hit_rate_fraction_and_percentage) MemoryBus.t
             MemoryBus.IO_BASE MemoryBus.read_word new_line_cache _ 0
             (value_of 0 (Cache.read_word MemoryBus.IO_BASE MemoryBus.read_word
                            0 new_line_cache))).
    + reflexivity.
    + reflexivity.
    + reflexivity.
    + apply new_cache_not_resident.
    + apply returns_Ok. reflexivity.
  - apply (proj2 (proj2 (proj2 hit_rate_fraction_and_percentage))
             MemoryBus.init 0).
    + lia.
    + unfold MemoryBus.MEMORY_SIZE. lia.
    + reflexivity.
    + reflexivity.
    + reflexivity.
Defined.

(** * Further properties *)

(** ** Bit fields as arithmetic *)

Lemma testbit_above (b n m : Z) :
  0 <= b < 2 ^ n -> n <= m -> Z.testbit b m = false.
Proof.
  intros Hb Hm. destruct (Z.eq_dec b 0) as [->|Hnz]; [apply Z.bits_0|].
  apply Z.bits_above_log2; [lia|].
  assert (Z.log2 b < n) by (apply Z.log2_lt_pow2; lia). lia.
Qed.

(** Or-ing a value below [2^n] into a multiple of [2^n] adds it. *)
Lemma lor_shifted (a b n : Z) :
  0 <= n -> 0 <= b < 2 ^ n -> Z.lor (a * 2 ^ n) b = a * 2 ^ n + b.
Proof.
  intros Hn Hb.
  assert (Z.land (a * 2 ^ n) b = 0) as Hdisj.
  { apply Z.bits_inj'. intros m Hm. rewrite Z.land_spec, Z.bits_0.
    destruct (Z.lt_ge_cases m n).
    - rewrite Z.mul_pow2_bits_low by lia. reflexivity.
    - rewrite (testbit_above b n m) by lia. apply andb_false_r. }
  rewrite <- Z.lxor_lor by exact Hdisj.
  symmetry. apply Z.add_nocarry_lxor. exact Hdisj.
Qed.

Lemma field_of_word (w k j : Z) :
  0 <= k -> 0 <= j ->
  Z.land (Z.shiftr w k) (Z.ones j) = (w / 2 ^ k) mod 2 ^ j.
Proof.
  intros Hk Hj. rewrite Z.land_ones by exact Hj.
  rewrite Z.shiftr_div_pow2 by exact Hk. reflexivity.
Qed.

(** The R-type word as a sum of its fields. *)
Lemma r_type_word_sum (opcode funct rd rs rt : Z) :
  0 <= rs < 32 -> 0 <= rt < 32 -> 0 <= rd < 32 -> 0 <= funct < 64 ->
  InstructionParser._parse_r_type opcode funct rd rs rt =
    opcode * 2 ^ 26 + rs * 2 ^ 21 + rt * 2 ^ 16 + rd * 2 ^ 11 + funct.
Proof.
  intros Hrs Hrt Hrd Hf. unfold InstructionParser._parse_r_type.
  rewrite !Z.shiftl_mul_pow2 by lia.
  rewrite (lor_shifted opcode (rs * 2 ^ 21) 26) by lia.
  replace (opcode * 2 ^ 26 + rs * 2 ^ 21)
    with ((opcode * 32 + rs) * 2 ^ 21) by lia.
  rewrite (lor_shifted _ (rt * 2 ^ 16) 21) by lia.
  replace ((opcode * 32 + rs) * 2 ^ 21 + rt * 2 ^ 16)
    with (((opcode * 32 + rs) * 32 + rt) * 2 ^ 16) by lia.
  rewrite (lor_shifted _ (rd * 2 ^ 11) 16) by lia.
  replace (((opcode * 32 + rs) * 32 + rt) * 2 ^ 16 + rd * 2 ^ 11)
    with ((((opcode * 32 + rs) * 32 + rt) * 32 + rd) * 2 ^ 11) by lia.
  rewrite (lor_shifted _ funct 11) by lia.
  lia.
Qed.

Lemma i_type_word_sum (opcode rs rt immediate : Z) :
  0 <= rs < 32 -> 0 <= rt < 32 ->
  InstructionParser._parse_i_type opcode rs rt immediate =
    opcode * 2 ^ 26 + rs * 2 ^ 21 + rt * 2 ^ 16 + immediate mod 2 ^ 16.
Proof.
  intros Hrs Hrt. unfold InstructionParser._parse_i_type.
  change 0xFFFF with (Z.ones 16). rewrite Z.land_ones by lia.
  pose proof (Z.mod_pos_bound immediate (2 ^ 16) ltac:(lia)) as Hm.
  rewrite !Z.shiftl_mul_pow2 by lia.
  rewrite (lor_shifted opcode (rs * 2 ^ 21) 26) by lia.
  replace (opcode * 2 ^ 26 + rs * 2 ^ 21)
    with ((opcode * 32 + rs) * 2 ^ 21) by lia.
  rewrite (lor_shifted _ (rt * 2 ^ 16) 21) by lia.
  replace ((opcode * 32 + rs) * 2 ^ 21 + rt * 2 ^ 16)
    with (((opcode * 32 + rs) * 32 + rt) * 2 ^ 16) by lia.
  rewrite (lor_shifted _ (immediate mod 2 ^ 16) 16) by lia.
  lia.
Qed.

(** Reading the fields back out of a sum of fields. *)
Ltac read_field :=
  first [ progress change 0x3F with (Z.ones 6)
        | progress change 0x1F with (Z.ones 5)
        | progress change 0xFFFF with (Z.ones 16)
        | progress change 0x3FFFFFF with (Z.ones 26) ];
  first [ rewrite field_of_word by lia | rewrite Z.land_ones by lia ];
  Z.div_mod_to_equations; lia.

(** ** Assembling and decoding *)

(** X1: an R-type word assembled from register numbers below 32 and a
    function code below 64 decodes to exactly those fields, with shift
    amount 0. *)
Theorem decode_parse_r_type :
  forall (s : CPU.t) (funct rd rs rt : Z),
    0 <= rs < 32 -> 0 <= rt < 32 -> 0 <= rd < 32 -> 0 <= funct < 64 ->
    CPU.decode_instruction
      (InstructionParser._parse_r_type InstructionParser.R_TYPE_OPCODE
         funct rd rs rt) s =
      Ok (CPU.RType 0 rs rt rd 0 funct) s.
Proof.
  intros s funct rd rs rt Hrs Hrt Hrd Hf.
  rewrite r_type_word_sum by assumption.
  unfold InstructionParser.R_TYPE_OPCODE.
  set (w := 0 * 2 ^ 26 + rs * 2 ^ 21 + rt * 2 ^ 16 + rd * 2 ^ 11 + funct).
  assert (Z.land (Z.shiftr w 26) 0x3F = 0) as Hop by (subst w; read_field).
  assert (Z.land (Z.shiftr w 21) 0x1F = rs) as H1 by (subst w; read_field).
  assert (Z.land (Z.shiftr w 16) 0x1F = rt) as H2 by (subst w; read_field).
  assert (Z.land (Z.shiftr w 11) 0x1F = rd) as H3 by (subst w; read_field).
  assert (Z.land (Z.shiftr w 6) 0x1F = 0) as H4 by (subst w; read_field).
  assert (Z.land w 0x3F = funct) as H5 by (subst w; read_field).
  unfold CPU.decode_instruction. rewrite Hop, H1, H2, H3, H4, H5. reflexivity.
Qed.

Lemma decode_parse_r_type_witness :
  CPU.decode_instruction
    (InstructionParser._parse_r_type InstructionParser.R_TYPE_OPCODE 0x2A 10 8 9)
    (CPU.reset MemoryBus.init) =
    Ok (CPU.RType 0 8 9 10 0 0x2A) (CPU.reset MemoryBus.init).
Proof. apply decode_parse_r_type; lia. Defined.

Lemma signed16_mod (imm : Z) :
  -32768 <= imm <= 32767 -> signed16 (imm mod 2 ^ 16) = imm.
Proof.
  intros H. unfold signed16.
  destruct (Z.ltb_spec (imm mod 2 ^ 16) (2 ^ 15));
    Z.div_mod_to_equations; lia.
Qed.

Lemma signed16_range (x : Z) :
  0 <= x < 2 ^ 16 -> -32768 <= signed16 x <= 32767.
Proof. intros H. unfold signed16. destruct (Z.ltb_spec x (2 ^ 15)); lia. Qed.

(** X2: an I-type word assembled for one of the five I-type opcodes from
    register numbers below 32 and an immediate in [-32768, 32767] decodes
    to exactly those fields, the immediate with its sign. *)
Theorem decode_parse_i_type :
  forall (s : CPU.t) (opcode rs rt immediate : Z),
    In opcode InstructionParser.I_TYPE_OPCODES ->
    0 <= rs < 32 -> 0 <= rt < 32 ->
    -32768 <= immediate <= 32767 ->
    CPU.decode_instruction
      (InstructionParser._parse_i_type opcode rs rt immediate) s =
      Ok (CPU.IType opcode rs rt immediate) s.
Proof.
  intros s opcode rs rt immediate Hin Hrs Hrt Himm.
  rewrite i_type_word_sum by assumption.
  pose proof (Z.mod_pos_bound immediate (2 ^ 16) ltac:(lia)) as Hm.
  set (w := opcode * 2 ^ 26 + rs * 2 ^ 21 + rt * 2 ^ 16 + immediate mod 2 ^ 16).
  assert (0 <= opcode < 64) as Hop6
    by (simpl in Hin; intuition (subst; lia)).
  assert (Z.land (Z.shiftr w 26) 0x3F = opcode) as Hop by (subst w; read_field).
  assert (Z.land (Z.shiftr w 21) 0x1F = rs) as H1 by (subst w; read_field).
  assert (Z.land (Z.shiftr w 16) 0x1F = rt) as H2 by (subst w; read_field).
  assert (Z.land w 0xFFFF = immediate mod 2 ^ 16) as H3 by (subst w; read_field).
  unfold CPU.decode_instruction. rewrite Hop, H1, H2, H3.
  rewrite sign_extend_signed16 by lia. rewrite signed16_mod by exact Himm.
  simpl in Hin. destruct Hin as [<-|[<-|[<-|[<-|[<-|[]]]]]]; reflexivity.
Qed.

Lemma decode_parse_i_type_witness :
  CPU.decode_instruction (InstructionParser._parse_i_type 0x08 0 8 (-1))
    (CPU.reset MemoryBus.init) =
    Ok (CPU.IType 0x08 0 8 (-1)) (CPU.reset MemoryBus.init).
Proof. apply decode_parse_i_type; simpl; auto; lia. Defined.

(** X3: [_parse_immediate] never rejects a number: it is the identity on
    [-32768, 32767] and wraps every other number into that range, keeping
    its low 16 bits. *)
Theorem parse_immediate_wraps :
  forall value : Z,
    -32768 <= InstructionParser._parse_immediate value <= 32767 /\
    InstructionParser._parse_immediate value mod 2 ^ 16 = value mod 2 ^ 16 /\
    (-32768 <= value <= 32767 ->
     InstructionParser._parse_immediate value = value).
Proof.
  intros value.
  assert (InstructionParser._parse_immediate value = signed16 (value mod 2 ^ 16))
    as ->.
  { unfold InstructionParser._parse_immediate.
    change 0xFFFF with (Z.ones 16). rewrite Z.land_ones by lia.
    apply (sign_extend_signed16 (value mod 2 ^ 16)).
    apply Z.mod_pos_bound. lia. }
  pose proof (Z.mod_pos_bound value (2 ^ 16) ltac:(lia)) as Hm.
  split; [apply signed16_range; exact Hm|]. split.
  - unfold signed16. destruct (Z.ltb_spec (value mod 2 ^ 16) (2 ^ 15)).
    + apply Z.mod_mod. lia.
    + Z.div_mod_to_equations. lia.
  - apply signed16_mod.
Qed.

Lemma parse_immediate_wraps_witness :
  InstructionParser._parse_immediate (-1) = -1 /\
  InstructionParser._parse_immediate 40000 = -25536.
Proof.
  split.
  - apply (proj2 (proj2 (parse_immediate_wraps (-1)))). lia.
  - reflexivity.
Defined.

Lemma land_region_low (p : Z) : 0 <= p < 2 ^ 28 -> Z.land p 0xF0000000 = 0.
Proof.
  intros H. apply Z.bits_inj'. intros m Hm. rewrite Z.land_spec, Z.bits_0.
  destruct (Z.lt_ge_cases m 28).
  - change 0xF0000000 with (15 * 2 ^ 28).
    rewrite Z.mul_pow2_bits_low by lia. apply andb_false_r.
  - rewrite (testbit_above p 28 m) by lia. reflexivity.
Qed.

(** X4: J and JAL to a label.  For a word-aligned label address below
    2^28 the assembler emits a word that decodes to the label's word
    index, and from any PC below 2^28 the jump target the CPU computes
    from it is the label address itself. *)
Theorem jump_reaches_label :
  forall (s : CPU.t) (opcode target_addr : Z),
    In opcode InstructionParser.J_TYPE_OPCODES ->
    0 <= target_addr < 2 ^ 28 -> target_addr mod 4 = 0 ->
    exists w,
      InstructionParser._parse_j_type opcode target_addr = Some w /\
      CPU.decode_instruction w s = Ok (CPU.JType opcode (target_addr / 4)) s /\
      forall p, 0 <= p < 2 ^ 28 -> jump_target p (target_addr / 4) = target_addr.
Proof.
  intros s opcode target_addr Hin Ht Hal.
  assert (0 <= target_addr / 4 < 2 ^ 26) as Hq
    by (Z.div_mod_to_equations; lia).
  assert (0 <= opcode < 64) as Hop6 by (simpl in Hin; intuition (subst; lia)).
  exists (opcode * 2 ^ 26 + target_addr / 4). split; [|split].
  - unfold InstructionParser._parse_j_type.
    rewrite Z.shiftr_div_pow2 by lia. change (2 ^ 2) with 4.
    change (Z.shiftl 1 26) with (2 ^ 26).
    destruct (Z.leb_spec 0 (target_addr / 4)); [|lia].
    destruct (Z.ltb_spec (target_addr / 4) (2 ^ 26)); [|lia]. simpl.
    change 0x3FFFFFF with (Z.ones 26). rewrite Z.land_ones by lia.
    rewrite Z.mod_small by exact Hq.
    rewrite Z.shiftl_mul_pow2 by lia.
    rewrite lor_shifted by lia. reflexivity.
  - set (w := opcode * 2 ^ 26 + target_addr / 4).
    assert (Z.land (Z.shiftr w 26) 0x3F = opcode) as Hop
      by (subst w; read_field).
    assert (Z.land w 0x3FFFFFF = target_addr / 4) as Ht26
      by (subst w; read_field).
    unfold CPU.decode_instruction. rewrite Hop, Ht26.
    simpl in Hin. destruct Hin as [<-|[<-|[]]]; reflexivity.
  - intros p Hp. unfold jump_target.
    rewrite land_region_low by exact Hp. rewrite Z.lor_0_l.
    rewrite Z.shiftl_mul_pow2 by lia. change (2 ^ 2) with 4.
    Z.div_mod_to_equations. lia.
Qed.

Lemma jump_reaches_label_witness :
  exists w,
    InstructionParser._parse_j_type 0x02 8 = Some w /\
    CPU.decode_instruction w (CPU.reset MemoryBus.init) =
      Ok (CPU.JType 0x02 (8 / 4)) (CPU.reset MemoryBus.init) /\
    forall p, 0 <= p < 2 ^ 28 -> jump_target p (8 / 4) = 8.
Proof.
  apply (jump_reaches_label (CPU.reset MemoryBus.init) 0x02 8).
  - simpl. auto.
  - lia.
  - reflexivity.
Defined.

(** X5: BNE and BEQ to a label.  For word-aligned addresses of the branch
    and of the label, with the label within the 16-bit word offset and in
    [0, 2^32), the assembler yields an immediate from which a taken
    branch at that PC records exactly the label address as its target. *)
Theorem branch_reaches_label :
  forall (s : CPU.t) (target_addr current_address : Z),
    CPU.pc s = Some current_address ->
    current_address mod 4 = 0 -> target_addr mod 4 = 0 ->
    0 <= target_addr < 2 ^ 32 ->
    -32768 <= (target_addr - (current_address + 4)) / 4 <= 32767 ->
    exists immediate,
      InstructionParser.branch_immediate target_addr current_address =
        Some immediate /\
      CPU.take_branch (CPU.sign_extend immediate) s =
        Ok tt (CPU.set_branch_taken true
                 (CPU.set_branch_target (Some target_addr) s)).
Proof.
  intros s target_addr current_address Hpc Hc Ht Hrange Hoff.
  set (offset := (target_addr - (current_address + 4)) / 4) in *.
  exists (offset mod 2 ^ 16). split.
  - unfold InstructionParser.branch_immediate.
    rewrite Z.shiftr_div_pow2 by lia. change (2 ^ 2) with 4. fold offset.
    destruct (Z.leb_spec (-32768) offset); [|lia].
    destruct (Z.leb_spec offset 32767); [|lia]. simpl.
    change 0xFFFF with (Z.ones 16). rewrite Z.land_ones by lia. reflexivity.
  - unfold CPU.take_branch.
    rewrite sign_extend_idempotent.
    rewrite sign_extend_signed16 by (apply Z.mod_pos_bound; lia).
    rewrite signed16_mod by exact Hoff.
    rewrite (bind_Ok _ _ _ _ _ (get_pc_Ok _ _ Hpc)).
    rewrite Z.shiftl_mul_pow2 by lia. change (2 ^ 2) with 4.
    replace (current_address + 4 + offset * 4) with target_addr
      by (subst offset; Z.div_mod_to_equations; lia).
    rewrite land_mask32, Z.mod_small by exact Hrange.
    reflexivity.
Qed.

Lemma branch_reaches_label_witness :
  exists immediate,
    InstructionParser.branch_immediate 0 8 = Some immediate /\
    CPU.take_branch (CPU.sign_extend immediate)
      (CPU.set_pc (Some 8) (CPU.reset MemoryBus.init)) =
      Ok tt (CPU.set_branch_taken true
               (CPU.set_branch_target (Some 0)
                  (CPU.set_pc (Some 8) (CPU.reset MemoryBus.init)))).
Proof.
  apply (branch_reaches_label
           (CPU.set_pc (Some 8) (CPU.reset MemoryBus.init)) 0 8).
  - reflexivity.
  - reflexivity.
  - reflexivity.
  - lia.
  - vm_compute. split; discriminate.
Defined.



(** ** The execute step *)

Lemma insert_zero_id (regs : list Z) :
  Py.getitem regs 0 = Some 0 -> <[0%nat := 0]> regs = regs.
Proof.
  intros H. apply list_insert_id.
  unfold Py.getitem in H.
  destruct (Py.index _ 0) as [n|] eqn:E; [|discriminate].
  apply index_zero in E. subst n. exact H.
Qed.

Lemma set_registers_same (s : CPU.t) : CPU.set_registers (CPU.registers s) s = s.
Proof. destruct s; reflexivity. Qed.

(** X7: ADDI stores [(rs + sign_extend(imm)) mod 2^32] in [rt], a value in
    [0, 2^32), then forces register 0 to 0; no other register, nor the
    PC, the bus or the flags change. *)
Theorem addi_wraps_modulo_32_bits :
  forall (s : CPU.t) (rs rt imm16 a : Z),
    well_formed s ->
    0 <= rs < 32 -> 0 <= rt < 32 -> 0 <= imm16 < 2 ^ 16 ->
    Py.getitem (CPU.registers s) rs = Some a ->
    let result := (a + signed16 imm16) mod 2 ^ 32 in
    CPU._execute_i_type (CPU.IType 0x08 rs rt (CPU.sign_extend imm16)) s =
      Ok tt (CPU.set_registers
               (<[0%nat := 0]> (<[Z.to_nat rt := result]> (CPU.registers s))) s) /\
    0 <= result < 2 ^ 32.
Proof.
  intros s rs rt imm16 a Hwf Hrs Hrt Himm Ha result. unfold well_formed in Hwf.
  split; [|apply Z.mod_pos_bound; lia].
  unfold CPU._execute_i_type.
  simpl CPU.key_rs. simpl CPU.key_rt. simpl CPU.key_immediate.
  simpl CPU.key_opcode. unfold orraise.
  unfold bind at 1. unfold ret at 1.
  rewrite (bind_Ok _ _ _ _ _ (get_reg_Ok _ _ _ Ha)).
  unfold bind at 1. unfold ret at 1.
  unfold bind at 1. unfold ret at 1.
  change (CPU.mem_of 0x08 [0x08; 0x23; 0x2B]) with true. cbv iota.
  change (0x08 =? 0x08) with true. cbv iota.
  rewrite sign_extend_idempotent, sign_extend_signed16 by exact Himm.
  rewrite land_mask32. fold result.
  erewrite bind_Ok by (apply set_reg_Ok; rewrite Hwf; lia).
  rewrite set_reg_Ok by (simpl; rewrite length_insert, Hwf; lia).
  reflexivity.
Qed.

Lemma addi_wraps_modulo_32_bits_witness :
  CPU._execute_i_type (CPU.IType 0x08 29 8 (CPU.sign_extend 0x7FFF))
    (CPU.reset MemoryBus.init) =
    Ok tt (CPU.set_registers
             (<[0%nat := 0]>
                (<[Z.to_nat 8 := (0x7FFFFFFF + signed16 0x7FFF) mod 2 ^ 32]>
                   (CPU.registers (CPU.reset MemoryBus.init))))
             (CPU.reset MemoryBus.init)) /\
  0 <= (0x7FFFFFFF + signed16 0x7FFF) mod 2 ^ 32 < 2 ^ 32.
Proof.
  apply (addi_wraps_modulo_32_bits (CPU.reset MemoryBus.init) 29 8 0x7FFF).
  - reflexivity.
  - lia.
  - lia.
  - lia.
  - reflexivity.
Defined.

(** X8: an R-type instruction whose function code is none of ADD, SUB and
    SLT is not an error: once its source registers are read, the execute
    step returns, and with register 0 at 0 it leaves the CPU exactly as
    it was. *)
Theorem unknown_funct_is_ignored :
  forall (s : CPU.t) (rs rt rd shamt funct : Z),
    well_formed s -> reg0_is_zero s ->
    0 <= rs < 32 -> 0 <= rt < 32 ->
    unknown_funct funct ->
    CPU._execute_r_type (CPU.RType 0 rs rt rd shamt funct) s = Ok tt s.
Proof.
  intros s rs rt rd shamt funct Hwf H0 Hrs Hrt (H20 & H22 & H2A).
  unfold well_formed in Hwf.
  destruct (lookup_lt_is_Some_2 (CPU.registers s) (Z.to_nat rs) ltac:(lia))
    as [a Ha].
  destruct (lookup_lt_is_Some_2 (CPU.registers s) (Z.to_nat rt) ltac:(lia))
    as [b Hb].
  rewrite <- getitem_nonneg in Ha by lia.
  rewrite <- getitem_nonneg in Hb by lia.
  unfold CPU._execute_r_type. simpl CPU.key_funct. simpl CPU.key_rs.
  simpl CPU.key_rt. simpl CPU.key_rd. unfold orraise.
  unfold bind at 1. unfold ret at 1.
  unfold bind at 1. unfold ret at 1.
  rewrite (bind_Ok _ _ _ _ _ (get_reg_Ok _ _ _ Ha)).
  unfold bind at 1. unfold ret at 1.
  rewrite (bind_Ok _ _ _ _ _ (get_reg_Ok _ _ _ Hb)).
  unfold bind at 1. unfold ret at 1.
  destruct (Z.eqb_spec funct 0x20); [contradiction|].
  destruct (Z.eqb_spec funct 0x22); [contradiction|].
  destruct (Z.eqb_spec funct 0x2A); [contradiction|].
  unfold bind at 1. unfold ret at 1.
  rewrite set_reg_Ok by lia. simpl Z.to_nat.
  rewrite insert_zero_id by exact H0. rewrite set_registers_same. reflexivity.
Qed.

Lemma unknown_funct_is_ignored_witness :
  CPU._execute_r_type (CPU.RType 0 8 9 10 0 0x24) (CPU.reset MemoryBus.init) =
    Ok tt (CPU.reset MemoryBus.init).
Proof.
  apply unknown_funct_is_ignored.
  - reflexivity.
  - reflexivity.
  - lia.
  - lia.
  - repeat split; discriminate.
Defined.

Lemma on_bus_Ok {A} (c : M MemoryBus.t A) (s : CPU.t) (a : A) (b' : MemoryBus.t) :
  c (CPU.memory_bus s) = Ok a b' ->
  CPU.on_bus c s = Ok a (CPU.set_memory_bus b' s).
Proof. intros H. unfold CPU.on_bus, zoom. rewrite H. reflexivity. Qed.

(** X9: a store followed by a load.  SW of a register holding a value in
    [0, 2^32) to an address whose word lies inside the memory returns
    and changes no register; LW from the same base and offset then
    leaves that value in its destination register. *)
Theorem store_then_load :
  forall (s : CPU.t) (rs rt rt2 imm16 a v : Z),
    well_formed s -> reg0_is_zero s ->
    0 <= rs < 32 -> 0 <= rt < 32 -> 0 < rt2 < 32 ->
    0 <= imm16 < 2 ^ 16 ->
    Py.getitem (CPU.registers s) rs = Some a ->
    Py.getitem (CPU.registers s) rt = Some v ->
    0 <= v < 2 ^ 32 ->
    (a + signed16 imm16) mod 2 ^ 32 + 4 <= MemoryBus.MEMORY_SIZE ->
    exists s1 s2,
      CPU._execute_i_type (CPU.IType 0x2B rs rt (CPU.sign_extend imm16)) s =
        Ok tt s1 /\
      CPU.registers s1 = CPU.registers s /\
      CPU._execute_i_type (CPU.IType 0x23 rs rt2 (CPU.sign_extend imm16)) s1 =
        Ok tt s2 /\
      Py.getitem (CPU.registers s2) rt2 = Some v.
Proof.
  intros s rs rt rt2 imm16 a v Hwf H0 Hrs Hrt Hrt2 Himm Ha Hv Hvr Hfit.
  unfold well_formed in Hwf.
  set (addr := (a + signed16 imm16) mod 2 ^ 32) in *.
  assert (0 <= addr) as Haddr by (apply Z.mod_pos_bound; lia).
  destruct (bus_write_allocates (CPU.memory_bus s) addr v Haddr Hfit Hvr)
    as (b' & Hw & _ & _ & _ & Hr).
  set (s1 := CPU.set_memory_bus b' s).
  exists s1. eexists. split; [|split; [reflexivity|split]].
  - unfold CPU._execute_i_type.
    simpl CPU.key_rs. simpl CPU.key_rt. simpl CPU.key_immediate.
    simpl CPU.key_opcode. unfold orraise.
    unfold bind at 1. unfold ret at 1.
    rewrite (bind_Ok _ _ _ _ _ (get_reg_Ok _ _ _ Ha)).
    unfold bind at 1. unfold ret at 1.
    unfold bind at 1. unfold ret at 1.
    change (CPU.mem_of 0x2B [0x08; 0x23; 0x2B]) with true. cbv iota.
    change (0x2B =? 0x08) with false. change (0x2B =? 0x23) with false.
    change (0x2B =? 0x2B) with true. cbv iota.
    rewrite sign_extend_idempotent, sign_extend_signed16 by exact Himm.
    rewrite land_mask32. fold addr.
    destruct (Z.leb_spec MemoryBus.MEMORY_SIZE addr); [lia|].
    erewrite bind_Ok.
    2:{ rewrite (bind_Ok _ _ _ _ _ (get_reg_Ok _ _ _ Hv)).
        apply on_bus_Ok. exact Hw. }
    fold s1. rewrite set_reg_Ok by (simpl; lia). simpl Z.to_nat.
    simpl CPU.registers. rewrite insert_zero_id by exact H0.
    change (CPU.registers s) with (CPU.registers s1).
    rewrite set_registers_same. reflexivity.
  - unfold CPU._execute_i_type.
    simpl CPU.key_rs. simpl CPU.key_rt. simpl CPU.key_immediate.
    simpl CPU.key_opcode. unfold orraise.
    unfold bind at 1. unfold ret at 1.
    rewrite (bind_Ok _ _ _ _ _ (get_reg_Ok s1 _ _ Ha)).
    unfold bind at 1. unfold ret at 1.
    unfold bind at 1. unfold ret at 1.
    change (CPU.mem_of 0x23 [0x08; 0x23; 0x2B]) with true. cbv iota.
    change (0x23 =? 0x08) with false. change (0x23 =? 0x23) with true.
    cbv iota.
    rewrite sign_extend_idempotent, sign_extend_signed16 by exact Himm.
    rewrite land_mask32. fold addr.
    destruct (Z.leb_spec MemoryBus.MEMORY_SIZE addr); [lia|].
    erewrite bind_Ok.
    2:{ erewrite bind_Ok by (apply on_bus_Ok; exact Hr).
        apply set_reg_Ok. simpl. lia. }
    rewrite set_reg_Ok by (simpl; rewrite length_insert; lia).
    reflexivity.
  - simpl CPU.registers.
    rewrite getitem_nonneg by (rewrite !length_insert; lia).
    rewrite list_lookup_insert_ne by lia.
    apply list_lookup_insert_eq. lia.
Qed.

Lemma store_then_load_witness :
  exists s1 s2,
    CPU._execute_i_type (CPU.IType 0x2B 0 29 (CPU.sign_extend 16))
      (CPU.reset MemoryBus.init) = Ok tt s1 /\
    CPU.registers s1 = CPU.registers (CPU.reset MemoryBus.init) /\
    CPU._execute_i_type (CPU.IType 0x23 0 8 (CPU.sign_extend 16)) s1 =
      Ok tt s2 /\
    Py.getitem (CPU.registers s2) 8 = Some 0x7FFFFFFF.
Proof.
  apply (store_then_load (CPU.reset MemoryBus.init) 0 29 8 16 0 0x7FFFFFFF).
  - reflexivity.
  - reflexivity.
  - lia.
  - lia.
  - lia.
  - lia.
  - reflexivity.
  - reflexivity.
  - lia.
  - vm_compute. discriminate.
Defined.

(** ** What [run] keeps *)

Lemma hoare_conj {S A} (P1 P2 : S -> Prop) (c : M S A)
    (Q1 Q2 : A -> S -> Prop) (E1 E2 : exn -> S -> Prop) :
  hoare P1 c Q1 E1 -> hoare P2 c Q2 E2 ->
  hoare (fun s => P1 s /\ P2 s) c
    (fun a s => Q1 a s /\ Q2 a s) (fun e s => E1 e s /\ E2 e s).
Proof.
  intros H1 H2 s [Hp1 Hp2]. specialize (H1 s Hp1). specialize (H2 s Hp2).
  destruct (c s); split; assumption.
Qed.

(** [update_pc] and a fetch never touch the register file. *)
Lemma hoare_update_pc_registers (P : CPU.t -> Prop) :
  registers_only P ->
  hoare P CPU.update_pc (fun _ => P) (fun _ => P).
Proof.
  intros HP s Hs. unfold CPU.update_pc, CPU.get_pc.
  unfold bind, gets, orraise, modify, ret, raise.
  destruct (CPU.branch_taken s); simpl.
  - destruct (CPU.branch_target s) as [t|]; simpl;
      [destruct (_ <=? _)|]; simpl; (eapply HP; [|exact Hs]); reflexivity.
  - destruct (CPU.pc s) as [p|]; simpl;
      [destruct (_ <=? _)|]; simpl; (eapply HP; [|exact Hs]); reflexivity.
Qed.

Lemma hoare_on_bus_registers {A} (P : CPU.t -> Prop) (c : M MemoryBus.t A) :
  registers_only P ->
  hoare P (CPU.on_bus c) (fun _ => P) (fun _ => P).
Proof.
  intros HP. apply hoare_zoom_frame. intros t s Hs.
  eapply HP; [|exact Hs]. reflexivity.
Qed.

Lemma reg0_registers_only : registers_only reg0_is_zero.
Proof. intros s s' H. unfold reg0_is_zero. rewrite H. auto. Qed.

Lemma well_formed_registers_only : registers_only well_formed.
Proof. intros s s' H. unfold well_formed. rewrite H. auto. Qed.

Lemma hoare_set_reg_well_formed (i v : Z) :
  hoare well_formed (CPU.set_reg i v)
    (fun _ => well_formed) (fun _ => well_formed).
Proof.
  intros s H. destruct (set_reg_cases s i v) as [[-> _]|(regs' & Hset & ->)].
  - exact H.
  - unfold well_formed. simpl. rewrite (setitem_length _ _ _ _ Hset). exact H.
Qed.

Lemma hoare_take_branch_registers (P : CPU.t -> Prop) (immediate : Z) :
  registers_only P ->
  hoare P (CPU.take_branch immediate) (fun _ => P) (fun _ => P).
Proof.
  intros HP s Hs. unfold CPU.take_branch, CPU.get_pc.
  unfold bind, gets, orraise, modify, ret, raise.
  destruct (CPU.pc s); simpl; (eapply HP; [|exact Hs]); reflexivity.
Qed.

Lemma hoare_jump_to_registers (P : CPU.t -> Prop) (target_addr : Z) :
  registers_only P ->
  hoare P (CPU.jump_to target_addr) (fun _ => P) (fun _ => P).
Proof.
  intros HP s Hs. unfold CPU.jump_to, CPU.get_pc.
  unfold bind, gets, orraise, modify, ret, raise.
  destruct (CPU.pc s); simpl; [destruct (_ <=? _)|]; simpl;
    (eapply HP; [|exact Hs]); reflexivity.
Qed.

Ltac peel_wf :=
  repeat match goal with
         | |- hoare _ (bind _ _) _ _ =>
             eapply hoare_bind;
             [ first [ apply hoare_orraise_frame | apply hoare_get_reg
                     | apply hoare_get_pc
                     | apply (hoare_on_bus_registers _ _
                                well_formed_registers_only)
                     | apply hoare_set_reg_well_formed ]
             | intros ? ]
         end.

Ltac close_wf :=
  first [ apply hoare_set_reg_well_formed
        | apply (hoare_on_bus_registers _ _ well_formed_registers_only)
        | apply (hoare_take_branch_registers _ _ well_formed_registers_only)
        | apply (hoare_jump_to_registers _ _ well_formed_registers_only)
        | apply hoare_raise; auto | apply hoare_ret; auto ].

Lemma hoare_execute_well_formed (d : CPU.decoded) :
  hoare well_formed (CPU._execute_r_type d)
    (fun _ => well_formed) (fun _ => well_formed) /\
  hoare well_formed (CPU._execute_i_type d)
    (fun _ => well_formed) (fun _ => well_formed) /\
  hoare well_formed (CPU._execute_j_type d)
    (fun _ => well_formed) (fun _ => well_formed).
Proof.
  split; [|split].
  - unfold CPU._execute_r_type. peel_wf.
    eapply hoare_bind with (Q := fun _ => well_formed);
      [|intros []; apply hoare_set_reg_well_formed].
    split_ifs; close_wf.
  - unfold CPU._execute_i_type. peel_wf.
    eapply hoare_bind with (Q := fun _ => well_formed);
      [|intros []; apply hoare_set_reg_well_formed].
    split_ifs; peel_wf; split_ifs; close_wf.
  - unfold CPU._execute_j_type. peel_wf. split_ifs; peel_wf; close_wf.
Qed.

(** The body of the loop keeps 32 registers and register 0 at 0, returned
    or raised. *)
Lemma hoare_run_body_registers :
  hoare (fun s => well_formed s /\ reg0_is_zero s) CPU.run_body
    (fun _ s => well_formed s /\ reg0_is_zero s)
    (fun _ s => well_formed s /\ reg0_is_zero s).
Proof.
  pose proof well_formed_registers_only as Hw.
  pose proof reg0_registers_only as H0.
  unfold CPU.run_body.
  eapply hoare_bind; [apply hoare_get_pc|]. intros p.
  eapply hoare_bind;
    [apply hoare_conj; apply hoare_on_bus_registers; assumption|]. intros w.
  eapply hoare_bind; [apply hoare_decode_frame|]. intros d.
  destruct (hoare_execute_well_formed d) as (Hr & Hi & Hj).
  split_ifs.
  - eapply hoare_bind;
      [exact (hoare_conj _ _ _ _ _ _ _ Hr (hoare_execute_r_type_reg0 d))|].
    intros [].
    eapply hoare_bind;
      [apply hoare_conj; apply hoare_update_pc_registers; assumption|].
    intros []. apply hoare_ret. auto.
  - eapply hoare_bind;
      [exact (hoare_conj _ _ _ _ _ _ _ Hi (hoare_execute_i_type_reg0 d))|].
    intros [].
    eapply hoare_bind;
      [apply hoare_conj; apply hoare_update_pc_registers; assumption|].
    intros []. apply hoare_ret. auto.
  - eapply hoare_bind;
      [exact (hoare_conj _ _ _ _ _ _ _ Hj (hoare_execute_j_type_reg0 d))|].
    intros [].
    eapply hoare_bind;
      [apply hoare_conj; apply hoare_update_pc_registers; assumption|].
    intros []. apply hoare_ret. auto.
  - eapply hoare_bind with (Q := fun _ s => well_formed s /\ reg0_is_zero s).
    + apply hoare_modify. auto.
    + intros []. apply hoare_ret. auto.
  - apply hoare_raise. auto.
Qed.

Lemma run_keeps_registers (fuel : nat) :
  forall s : CPU.t,
    well_formed s -> reg0_is_zero s ->
    on_return (fun s' => well_formed s' /\ reg0_is_zero s') (CPU.run fuel s).
Proof.
  induction fuel as [|fuel IH]; intros s Hw H0; simpl.
  - destruct (CPU.halted s); simpl; auto.
  - destruct (CPU.halted s); simpl; [auto|].
    pose proof (hoare_run_body_registers s (conj Hw H0)) as Hb.
    unfold CPU.run_iteration.
    destruct (CPU.run_body s) as [[|] s'|e s'].
    + exact Hb.
    + apply IH; apply Hb.
    + destruct (isinstance_Exception e); [|exact I].
      destruct (CPU.pc s'); [exact Hb | exact I].
Qed.

(** X10: whatever program is loaded and however [run] ends (HALT or a
    fault), when it returns the register file still has its 32 slots and
    register 0 reads 0. *)
Theorem run_returns_with_32_registers :
  forall (bus : MemoryBus.t) (fuel : nat),
    on_return (fun s' => length (CPU.registers s') = 32%nat /\
                         Py.getitem (CPU.registers s') 0 = Some 0)
      (CPU.run fuel (CPU.reset bus)).
Proof.
  intros bus fuel. apply run_keeps_registers; reflexivity.
Qed.

(** ** The program counter *)

Lemma hoare_any_exn {S A} (P : S -> Prop) (c : M S A)
    (Q : A -> S -> Prop) (E : exn -> S -> Prop) :
  hoare P c Q E -> hoare P c Q (fun _ _ => True).
Proof. intros H s Hs. specialize (H s Hs). destruct (c s); auto. Qed.

Lemma jump_target_aligned (p target26 : Z) : jump_target p target26 mod 4 = 0.
Proof.
  unfold jump_target. change 4 with (2 ^ 2).
  rewrite <- Z.land_ones by lia.
  rewrite Z.land_lor_distr_l.
  rewrite <- Z.land_assoc. change (Z.land 0xF0000000 (Z.ones 2)) with 0.
  rewrite Z.land_0_r, Z.lor_0_l.
  rewrite Z.land_ones by lia. rewrite Z.shiftl_mul_pow2 by lia.
  apply Z.mod_mul. lia.
Qed.

Lemma mask32_aligned (x : Z) :
  x mod 4 = 0 ->
  0 <= Z.land x 0xFFFFFFFF /\ Z.land x 0xFFFFFFFF mod 4 = 0.
Proof.
  intros H. rewrite land_mask32. Z.div_mod_to_equations. lia.
Qed.

Lemma hoare_set_reg_within (i v : Z) :
  hoare within_instruction (CPU.set_reg i v)
    (fun _ => within_instruction) (fun _ => within_instruction).
Proof.
  intros s H. destruct (set_reg_cases s i v) as [[-> _]|(regs' & _ & ->)];
    exact H.
Qed.

Lemma hoare_on_bus_within {A} (c : M MemoryBus.t A) :
  hoare within_instruction (CPU.on_bus c)
    (fun _ => within_instruction) (fun _ => within_instruction).
Proof. apply hoare_zoom_frame. intros t s H. exact H. Qed.

Lemma hoare_take_branch_within (immediate : Z) :
  hoare within_instruction (CPU.take_branch immediate)
    (fun _ => within_instruction) (fun _ => within_instruction).
Proof.
  intros s [(q & Hq & Hal) Hbt]. unfold CPU.take_branch, CPU.get_pc.
  unfold bind, gets, orraise, modify, ret, raise. rewrite Hq. simpl.
  split; simpl.
  - eauto.
  - intros _. eexists. split; [reflexivity|].
    apply mask32_aligned. rewrite Z.shiftl_mul_pow2 by lia.
    Z.div_mod_to_equations. lia.
Qed.

Lemma hoare_jump_to_within (target_addr : Z) :
  hoare within_instruction (CPU.jump_to target_addr)
    (fun _ => within_instruction) (fun _ => within_instruction).
Proof.
  intros s [(q & Hq & Hal) Hbt]. unfold CPU.jump_to, CPU.get_pc.
  unfold bind, gets, orraise, modify, ret, raise. rewrite Hq. simpl.
  fold (jump_target q target_addr).
  destruct (_ <=? _); simpl.
  - split; eauto.
  - split; simpl; [|exact Hbt]. eexists. split; [reflexivity|].
    pose proof (jump_target_aligned q target_addr).
    Z.div_mod_to_equations. lia.
Qed.

Ltac peel_within :=
  repeat match goal with
         | |- hoare _ (bind _ _) _ _ =>
             eapply hoare_bind;
             [ first [ apply hoare_orraise_frame | apply hoare_get_reg
                     | apply hoare_get_pc | apply hoare_on_bus_within
                     | apply hoare_set_reg_within ]
             | intros ? ]
         end.

Ltac close_within :=
  first [ apply hoare_set_reg_within | apply hoare_on_bus_within
        | apply hoare_take_branch_within | apply hoare_jump_to_within
        | apply hoare_raise; auto | apply hoare_ret; auto ].

Lemma hoare_execute_within (d : CPU.decoded) :
  hoare within_instruction (CPU._execute_r_type d)
    (fun _ => within_instruction) (fun _ _ => True) /\
  hoare within_instruction (CPU._execute_i_type d)
    (fun _ => within_instruction) (fun _ _ => True) /\
  hoare within_instruction (CPU._execute_j_type d)
    (fun _ => within_instruction) (fun _ _ => True).
Proof.
  split; [|split];
    apply (hoare_any_exn _ _ _ (fun _ => within_instruction)).
  - unfold CPU._execute_r_type. peel_within.
    eapply hoare_bind with (Q := fun _ => within_instruction);
      [|intros []; apply hoare_set_reg_within].
    split_ifs; close_within.
  - unfold CPU._execute_i_type. peel_within.
    eapply hoare_bind with (Q := fun _ => within_instruction);
      [|intros []; apply hoare_set_reg_within].
    split_ifs; peel_within; split_ifs; close_within.
  - unfold CPU._execute_j_type. peel_within. split_ifs; peel_within; close_within.
Qed.

(** When [update_pc] returns, the CPU is between two instructions. *)
Lemma hoare_update_pc_between :
  hoare within_instruction CPU.update_pc
    (fun _ => between_instructions) (fun _ _ => True).
Proof.
  intros s [(q & Hq & Hal) Hbt]. unfold CPU.update_pc, CPU.get_pc.
  unfold bind, gets, orraise, modify, ret, raise.
  destruct (CPU.branch_taken s) eqn:Et; simpl.
  - destruct (Hbt eq_refl) as (t & Ht & Ht0 & Htal). rewrite Ht. simpl.
    destruct (Z.leb_spec MemoryBus.MEMORY_SIZE t); simpl; [exact I|].
    split; [|reflexivity]. exists t. simpl. auto.
  - rewrite Hq. simpl.
    assert ((q + 4) mod 4 = 0) as Hal4 by (Z.div_mod_to_equations; lia).
    destruct (mask32_aligned (q + 4) Hal4) as [Hnn Hm].
    destruct (Z.leb_spec MemoryBus.MEMORY_SIZE (Z.land (q + 4) 0xFFFFFFFF));
      simpl; [exact I|].
    split; [|exact Et]. eexists. simpl. split; [reflexivity|]. auto.
Qed.

Lemma between_within (s : CPU.t) :
  between_instructions s -> within_instruction s.
Proof.
  intros [(p & Hp & _ & Hal) Hbt]. split; [eauto|].
  rewrite Hbt. discriminate.
Qed.

(** X11: the program counter between instructions.  [reset] leaves the PC
    word-aligned inside the memory with no branch pending, and every trip
    of the loop of [run] that goes on to a next instruction (no HALT, no
    fault) leaves it so: every fetch of a run is at a word-aligned
    address below [MEMORY_SIZE]. *)
Theorem pc_stays_aligned_in_memory :
  (forall bus : MemoryBus.t, between_instructions (CPU.reset bus)) /\
  (forall s s' : CPU.t,
     between_instructions s ->
     CPU.run_iteration s = CPU.Continue s' ->
     between_instructions s').
Proof.
  split.
  - intros bus. split; [|reflexivity]. exists 0. simpl.
    split; [reflexivity|]. split; [unfold MemoryBus.MEMORY_SIZE; lia|reflexivity].
  - intros s s' Hs Hit.
    assert (hoare within_instruction CPU.run_body
              (fun brk s1 => brk = false -> between_instructions s1)
              (fun _ _ => True)) as Hbody.
    { unfold CPU.run_body.
      eapply hoare_bind;
        [apply (hoare_any_exn _ _ _ _ (hoare_get_pc within_instruction))|].
      intros p.
      eapply hoare_bind;
        [apply (hoare_any_exn _ _ _ _
                  (hoare_on_bus_within (MemoryBus.read_word p)))|].
      intros w.
      eapply hoare_bind;
        [apply (hoare_any_exn _ _ _ _
                  (hoare_decode_frame within_instruction w))|].
      intros d.
      destruct (hoare_execute_within d) as (Hr & Hi & Hj).
      split_ifs.
      - eapply hoare_bind; [exact Hr|]. intros [].
        eapply hoare_bind; [apply hoare_update_pc_between|]. intros [].
        apply hoare_ret. auto.
      - eapply hoare_bind; [exact Hi|]. intros [].
        eapply hoare_bind; [apply hoare_update_pc_between|]. intros [].
        apply hoare_ret. auto.
      - eapply hoare_bind; [exact Hj|]. intros [].
        eapply hoare_bind; [apply hoare_update_pc_between|]. intros [].
        apply hoare_ret. auto.
      - eapply hoare_bind with (Q := fun _ _ => True);
          [apply hoare_modify; auto|].
        intros []. apply hoare_ret. intros ? _. discriminate.
      - apply hoare_raise. auto. }
    specialize (Hbody s (between_within s Hs)).
    unfold CPU.run_iteration in Hit.
    destruct (CPU.run_body s) as [[|] s1|e s1].
    + discriminate Hit.
    + injection Hit as <-. apply Hbody. reflexivity.
    + destruct (isinstance_Exception e); [destruct (CPU.pc s1)|];
        discriminate Hit.
Qed.

Lemma continues_Continue (t : CPU.trip) :
  continues t = true -> t = CPU.Continue (trip_state t).
Proof. destruct t; simpl; congruence. Qed.

Lemma pc_stays_aligned_in_memory_witness :
  between_instructions (trip_state (CPU.run_iteration addi_state)).
Proof.
  apply (proj2 pc_stays_aligned_in_memory addi_state).
  - apply (proj1 pc_stays_aligned_in_memory).
  - apply continues_Continue. reflexivity.
Defined.

(** ** HALT *)

(** X12: when the word fetched at the PC has opcode 0x3F, [run] sets
    [halted] and returns at once: the PC still points at the HALT
    instruction ([update_pc] is not called) and no register changes. *)
Theorem halt_stops_at_the_instruction :
  forall (s : CPU.t) (p w : Z) (bus' : MemoryBus.t) (fuel : nat),
    CPU.halted s = false ->
    CPU.pc s = Some p ->
    MemoryBus.read_word p (CPU.memory_bus s) = Ok w bus' ->
    opcode_field w = 0x3F ->
    CPU.run (S fuel) s =
      Some (CPU.Returned (CPU.set_halted true (CPU.set_memory_bus bus' s))).
Proof.
  intros s p w bus' fuel Hrun Hpc Hfetch Hop.
  assert (CPU.run_body s = Ok true (CPU.set_halted true (CPU.set_memory_bus bus' s)))
    as Hbody.
  { unfold CPU.run_body.
    rewrite (bind_Ok _ _ _ _ _ (get_pc_Ok _ _ Hpc)).
    rewrite (bind_Ok _ _ _ _ _ (on_bus_Ok _ _ _ _ Hfetch)).
    assert (CPU.decode_instruction w (CPU.set_memory_bus bus' s) =
            Ok (CPU.Halt 0x3F) (CPU.set_memory_bus bus' s)) as Hdec.
    { unfold CPU.decode_instruction. unfold opcode_field in Hop.
      rewrite Hop. reflexivity. }
    rewrite (bind_Ok _ _ _ _ _ Hdec). reflexivity. }
  simpl. rewrite Hrun. unfold CPU.run_iteration. rewrite Hbody. reflexivity.
Qed.

Lemma halt_stops_at_the_instruction_witness :
  CPU.run 1 halt_state = Some (CPU.Returned (CPU.set_halted true halt_fetched)).
Proof.
  apply (halt_stops_at_the_instruction halt_state 0 0xFC000000
           (CPU.memory_bus halt_fetched) 0%nat).
  - reflexivity.
  - reflexivity.
  - reflexivity.
  - reflexivity.
Defined.

(** ** Words and bytes *)

Lemma to_bytes4_big_endian (v : Z) :
  0 <= v < 2 ^ 32 -> Py.to_bytes4 v = Some (big_endian v).
Proof.
  intros H. unfold Py.to_bytes4.
  destruct (Z.leb_spec 0 v); [|lia].
  destruct (Z.ltb_spec v (2 ^ 32)); [|lia]. simpl andb. cbv iota.
  unfold big_endian. change 255 with (Z.ones 8).
  rewrite !field_of_word by lia. rewrite Z.land_ones by lia.
  reflexivity.
Qed.

Lemma from_bytes_big_endian (v : Z) :
  0 <= v < 2 ^ 32 -> Py.from_bytes (big_endian v) = v.
Proof.
  intros H. unfold Py.from_bytes, big_endian. simpl fold_left.
  Z.div_mod_to_equations. lia.
Qed.

(** ** The memory bus: memory *)

(** X13: a word write inside the memory stores the four bytes of the
    value most significant first: [dump_memory] shows them, the word in
    memory at that address is the value, and the size of the memory does
    not change. *)
Theorem write_word_stores_big_endian :
  forall (b : MemoryBus.t) (address value : Z),
    memory_sized b ->
    0 <= address -> address + 4 <= MemoryBus.MEMORY_SIZE ->
    0 <= value < 2 ^ 32 ->
    exists b',
      MemoryBus.write_word address value b = Ok tt b' /\
      MemoryBus.dump_memory address 4 b' = Ok (big_endian value) b' /\
      memory_word b' address = value /\
      memory_sized b' /\
      MemoryBus.writes b' = MemoryBus.writes b + 1.
Proof.
  intros b address value Hsz H0 Hfit Hv. unfold memory_sized in *.
  pose proof io_base_above_memory as Hio.
  eexists. split.
  { apply (bus_write_word_memory b address value (big_endian value));
      [lia | lia | apply to_bytes4_big_endian; exact Hv]. }
  assert (Py.slice
            (Py.slice_assign (MemoryBus.memory b) address (address + 4)
               (big_endian value)) address (address + 4) = big_endian value)
    as Hslice.
  { change 4 with (Z.of_nat (length (big_endian value))).
    apply slice_slice_assign; simpl length; lia. }
  split; [|split; [|split]].
  - unfold MemoryBus.dump_memory.
    destruct (Z.ltb_spec MemoryBus.MEMORY_SIZE (address + 4)); [lia|].
    unfold bind, gets, ret. simpl MemoryBus.memory. rewrite Hslice. reflexivity.
  - unfold memory_word. simpl MemoryBus.memory. rewrite Hslice.
    apply from_bytes_big_endian. exact Hv.
  - simpl MemoryBus.memory.
    change 4 with (Z.of_nat (length (big_endian value))).
    rewrite slice_assign_length by (simpl length; lia). exact Hsz.
  - reflexivity.
Qed.

Lemma write_word_stores_big_endian_witness :
  exists b',
    MemoryBus.write_word 16 0x11223344 MemoryBus.init = Ok tt b' /\
    MemoryBus.dump_memory 16 4 b' = Ok (big_endian 0x11223344) b' /\
    memory_word b' 16 = 0x11223344 /\
    memory_sized b' /\
    MemoryBus.writes b' = MemoryBus.writes MemoryBus.init + 1.
Proof.
  apply write_word_stores_big_endian.
  - exact init_memory_length.
  - lia.
  - unfold MemoryBus.MEMORY_SIZE. lia.
  - lia.
Defined.

(** X14: the two write entry points at the edge of the memory.  From
    address 0 up [write] and [write_word] do the same; for a negative
    address [write] raises [MemoryError] and changes nothing, while
    [write_word] lets it pass its bounds check: for an address in
    [-4, -1] the slice assignment inserts the four bytes near the end of
    the bytearray, which grows by four bytes. *)
Theorem write_word_accepts_negative_addresses :
  forall (b : MemoryBus.t) (address value : Z),
    (0 <= address ->
     MemoryBus.write address value b = MemoryBus.write_word address value b) /\
    (address < 0 ->
     MemoryBus.write address value b = Raise MemoryError b) /\
    (-4 <= address < 0 -> memory_sized b -> 0 <= value < 2 ^ 32 ->
     exists b',
       MemoryBus.write_word address value b = Ok tt b' /\
       Z.of_nat (length (MemoryBus.memory b')) = MemoryBus.MEMORY_SIZE + 4).
Proof.
  intros b address value. pose proof io_base_above_memory as Hio.
  split; [|split].
  - intros H0. unfold MemoryBus.write, MemoryBus.write_word.
    destruct (Z.leb_spec MemoryBus.IO_BASE address); [reflexivity|].
    destruct (Z.leb_spec 0 address); [|lia]. simpl andb.
    destruct (Z.ltb_spec address (MemoryBus.MEMORY_SIZE - 3)),
             (Z.ltb_spec MemoryBus.MEMORY_SIZE (address + 4));
      try lia; reflexivity.
  - intros Hneg. unfold MemoryBus.write.
    destruct (Z.leb_spec MemoryBus.IO_BASE address);
      [unfold MemoryBus.IO_BASE in *; lia|].
    destruct (Z.leb_spec 0 address); [lia|]. reflexivity.
  - intros Ha Hsz Hv. unfold memory_sized in Hsz.
    eexists. split.
    { apply (bus_write_word_memory b address value (big_endian value));
        [ unfold MemoryBus.IO_BASE; lia
        | unfold MemoryBus.MEMORY_SIZE; lia
        | apply to_bytes4_big_endian; exact Hv ]. }
    simpl MemoryBus.memory. unfold Py.slice_assign, Py.adjust.
    rewrite Hsz. unfold MemoryBus.MEMORY_SIZE in *.
    destruct (Z.ltb_spec address 0); [|lia].
    destruct (Z.ltb_spec (address + 4) 0); [lia|].
    rewrite !length_app, length_take, length_drop. simpl length. lia.
Qed.

Lemma write_word_accepts_negative_addresses_witness :
  MemoryBus.write 8 5 MemoryBus.init = MemoryBus.write_word 8 5 MemoryBus.init /\
  MemoryBus.write (-4) 5 MemoryBus.init = Raise MemoryError MemoryBus.init /\
  exists b',
    MemoryBus.write_word (-4) 5 MemoryBus.init = Ok tt b' /\
    Z.of_nat (length (MemoryBus.memory b')) = MemoryBus.MEMORY_SIZE + 4.
Proof.
  split; [|split].
  - apply (proj1 (write_word_accepts_negative_addresses MemoryBus.init 8 5)).
    lia.
  - apply (proj1 (proj2 (write_word_accepts_negative_addresses
                           MemoryBus.init (-4) 5))). lia.
  - apply (proj2 (proj2 (write_word_accepts_negative_addresses
                           MemoryBus.init (-4) 5))).
    + lia.
    + exact init_memory_length.
    + lia.
Defined.

(** ** The memory bus: I/O registers *)

(** X15: a word written to a registered I/O address is what the next
    read of that address returns; the write and the read are counted in
    [io_writes] and [io_reads], and neither the memory, nor the cache and
    its hit and miss counters, nor the memory counters change: I/O never
    goes through the cache. *)
Theorem io_write_then_read :
  forall (b : MemoryBus.t) (address value old : Z),
    MemoryBus.IO_BASE <= address ->
    MemoryBus.io_devices b !! address = Some old ->
    exists b1 b2,
      MemoryBus.write_word address value b = Ok tt b1 /\
      MemoryBus.read_word address b1 = Ok value b2 /\
      MemoryBus.io_writes b2 = MemoryBus.io_writes b + 1 /\
      MemoryBus.io_reads b2 = MemoryBus.io_reads b + 1 /\
      MemoryBus.memory b2 = MemoryBus.memory b /\
      MemoryBus.cache b2 = MemoryBus.cache b /\
      MemoryBus.reads b2 = MemoryBus.reads b /\
      MemoryBus.writes b2 = MemoryBus.writes b.
Proof.
  intros b address value old Hio Hreg.
  set (b1 := MemoryBus.set_io_writes (fun n => n + 1)
               (MemoryBus.set_io_devices (fun d => <[address := value]> d) b)).
  assert (MemoryBus.io_devices b1 !! address = Some value) as Hl
    by (unfold b1; simpl; apply lookup_insert_eq).
  exists b1, (MemoryBus.set_io_reads (fun n => n + 1) b1). split.
  { apply (bus_write_word_io_registered b address value old); assumption. }
  split.
  { unfold MemoryBus.read_word.
    destruct (Z.leb_spec MemoryBus.IO_BASE address); [|lia].
    unfold bind, gets, modify, ret. rewrite Hl. reflexivity. }
  repeat split.
Qed.

Lemma io_write_then_read_witness :
  exists b1 b2,
    MemoryBus.write_word (MemoryBus.IO_BASE + 4) 13 MemoryBus.init = Ok tt b1 /\
    MemoryBus.read_word (MemoryBus.IO_BASE + 4) b1 = Ok 13 b2 /\
    MemoryBus.io_writes b2 = MemoryBus.io_writes MemoryBus.init + 1 /\
    MemoryBus.io_reads b2 = MemoryBus.io_reads MemoryBus.init + 1 /\
    MemoryBus.memory b2 = MemoryBus.memory MemoryBus.init /\
    MemoryBus.cache b2 = MemoryBus.cache MemoryBus.init /\
    MemoryBus.reads b2 = MemoryBus.reads MemoryBus.init /\
    MemoryBus.writes b2 = MemoryBus.writes MemoryBus.init.
Proof.
  apply (io_write_then_read MemoryBus.init (MemoryBus.IO_BASE + 4) 13 0).
  - unfold MemoryBus.IO_BASE. lia.
  - reflexivity.
Defined.

(** ** Loading a program *)

Lemma insert_middle (m0 program : list Z) (base j : nat) (x : Z) :
  program !! j = Some x ->
  (base + j < length m0)%nat ->
  <[(base + j)%nat := x]>
    (take base m0 ++ take j program ++ drop (base + j) m0) =
  take base m0 ++ take (S j) program ++ drop (base + S j) m0.
Proof.
  intros Hx Hlt.
  pose proof (lookup_lt_Some _ _ _ Hx) as Hj.
  destruct (lookup_lt_is_Some_2 m0 (base + j) Hlt) as [y Hy].
  rewrite insert_app_r_alt by (rewrite length_take; lia).
  rewrite length_take. replace (base + j - base `min` length m0)%nat with j by lia.
  rewrite insert_app_r_alt by (rewrite length_take; lia).
  rewrite length_take. replace (j - j `min` length program)%nat with 0%nat by lia.
  rewrite (drop_S _ _ _ Hy). simpl.
  rewrite (take_S_r _ _ _ Hx). rewrite <- app_assoc. simpl.
  replace (base + S j)%nat with (S (base + j)) by lia. reflexivity.
Qed.

(** The loop of [load_program], started at index [j]. *)
Lemma load_program_loop (program m0 : list Z) (base : Z) (n : nat) :
  0 <= base ->
  base + Z.of_nat (length program) <= Z.of_nat (length m0) ->
  forall (j : nat) (b : MemoryBus.t),
    (j + n = length program)%nat ->
    MemoryBus.memory b =
      take (Z.to_nat base) m0 ++ take j program ++
      drop (Z.to_nat base + j) m0 ->
    for_each (map Z.of_nat (seq j n)) (fun i =>
      let* x := orraise IndexError (Py.getitem program i) in
      let* m := gets MemoryBus.memory in
      let* m' := orraise IndexError (Py.setitem m (base + i) x) in
      modify (MemoryBus.set_memory (fun _ => m'))) b =
    Ok tt (MemoryBus.set_memory (fun _ =>
             take (Z.to_nat base) m0 ++ program ++
             drop (Z.to_nat base + length program) m0) b).
Proof.
  intros Hbase Hfit. induction n as [|n IH]; intros j b Hjn Hmem.
  - simpl. unfold ret. f_equal.
    replace j with (length program) in Hmem by lia.
    rewrite firstn_all in Hmem. rewrite <- Hmem.
    destruct b; reflexivity.
  - simpl for_each.
    destruct (lookup_lt_is_Some_2 program j ltac:(lia)) as [x Hx].
    assert (Z.of_nat (length (MemoryBus.memory b)) = Z.of_nat (length m0))
      as Hlen.
    { rewrite Hmem, !length_app, !length_take, length_drop. lia. }
    unfold bind at 1.
    assert ((let* x := orraise IndexError (Py.getitem program (Z.of_nat j)) in
             let* m := gets MemoryBus.memory in
             let* m' := orraise IndexError
                          (Py.setitem m (base + Z.of_nat j) x) in
             modify (MemoryBus.set_memory (fun _ => m'))) b =
            Ok tt (MemoryBus.set_memory (fun _ =>
                     take (Z.to_nat base) m0 ++ take (S j) program ++
                     drop (Z.to_nat base + S j) m0) b)) as ->.
    { unfold bind, orraise, gets, modify, ret.
      rewrite getitem_nonneg by lia. rewrite Nat2Z.id, Hx.
      rewrite setitem_nonneg by lia.
      replace (Z.to_nat (base + Z.of_nat j)) with (Z.to_nat base + j)%nat by lia.
      rewrite Hmem. rewrite (insert_middle _ _ _ _ _ Hx) by lia. reflexivity. }
    rewrite (IH (S j)); [reflexivity | lia | reflexivity].
Qed.

(** [load_program] of a program that fits, from a base address of 0 up. *)
Lemma load_program_fits (b : MemoryBus.t) (program : list Z) (base : Z) :
  memory_sized b ->
  0 <= base ->
  base + Z.of_nat (length program) <= MemoryBus.MEMORY_SIZE ->
  MemoryBus.load_program program base b =
    Ok tt (MemoryBus.set_cache
             (BusCache.mk (BusCache.cache_size (MemoryBus.cache b))
                (BusCache.block_size (MemoryBus.cache b)) ∅ 0 0)
             (MemoryBus.set_memory (fun _ =>
                take (Z.to_nat base) (MemoryBus.memory b) ++ program ++
                drop (Z.to_nat base + length program) (MemoryBus.memory b))
                b)).
Proof.
  intros Hsz Hbase Hfit. unfold memory_sized in Hsz.
  unfold MemoryBus.load_program, reraise_as.
  destruct (Z.ltb_spec MemoryBus.MEMORY_SIZE
              (base + Z.of_nat (length program))); [lia|].
  unfold Py.range. rewrite Nat2Z.id.
  erewrite bind_Ok.
  2:{ apply (load_program_loop program (MemoryBus.memory b) base
               (length program) Hbase ltac:(lia) 0%nat b); [lia|].
      rewrite Nat.add_0_r, take_0, app_nil_l, take_drop. reflexivity. }
  reflexivity.
Qed.

(** A word read inside a region of memory that holds [program], on a bus
    with an empty cache. *)
Lemma read_word_in_region (b' : MemoryBus.t) (m program : list Z) (base k : Z) :
  MemoryBus.memory b' =
    take (Z.to_nat base) m ++ program ++
    drop (Z.to_nat base + length program) m ->
  Z.of_nat (length m) = MemoryBus.MEMORY_SIZE ->
  BusCache.cache (MemoryBus.cache b') = ∅ ->
  0 <= base ->
  base + Z.of_nat (length program) <= MemoryBus.MEMORY_SIZE ->
  0 <= k -> k + 4 <= Z.of_nat (length program) ->
  value_of 0 (MemoryBus.read_word (base + k) b') =
    Py.from_bytes (take 4 (drop (Z.to_nat k) program)) /\
  returns (MemoryBus.read_word (base + k) b') = true.
Proof.
  intros Hmem Hsz Hc Hbase Hfit Hk Hk4.
  pose proof io_base_above_memory as Hio.
  assert (Z.of_nat (length (MemoryBus.memory b')) = MemoryBus.MEMORY_SIZE)
    as Hlen'.
  { rewrite Hmem, !length_app, length_take, length_drop. lia. }
  rewrite (bus_read_word_miss b' (base + k))
    by (try lia; unfold cached; rewrite Hc; apply lookup_empty).
  simpl. split; [|reflexivity].
  unfold memory_word. rewrite slice_in_range by lia.
  replace (Z.to_nat (base + k + 4 - (base + k))) with 4%nat by lia.
  f_equal. rewrite Hmem.
  rewrite drop_app_ge by (rewrite length_take; lia).
  rewrite length_take.
  replace (Z.to_nat (base + k) - Z.to_nat base `min` length m)%nat
    with (Z.to_nat k) by lia.
  rewrite drop_app_le by lia.
  rewrite take_app_le by (rewrite length_drop; lia). reflexivity.
Qed.

(** X16: [load_program] of a program that fits, at a base address from 0
    up, returns; the program's bytes then lie in memory from the base
    address on, every other byte is as before, the cache is empty with
    its counters at 0, and a [read_word] at any offset into the program
    returns the four program bytes there as one big-endian word. *)
Theorem load_program_places_the_bytes :
  forall (b : MemoryBus.t) (program : list Z) (base_address : Z),
    memory_sized b ->
    0 <= base_address ->
    base_address + Z.of_nat (length program) <= MemoryBus.MEMORY_SIZE ->
    exists b',
      MemoryBus.load_program program base_address b = Ok tt b' /\
      MemoryBus.memory b' =
        take (Z.to_nat base_address) (MemoryBus.memory b) ++ program ++
        drop (Z.to_nat base_address + length program) (MemoryBus.memory b) /\
      MemoryBus.cache b' =
        BusCache.mk (BusCache.cache_size (MemoryBus.cache b))
          (BusCache.block_size (MemoryBus.cache b)) ∅ 0 0 /\
      forall k, 0 <= k -> k + 4 <= Z.of_nat (length program) ->
        value_of 0 (MemoryBus.read_word (base_address + k) b') =
          Py.from_bytes (take 4 (drop (Z.to_nat k) program)) /\
        returns (MemoryBus.read_word (base_address + k) b') = true.
Proof.
  intros b program base Hsz Hbase Hfit.
  eexists. split; [apply load_program_fits; assumption|].
  split; [reflexivity|]. split; [reflexivity|].
  intros k Hk Hk4.
  apply (read_word_in_region _ (MemoryBus.memory b) program base k);
    try assumption; reflexivity.
Qed.

Lemma load_program_places_the_bytes_witness :
  exists b',
    MemoryBus.load_program [0x20; 0x08; 0xFF; 0xFF] 0 MemoryBus.init = Ok tt b' /\
    MemoryBus.memory b' =
      take (Z.to_nat 0) (MemoryBus.memory MemoryBus.init) ++
      [0x20; 0x08; 0xFF; 0xFF] ++
      drop (Z.to_nat 0 + 4) (MemoryBus.memory MemoryBus.init) /\
    MemoryBus.cache b' =
      BusCache.mk (BusCache.cache_size (MemoryBus.cache MemoryBus.init))
        (BusCache.block_size (MemoryBus.cache MemoryBus.init)) ∅ 0 0 /\
    forall k, 0 <= k -> k + 4 <= 4 ->
      value_of 0 (MemoryBus.read_word (0 + k) b') =
        Py.from_bytes (take 4 (drop (Z.to_nat k) [0x20; 0x08; 0xFF; 0xFF])) /\
      returns (MemoryBus.read_word (0 + k) b') = true.
Proof.
  apply (load_program_places_the_bytes MemoryBus.init [0x20; 0x08; 0xFF; 0xFF] 0).
  - exact init_memory_length.
  - lia.
  - unfold MemoryBus.MEMORY_SIZE. simpl. lia.
Defined.

(** ** From the assembler's words to the fetch *)

Lemma extend_machine_code_in_range (instructions code : list Z) :
  Forall (fun w => 0 <= w < 2 ^ 32) instructions ->
  InstructionParser.extend_machine_code code instructions =
    Some (code ++ concat (map big_endian instructions)).
Proof.
  intros H. revert code. induction H as [|w ws Hw _ IH]; intros code.
  - simpl. rewrite app_nil_r. reflexivity.
  - simpl. rewrite (to_bytes4_big_endian w Hw), IH, <- app_assoc. reflexivity.
Qed.

Lemma length_machine_code (instructions : list Z) :
  length (concat (map big_endian instructions)) = (4 * length instructions)%nat.
Proof.
  induction instructions as [|w ws IH]; [reflexivity|].
  change (concat (map big_endian (w :: ws)))
    with (big_endian w ++ concat (map big_endian ws)).
  rewrite length_app, IH. simpl. lia.
Qed.

Lemma word_of_machine_code (instructions : list Z) (i : nat) (w : Z) :
  instructions !! i = Some w ->
  take 4 (drop (4 * i) (concat (map big_endian instructions))) = big_endian w.
Proof.
  revert i. induction instructions as [|a ws IH]; intros i Hi; [discriminate|].
  destruct i as [|i].
  - injection Hi as ->. reflexivity.
  - replace (4 * S i)%nat with (4 + 4 * i)%nat by lia.
    simpl in Hi. apply IH in Hi. exact Hi.
Qed.

(** X17: from the assembler to the fetch.  For instruction words in
    [0, 2^32) that fit in memory, [get_machine_code] returns four bytes
    for each word; after [load_program] of these bytes at address 0,
    [read_word(4 * i)] returns the i-th instruction word. *)
Theorem assembled_words_are_fetched :
  forall (b : MemoryBus.t) (instructions : list Z),
    memory_sized b ->
    Forall (fun w => 0 <= w < 2 ^ 32) instructions ->
    4 * Z.of_nat (length instructions) <= MemoryBus.MEMORY_SIZE ->
    exists code b',
      InstructionParser.get_machine_code instructions = Some code /\
      Z.of_nat (length code) = 4 * Z.of_nat (length instructions) /\
      MemoryBus.load_program code 0 b = Ok tt b' /\
      forall (i : nat) (w : Z), instructions !! i = Some w ->
        value_of 0 (MemoryBus.read_word (4 * Z.of_nat i) b') = w /\
        returns (MemoryBus.read_word (4 * Z.of_nat i) b') = true.
Proof.
  intros b instructions Hsz Hws Hfit.
  pose proof (length_machine_code instructions) as Hlen.
  exists (concat (map big_endian instructions)). eexists.
  split.
  { unfold InstructionParser.get_machine_code.
    rewrite extend_machine_code_in_range by assumption. reflexivity. }
  split; [lia|].
  split; [apply load_program_fits; [assumption | lia | lia]|].
  intros i w Hi.
  pose proof (lookup_lt_Some _ _ _ Hi) as Hlt.
  destruct (read_word_in_region
              (MemoryBus.set_cache
                 (BusCache.mk (BusCache.cache_size (MemoryBus.cache b))
                    (BusCache.block_size (MemoryBus.cache b)) ∅ 0 0)
                 (MemoryBus.set_memory (fun _ =>
                    take (Z.to_nat 0) (MemoryBus.memory b) ++
                    concat (map big_endian instructions) ++
                    drop (Z.to_nat 0 +
                          length (concat (map big_endian instructions)))
                      (MemoryBus.memory b)) b))
              (MemoryBus.memory b) (concat (map big_endian instructions))
              0 (4 * Z.of_nat i)) as [Hv Hr];
    try reflexivity; try assumption; try lia.
  rewrite Z.add_0_l in Hv, Hr. split; [|exact Hr].
  rewrite Hv.
  replace (Z.to_nat (4 * Z.of_nat i)) with (4 * i)%nat by lia.
  rewrite (word_of_machine_code _ _ _ Hi).
  apply from_bytes_big_endian.
  rewrite Forall_lookup in Hws. exact (Hws i w Hi).
Qed.

Lemma assembled_words_are_fetched_witness :
  exists code b',
    InstructionParser.get_machine_code [0x2008FFFF; 0xFC000000] = Some code /\
    Z.of_nat (length code) = 4 * Z.of_nat (length [0x2008FFFF; 0xFC000000]) /\
    MemoryBus.load_program code 0 MemoryBus.init = Ok tt b' /\
    forall (i : nat) (w : Z), [0x2008FFFF; 0xFC000000] !! i = Some w ->
      value_of 0 (MemoryBus.read_word (4 * Z.of_nat i) b') = w /\
      returns (MemoryBus.read_word (4 * Z.of_nat i) b') = true.
Proof.
  apply (assembled_words_are_fetched MemoryBus.init [0x2008FFFF; 0xFC000000]).
  - exact init_memory_length.
  - repeat constructor; lia.
  - unfold MemoryBus.MEMORY_SIZE. simpl. lia.
Defined.

(** X18: the size check of [load_program].  On a bus whose memory has
    [MEMORY_SIZE] bytes and for a base address from 0 up, the call
    returns exactly when the program ends within the memory; a program
    that ends beyond it raises [MemoryBusError] before a byte is written
    or the cache is cleared, whatever the bus and the base address. *)
Theorem load_program_checks_the_size :
  forall (b : MemoryBus.t) (program : list Z) (base_address : Z),
    memory_sized b ->
    0 <= base_address ->
    (returns (MemoryBus.load_program program base_address b) = true <->
     base_address + Z.of_nat (length program) <= MemoryBus.MEMORY_SIZE) /\
    (MemoryBus.MEMORY_SIZE < base_address + Z.of_nat (length program) ->
     MemoryBus.load_program program base_address b = Raise MemoryBusError b).
Proof.
  intros b program base Hsz Hbase.
  assert (MemoryBus.MEMORY_SIZE < base + Z.of_nat (length program) ->
          MemoryBus.load_program program base b = Raise MemoryBusError b)
    as Hbig.
  { intros Hbig. unfold MemoryBus.load_program, reraise_as.
    destruct (Z.ltb_spec MemoryBus.MEMORY_SIZE
                (base + Z.of_nat (length program))); [|lia].
    reflexivity. }
  split; [|exact Hbig]. split.
  - intros Hr.
    destruct (Z.le_gt_cases (base + Z.of_nat (length program))
                MemoryBus.MEMORY_SIZE) as [Hle|Hgt]; [exact Hle|].
    rewrite Hbig in Hr by lia. discriminate.
  - intros Hfit. rewrite load_program_fits by assumption. reflexivity.
Qed.

Lemma load_program_checks_the_size_witness :
  (returns (MemoryBus.load_program [1; 2; 3; 4; 5] 0xFFFFC MemoryBus.init) = true <->
   0xFFFFC + Z.of_nat (length [1; 2; 3; 4; 5]) <= MemoryBus.MEMORY_SIZE) /\
  (MemoryBus.MEMORY_SIZE < 0xFFFFC + Z.of_nat (length [1; 2; 3; 4; 5]) ->
   MemoryBus.load_program [1; 2; 3; 4; 5] 0xFFFFC MemoryBus.init =
     Raise MemoryBusError MemoryBus.init).
Proof.
  apply (load_program_checks_the_size MemoryBus.init [1; 2; 3; 4; 5] 0xFFFFC).
  - exact init_memory_length.
  - lia.
Defined.

(** X19: what [load_program] placed is what [dump_memory] shows: after
    loading a program that fits at a base address from 0 up,
    [dump_memory(base_address, len(program))] returns the program. *)
Theorem dump_memory_shows_the_program :
  forall (b : MemoryBus.t) (program : list Z) (base_address : Z),
    memory_sized b ->
    0 <= base_address ->
    base_address + Z.of_nat (length program) <= MemoryBus.MEMORY_SIZE ->
    exists b',
      MemoryBus.load_program program base_address b = Ok tt b' /\
      MemoryBus.dump_memory base_address (Z.of_nat (length program)) b' =
        Ok program b'.
Proof.
  intros b program base Hsz Hbase Hfit. unfold memory_sized in Hsz.
  eexists. split; [apply load_program_fits; assumption|].
  unfold MemoryBus.dump_memory.
  destruct (Z.ltb_spec MemoryBus.MEMORY_SIZE
              (base + Z.of_nat (length program))); [lia|].
  unfold bind, gets, ret. f_equal.
  cbn [MemoryBus.memory MemoryBus.set_cache MemoryBus.set_memory].
  rewrite slice_in_range
    by (rewrite ?length_app, ?length_take, ?length_drop; lia).
  rewrite drop_app_ge by (rewrite length_take; lia).
  rewrite length_take.
  replace (Z.to_nat base - Z.to_nat base `min` length (MemoryBus.memory b))%nat
    with 0%nat by lia.
  rewrite drop_0.
  replace (Z.to_nat (base + Z.of_nat (length program) - base))
    with (length program) by lia.
  apply take_app_length.
Qed.

Lemma dump_memory_shows_the_program_witness :
  exists b',
    MemoryBus.load_program [0xFC; 0; 0; 0] 8 MemoryBus.init = Ok tt b' /\
    MemoryBus.dump_memory 8 (Z.of_nat (length [0xFC; 0; 0; 0])) b' =
      Ok [0xFC; 0; 0; 0] b'.
Proof.
  apply (dump_memory_shows_the_program MemoryBus.init [0xFC; 0; 0; 0] 8).
  - exact init_memory_length.
  - lia.
  - unfold MemoryBus.MEMORY_SIZE. simpl. lia.
Defined.

(** ** Loading initialisation data *)

Lemma for_each_app {S A} (xs ys : list A) (body : A -> M S unit) (s : S) :
  for_each (xs ++ ys) body s = (for_each xs body ;; for_each ys body) s.
Proof.
  revert s. induction xs as [|x xs IH]; intros s.
  - reflexivity.
  - simpl. unfold bind in *.
    destruct (body x s) as [[] s1|e s1]; [|reflexivity].
    apply IH.
Qed.

(** X20: [load_memory] does not undo what it wrote.  When the entries
    before a refused one are loaded, the call raises [MemoryBusError] at
    the refused entry, and the bus is left as the entries before it made
    it: their data stays in memory, and the entries after it are never
    reached. *)
Theorem load_memory_keeps_earlier_entries :
  forall (b b' : MemoryBus.t)
         (accepted rest : list (Z * MemoryBus.init_value))
         (refused : Z * MemoryBus.init_value),
    MemoryBus.load_memory accepted b = Ok tt b' ->
    entry_rejected refused ->
    MemoryBus.load_memory (accepted ++ refused :: rest) b =
      Raise MemoryBusError b'.
Proof.
  intros b b' accepted rest [address data] Hacc Hrej.
  unfold MemoryBus.load_memory, reraise_as in *.
  rewrite for_each_app. unfold bind at 1.
  destruct (for_each accepted _ b) as [[] s1|e s1]; [|discriminate].
  injection Hacc as ->.
  simpl for_each. unfold bind at 1. unfold bind at 1.
  unfold entry_rejected in Hrej. simpl in Hrej.
  destruct data as [n|bs|].
  - destruct (Py.to_bytes4 n) as [bytes|] eqn:Hb.
    + destruct Hrej as [Hn|Haddr].
      * rewrite to_bytes4_out_of_range in Hb by exact Hn. discriminate.
      * assert (length bytes = 4%nat) as Hl.
        { unfold Py.to_bytes4 in Hb.
          destruct ((0 <=? n) && (n <? 2 ^ 32)); [|discriminate].
          injection Hb as <-. reflexivity. }
        unfold orraise, ret. rewrite Hl.
        destruct (Z.ltb_spec MemoryBus.MEMORY_SIZE (address + Z.of_nat 4));
          [reflexivity | lia].
    + reflexivity.
  - unfold ret.
    destruct (Z.ltb_spec MemoryBus.MEMORY_SIZE
                (address + Z.of_nat (length bs))); [reflexivity | lia].
  - reflexivity.
Qed.

Lemma load_memory_one_word (b : MemoryBus.t) (address n : Z) :
  0 <= n < 2 ^ 32 ->
  address + 4 <= MemoryBus.MEMORY_SIZE ->
  MemoryBus.load_memory [(address, MemoryBus.IInt n)] b =
    Ok tt (MemoryBus.set_memory
             (fun m => Py.slice_assign m address (address + 4) (big_endian n))
             b).
Proof.
  intros Hn Haddr. unfold MemoryBus.load_memory, reraise_as.
  simpl for_each. unfold bind, orraise, ret, modify.
  rewrite (to_bytes4_big_endian n Hn).
  change (Z.of_nat (length (big_endian n))) with 4.
  destruct (Z.ltb_spec MemoryBus.MEMORY_SIZE (address + 4)); [lia|].
  reflexivity.
Qed.

Lemma load_memory_keeps_earlier_entries_witness :
  MemoryBus.load_memory
    ([(0, MemoryBus.IInt 7)] ++
     (0xFFFFE, MemoryBus.IInt 1) :: [(8, MemoryBus.IInt 9)])
    MemoryBus.init =
  Raise MemoryBusError
    (MemoryBus.set_memory
       (fun m => Py.slice_assign m 0 (0 + 4) (big_endian 7)) MemoryBus.init).
Proof.
  apply (load_memory_keeps_earlier_entries MemoryBus.init).
  - apply load_memory_one_word; [lia | unfold MemoryBus.MEMORY_SIZE; lia].
  - unfold entry_rejected. simpl. right. unfold MemoryBus.MEMORY_SIZE. lia.
Defined.

(** ** Clearing the bus *)

(** X21: [clear] on any bus returns and leaves a memory of [MEMORY_SIZE]
    zero bytes, an empty cache, and every counter of the bus and of its
    cache at 0; the I/O devices keep their values.  Every word of the
    memory then reads as 0. *)
Theorem clear_zeroes_memory_and_counters :
  forall (b : MemoryBus.t) (address : Z),
    0 <= address -> address + 4 <= MemoryBus.MEMORY_SIZE ->
    exists b',
      MemoryBus.clear b = Ok tt b' /\
      MemoryBus.io_devices b' = MemoryBus.io_devices b /\
      MemoryBus.get_stats b' =
        Ok (MemoryBus.mk_stats (BusCache.mk_stats 0 0 (Py.Int 0)) 0 0 0 0)
           b' /\
      memory_sized b' /\
      cached b' address = None /\
      memory_word b' address = 0.
Proof.
  intros b address H0 H4.
  exists (MemoryBus.mk (replicate (Z.to_nat MemoryBus.MEMORY_SIZE) 0)
            (BusCache.mk (BusCache.cache_size (MemoryBus.cache b))
               (BusCache.block_size (MemoryBus.cache b)) ∅ 0 0)
            (MemoryBus.io_devices b) 0 0 0 0).
  split; [reflexivity|]. split; [reflexivity|]. split; [reflexivity|].
  assert (Z.of_nat (length (replicate (Z.to_nat MemoryBus.MEMORY_SIZE) 0)) =
          MemoryBus.MEMORY_SIZE) as Hlen.
  { rewrite length_replicate. apply Z2Nat.id. discriminate. }
  split; [exact Hlen|]. split; [apply lookup_empty|].
  unfold memory_word. cbn [MemoryBus.memory].
  rewrite slice_in_range by lia.
  rewrite drop_replicate, take_replicate.
  replace (Z.to_nat (address + 4 - address) `min`
           (Z.to_nat MemoryBus.MEMORY_SIZE - Z.to_nat address))%nat
    with 4%nat by lia.
  reflexivity.
Qed.

Lemma clear_zeroes_memory_and_counters_witness :
  exists b',
    MemoryBus.clear MemoryBus.init = Ok tt b' /\
    MemoryBus.io_devices b' = MemoryBus.io_devices MemoryBus.init /\
    MemoryBus.get_stats b' =
      Ok (MemoryBus.mk_stats (BusCache.mk_stats 0 0 (Py.Int 0)) 0 0 0 0)
         b' /\
    memory_sized b' /\
    cached b' 0xFFFFC = None /\
    memory_word b' 0xFFFFC = 0.
Proof.
  apply (clear_zeroes_memory_and_counters MemoryBus.init 0xFFFFC).
  - lia.
  - unfold MemoryBus.MEMORY_SIZE. lia.
Defined.

(** ** [read] and [read_word] *)

Lemma bus_read_miss (b : MemoryBus.t) (address : Z) :
  0 <= address ->
  address + 4 <= MemoryBus.MEMORY_SIZE ->
  cached b address = None ->
  MemoryBus.read address b =
    Ok (memory_word b address)
       (MemoryBus.set_reads (fun n => n + 1)
          (MemoryBus.set_cache
             (BusCache.set_misses (fun m => m + 1) (MemoryBus.cache b)) b)).
Proof.
  intros H0 H4 Hc. pose proof io_base_above_memory as Hio.
  unfold MemoryBus.read.
  destruct (Z.leb_spec MemoryBus.IO_BASE address); [lia|].
  destruct (Z.leb_spec 0 address); [|lia].
  destruct (Z.ltb_spec address (MemoryBus.MEMORY_SIZE - 3)); [|lia].
  unfold cached in Hc. cbn [negb andb].
  unfold bind, MemoryBus.on_cache, zoom, BusCache.read_word, bind, gets,
    modify, ret.
  rewrite Hc. reflexivity.
Qed.

(** X22: [read] and [read_word] differ on a miss.  For a word inside the
    memory that is not in the cache, both return the word in memory and
    count one miss and one memory read; [read_word] puts the word in the
    cache, [read] does not, so that a second [read] of the address is a
    miss again. *)
Theorem read_does_not_fill_the_cache :
  forall (b : MemoryBus.t) (address : Z),
    0 <= address -> address + 4 <= MemoryBus.MEMORY_SIZE ->
    cached b address = None ->
    exists b1 b2 b3,
      MemoryBus.read_word address b = Ok (memory_word b address) b1 /\
      cached b1 address = Some (memory_word b address) /\
      BusCache.misses (MemoryBus.cache b1) =
        BusCache.misses (MemoryBus.cache b) + 1 /\
      BusCache.hits (MemoryBus.cache b1) = BusCache.hits (MemoryBus.cache b) /\
      MemoryBus.reads b1 = MemoryBus.reads b + 1 /\
      MemoryBus.read address b = Ok (memory_word b address) b2 /\
      cached b2 address = None /\
      BusCache.misses (MemoryBus.cache b2) =
        BusCache.misses (MemoryBus.cache b) + 1 /\
      BusCache.hits (MemoryBus.cache b2) = BusCache.hits (MemoryBus.cache b) /\
      MemoryBus.reads b2 = MemoryBus.reads b + 1 /\
      MemoryBus.read address b2 = Ok (memory_word b address) b3 /\
      BusCache.misses (MemoryBus.cache b3) =
        BusCache.misses (MemoryBus.cache b) + 2 /\
      MemoryBus.reads b3 = MemoryBus.reads b + 2.
Proof.
  intros b address H0 H4 Hc. pose proof io_base_above_memory as Hio.
  set (b2 := MemoryBus.set_reads (fun n => n + 1)
               (MemoryBus.set_cache
                  (BusCache.set_misses (fun m => m + 1) (MemoryBus.cache b))
                  b)).
  assert (cached b2 address = None) as Hc2 by exact Hc.
  eexists. exists b2. eexists.
  split; [apply bus_read_word_miss; [lia | lia | exact Hc]|].
  split; [unfold cached; simpl; apply lookup_insert_eq|].
  split; [reflexivity|]. split; [reflexivity|]. split; [reflexivity|].
  split; [apply bus_read_miss; assumption|].
  split; [exact Hc2|].
  split; [reflexivity|]. split; [reflexivity|]. split; [reflexivity|].
  split; [apply (bus_read_miss b2 address H0 H4 Hc2)|].
  split; simpl; lia.
Qed.

Lemma read_does_not_fill_the_cache_witness :
  exists b1 b2 b3,
    MemoryBus.read_word 0 MemoryBus.init =
      Ok (memory_word MemoryBus.init 0) b1 /\
    cached b1 0 = Some (memory_word MemoryBus.init 0) /\
    BusCache.misses (MemoryBus.cache b1) =
      BusCache.misses (MemoryBus.cache MemoryBus.init) + 1 /\
    BusCache.hits (MemoryBus.cache b1) =
      BusCache.hits (MemoryBus.cache MemoryBus.init) /\
    MemoryBus.reads b1 = MemoryBus.reads MemoryBus.init + 1 /\
    MemoryBus.read 0 MemoryBus.init = Ok (memory_word MemoryBus.init 0) b2 /\
    cached b2 0 = None /\
    BusCache.misses (MemoryBus.cache b2) =
      BusCache.misses (MemoryBus.cache MemoryBus.init) + 1 /\
    BusCache.hits (MemoryBus.cache b2) =
      BusCache.hits (MemoryBus.cache MemoryBus.init) /\
    MemoryBus.reads b2 = MemoryBus.reads MemoryBus.init + 1 /\
    MemoryBus.read 0 b2 = Ok (memory_word MemoryBus.init 0) b3 /\
    BusCache.misses (MemoryBus.cache b3) =
      BusCache.misses (MemoryBus.cache MemoryBus.init) + 2 /\
    MemoryBus.reads b3 = MemoryBus.reads MemoryBus.init + 2.
Proof.
  apply (read_does_not_fill_the_cache MemoryBus.init 0).
  - lia.
  - unfold MemoryBus.MEMORY_SIZE. lia.
  - reflexivity.
Defined.

(** * cache.py: the line cache *)

Section CacheInvalidate.

Context {B : Type}.
Implicit Types (c : @Cache.t B).

Lemma set_line_Ok c (i : Z) (l : Cache.line) :
  0 <= i < Z.of_nat (length (Cache.lines c)) ->
  Cache.set_line i l c =
    Ok tt (Cache.set_lines (fun _ => <[Z.to_nat i := l]> (Cache.lines c)) c).
Proof.
  intros H. unfold Cache.set_line, bind, gets, orraise, modify, ret.
  rewrite setitem_nonneg by exact H. reflexivity.
Qed.

Lemma line_index_in_range c (address : Z) :
  0 < Cache.num_lines c ->
  0 <= line_index_of c address < Cache.num_lines c.
Proof. intros H. unfold line_index_of. apply Z.mod_pos_bound, H. Qed.

(** The loop of [invalidate()], started at line [j]. *)
Lemma invalidate_loop (e : Cache.line) (lines0 : list Cache.line) (n : nat) :
  forall (j : nat) c,
    (j + n = length lines0)%nat ->
    Cache.lines c = replicate j e ++ drop j lines0 ->
    for_each (map Z.of_nat (seq j n)) (fun i => Cache.set_line i e) c =
      Ok tt (Cache.set_lines (fun _ => replicate (length lines0) e) c).
Proof.
  induction n as [|n IH]; intros j c Hjn Hl.
  - simpl. unfold ret. f_equal.
    replace j with (length lines0) in Hl by lia.
    rewrite drop_all, app_nil_r in Hl. rewrite <- Hl.
    destruct c; reflexivity.
  - simpl for_each. unfold bind at 1.
    assert (length (Cache.lines c) = length lines0) as Hlen.
    { rewrite Hl, length_app, length_replicate, length_drop. lia. }
    rewrite set_line_Ok by lia. rewrite Nat2Z.id.
    rewrite (IH (S j)); [reflexivity | lia |].
    cbn [Cache.lines Cache.set_lines]. rewrite Hl.
    destruct (lookup_lt_is_Some_2 lines0 j ltac:(lia)) as [y Hy].
    rewrite insert_app_r_alt by (rewrite length_replicate; lia).
    rewrite length_replicate, Nat.sub_diag, (drop_S _ _ _ Hy).
    rewrite replicate_S_end, <- app_assoc. reflexivity.
Qed.

End CacheInvalidate.

(** X23: [invalidate(address)].  In a cache with a non-zero line size and
    as many lines as [num_lines] says (at least one), the call returns
    and replaces the line the address maps to by an invalid line of zero
    bytes: the address is no longer resident, every other line is as
    before, and neither the counters nor the bus change. *)
Theorem invalidate_address_evicts_the_line :
  forall (B : Type) (c : @Cache.t B) (address : Z),
    Cache.line_size c <> 0 ->
    0 < Cache.num_lines c ->
    Z.of_nat (length (Cache.lines c)) = Cache.num_lines c ->
    exists c',
      Cache.invalidate (Some address) c = Ok tt c' /\
      Py.getitem (Cache.lines c') (line_index_of c address) =
        Some (Cache.empty_line (Cache.line_size c)) /\
      not_resident c' address /\
      (forall i, 0 <= i < Cache.num_lines c ->
         i <> line_index_of c address ->
         Py.getitem (Cache.lines c') i = Py.getitem (Cache.lines c) i) /\
      cache_frame (Cache.hits c) (Cache.misses c)
        (Cache.line_size c) (Cache.num_lines c) c' /\
      Cache.memory_bus c' = Cache.memory_bus c.
Proof.
  intros B c address Hls Hnl Hlen.
  pose proof (line_index_in_range c address Hnl) as Hidx.
  set (idx := line_index_of c address) in *.
  set (e := Cache.empty_line (Cache.line_size c)).
  exists (Cache.set_lines (fun _ => <[Z.to_nat idx := e]> (Cache.lines c)) c).
  assert (Py.getitem (<[Z.to_nat idx := e]> (Cache.lines c)) idx = Some e)
    as Hget.
  { rewrite getitem_nonneg by (rewrite length_insert; lia).
    apply list_lookup_insert_eq. lia. }
  split.
  { unfold Cache.invalidate, Cache.floordiv, Cache.pymod, bind, gets, ret.
    destruct (Z.eqb_spec (Cache.line_size c) 0); [contradiction|].
    destruct (Z.eqb_spec (Cache.num_lines c) 0); [lia|].
    apply set_line_Ok. fold (line_index_of c address). fold idx. lia. }
  split; [exact Hget|]. split.
  { split; [exact Hls|]. split; [simpl; lia|].
    exists false, 0, (replicate (Z.to_nat (Cache.line_size c)) 0).
    split; [exact Hget | reflexivity]. }
  split.
  { intros i Hi Hne. cbn [Cache.lines Cache.set_lines].
    rewrite !getitem_nonneg by (rewrite ?length_insert; lia).
    apply list_lookup_insert_ne. lia. }
  split; [repeat split | reflexivity].
Qed.

Lemma invalidate_address_evicts_the_line_witness :
  exists c',
    Cache.invalidate (Some 0) line_cache_holding_zero = Ok tt c' /\
    Py.getitem (Cache.lines c') (line_index_of line_cache_holding_zero 0) =
      Some (Cache.empty_line (Cache.line_size line_cache_holding_zero)) /\
    not_resident c' 0 /\
    (forall i, 0 <= i < Cache.num_lines line_cache_holding_zero ->
       i <> line_index_of line_cache_holding_zero 0 ->
       Py.getitem (Cache.lines c') i =
         Py.getitem (Cache.lines line_cache_holding_zero) i) /\
    cache_frame (Cache.hits line_cache_holding_zero)
      (Cache.misses line_cache_holding_zero)
      (Cache.line_size line_cache_holding_zero)
      (Cache.num_lines line_cache_holding_zero) c' /\
    Cache.memory_bus c' = Cache.memory_bus line_cache_holding_zero.
Proof.
  apply (invalidate_address_evicts_the_line MemoryBus.t
           line_cache_holding_zero 0).
  - discriminate.
  - reflexivity.
  - reflexivity.
Defined.

(** X24: [invalidate()] without an address.  In a cache with as many
    lines as [num_lines] says, the call returns and leaves every line
    invalid with tag 0 and zero bytes, as [__init__] made them; the hit
    and miss counters are not reset, and the bus is not touched. *)
Theorem invalidate_all_empties_the_cache :
  forall (B : Type) (c : @Cache.t B),
    Z.of_nat (length (Cache.lines c)) = Cache.num_lines c ->
    exists c',
      Cache.invalidate None c = Ok tt c' /\
      Cache.lines c' =
        replicate (Z.to_nat (Cache.num_lines c))
          (Cache.empty_line (Cache.line_size c)) /\
      cache_frame (Cache.hits c) (Cache.misses c)
        (Cache.line_size c) (Cache.num_lines c) c' /\
      Cache.memory_bus c' = Cache.memory_bus c.
Proof.
  intros B c Hlen.
  exists (Cache.set_lines
            (fun _ => replicate (length (Cache.lines c))
                        (Cache.empty_line (Cache.line_size c))) c).
  split.
  { unfold Cache.invalidate. unfold bind at 1 2. unfold gets at 1 2.
    unfold Py.range. rewrite <- Hlen, Nat2Z.id.
    apply invalidate_loop; [lia | reflexivity]. }
  split; [cbn [Cache.lines Cache.set_lines]; f_equal; lia|].
  split; [repeat split | reflexivity].
Qed.

Lemma invalidate_all_empties_the_cache_witness :
  exists c',
    Cache.invalidate None line_cache_holding_zero = Ok tt c' /\
    Cache.lines c' =
      replicate (Z.to_nat (Cache.num_lines line_cache_holding_zero))
        (Cache.empty_line (Cache.line_size line_cache_holding_zero)) /\
    cache_frame (Cache.hits line_cache_holding_zero)
      (Cache.misses line_cache_holding_zero)
      (Cache.line_size line_cache_holding_zero)
      (Cache.num_lines line_cache_holding_zero) c' /\
    Cache.memory_bus c' = Cache.memory_bus line_cache_holding_zero.
Proof.
  apply (invalidate_all_empties_the_cache MemoryBus.t line_cache_holding_zero).
  reflexivity.
Defined.

(** X25: write-through on a hit.  When the line of an address below
    [IO_START] is resident, the four bytes at its offset lie inside the
    line and the bus accepts the write, [write_word] of a value in
    [0, 2^32) passes it to the bus and updates the line, and the next
    [read_word] of the address returns that value from the cache: two
    hits, no miss, and no bus access by the read. *)
Theorem write_hit_then_read :
  forall (B : Type) (IO_START : Z)
         (bus_read_word : Z -> M B Z) (bus_write_word : Z -> Z -> M B unit)
         (c : @Cache.t B) (address value : Z) (data : list Z) (bus' : B),
    address < IO_START ->
    0 < Cache.line_size c -> Cache.num_lines c <> 0 ->
    Py.getitem (Cache.lines c) (line_index_of c address) =
      Some (true, tag_of c address, data) ->
    address mod Cache.line_size c + 4 <= Z.of_nat (length data) ->
    0 <= value < 2 ^ 32 ->
    bus_write_word address value (Cache.memory_bus c) = Ok tt bus' ->
    exists c1,
      Cache.write_word IO_START bus_write_word address value c = Ok tt c1 /\
      Cache.read_word IO_START bus_read_word address c1 =
        Ok value (Cache.set_hits (fun h => h + 1) c1) /\
      Cache.memory_bus c1 = bus' /\
      Cache.hits c1 = Cache.hits c + 1 /\
      Cache.misses c1 = Cache.misses c.
Proof.
  intros B IO_START brw bww c address value data bus'
    Hio Hls Hnl Hline Hoff Hv Hbus.
  assert (Cache.line_size c <> 0) as Hls0 by lia.
  pose proof (Z.mod_pos_bound address (Cache.line_size c) Hls) as Hmod.
  set (off := address mod Cache.line_size c) in *.
  set (data' := Py.slice_assign data off (off + 4) (big_endian value)).
  destruct (Py.setitem (Cache.lines c) (line_index_of c address)
              (true, tag_of c address, data')) as [lines'|] eqn:Hset.
  2:{ unfold Py.getitem in Hline. unfold Py.setitem in Hset.
      destruct (Py.index _ _); discriminate. }
  pose proof (getitem_setitem_same _ _ _ _ Hset) as Hline'.
  set (c1 := Cache.set_lines (fun _ => lines')
               (Cache.set_hits (fun h => h + 1)
                  (Cache.set_memory_bus bus' c))).
  exists c1. split.
  { unfold Cache.write_word.
    destruct (Z.leb_spec IO_START address); [lia|].
    erewrite bind_Ok by (unfold Cache.on_bus, zoom; rewrite Hbus; reflexivity).
    rewrite (bind_Ok _ _ _ _ _
               (locate_Ok (Cache.set_memory_bus bus' c) address Hls0 Hnl)).
    rewrite (bind_Ok _ _ _ _ _
               (get_line_Ok (Cache.set_memory_bus bus' c) _ _ Hline)).
    unfold tag_of. cbn [Cache.line_size Cache.num_lines Cache.set_memory_bus].
    rewrite Z.eqb_refl. cbn [andb].
    unfold Cache.set_line. unfold bind, modify, orraise, ret, gets.
    rewrite (to_bytes4_big_endian value Hv).
    unfold line_index_of, tag_of in Hset. unfold line_index_of.
    cbn [Cache.lines Cache.set_hits Cache.set_memory_bus
         Cache.line_size Cache.num_lines].
    fold off. unfold data' in Hset. rewrite Hset. reflexivity. }
  split.
  { rewrite (read_word_hit IO_START brw c1 address (tag_of c address) data')
      by (try assumption; exact Hline').
    f_equal. change (Cache.line_size c1) with (Cache.line_size c). fold off.
    unfold data'.
    change 4 with (Z.of_nat (length (big_endian value))).
    rewrite slice_slice_assign
      by (change (Z.of_nat (length (big_endian value))) with 4; lia).
    apply from_bytes_big_endian, Hv. }
  repeat split.
Qed.

Lemma write_hit_then_read_witness :
  exists c1,
    line_cache_write 0 5 line_cache_holding_zero = Ok tt c1 /\
    line_cache_read 0 c1 = Ok 5 (Cache.set_hits (fun h => h + 1) c1) /\
    Cache.memory_bus c1 = bus_with_word 0 5 /\
    Cache.hits c1 = Cache.hits line_cache_holding_zero + 1 /\
    Cache.misses c1 = Cache.misses line_cache_holding_zero.
Proof.
  apply (write_hit_then_read MemoryBus.t MemoryBus.IO_BASE
           MemoryBus.read_word MemoryBus.write_word
           line_cache_holding_zero 0 5 (replicate 32 0) (bus_with_word 0 5)).
  - reflexivity.
  - reflexivity.
  - discriminate.
  - reflexivity.
  - change (Cache.line_size line_cache_holding_zero) with 32.
    vm_compute. discriminate.
  - lia.
  - reflexivity.
Defined.

(** X26: a cache of fewer than 32 bytes.  [__init__] accepts a size in
    [0, 32) and makes a cache of no lines; every [read_word] below
    [IO_START] then raises [ZeroDivisionError] without reaching the bus,
    and a [write_word] raises it too, after the bus has taken the
    write. *)
Theorem cache_smaller_than_a_line_divides_by_zero :
  forall (B : Type) (IO_START : Z)
         (bus_read_word : Z -> M B Z) (bus_write_word : Z -> Z -> M B unit)
         (bus bus' : B) (size address value : Z),
    0 <= size < 32 ->
    address < IO_START ->
    bus_write_word address value bus = Ok tt bus' ->
    Cache.lines (Cache.init bus size) = [] /\
    Cache.read_word IO_START bus_read_word address (Cache.init bus size) =
      Raise ZeroDivisionError (Cache.init bus size) /\
    Cache.write_word IO_START bus_write_word address value
      (Cache.init bus size) =
      Raise ZeroDivisionError (Cache.init bus' size).
Proof.
  intros B IO_START brw bww bus bus' size address value Hsize Hio Hbus.
  assert (size / 32 = 0) as Hq by (apply Z.div_small; lia).
  split; [|split].
  - unfold Cache.init. cbn [Cache.lines]. rewrite Hq. reflexivity.
  - unfold Cache.read_word.
    destruct (Z.leb_spec IO_START address); [lia|].
    unfold bind at 1. unfold Cache.locate, bind, gets, Cache.floordiv,
      Cache.pymod, ret, raise.
    cbn [Cache.line_size Cache.num_lines Cache.init]. rewrite Hq.
    reflexivity.
  - unfold Cache.write_word.
    destruct (Z.leb_spec IO_START address); [lia|].
    erewrite bind_Ok
      by (unfold Cache.on_bus, zoom; cbn [Cache.memory_bus Cache.init];
          rewrite Hbus; reflexivity).
    unfold bind at 1. unfold Cache.locate, bind, gets, Cache.floordiv,
      Cache.pymod, ret, raise.
    cbn [Cache.line_size Cache.num_lines Cache.init Cache.set_memory_bus].
    rewrite Hq. reflexivity.
Qed.

Lemma cache_smaller_than_a_line_divides_by_zero_witness :
  Cache.lines (Cache.init MemoryBus.init 16) = [] /\
  line_cache_read 0 (Cache.init MemoryBus.init 16) =
    Raise ZeroDivisionError (Cache.init MemoryBus.init 16) /\
  line_cache_write 0 5 (Cache.init MemoryBus.init 16) =
    Raise ZeroDivisionError (Cache.init (bus_with_word 0 5) 16).
Proof.
  apply (cache_smaller_than_a_line_divides_by_zero MemoryBus.t
           MemoryBus.IO_BASE MemoryBus.read_word MemoryBus.write_word
           MemoryBus.init (bus_with_word 0 5) 16 0 5).
  - lia.
  - reflexivity.
  - reflexivity.
Defined.

(** * io_device.py *)

Lemma after_writes_app (address : Z) (xs ys : list Z) (d : IODevice.t) :
  after_writes address (xs ++ ys) d =
    after_writes address ys (after_writes address xs d).
Proof. unfold after_writes. apply fold_left_app. Qed.

(** X27: the output device collects what is written to it.  After any
    sequence of writes to 0xF0000004, [get_output] returns the buffer it
    had followed by the written values in order; the input value (read
    at 0xF0000000) and the completion status are as before.  Writes to
    an address other than 0xF0000004 and 0xF0000008 change nothing. *)
Theorem output_buffer_collects_writes :
  forall (d : IODevice.t) (values : list Z) (address : Z),
    let d' := after_writes 0xF0000004 values d in
    IODevice.get_output d' = IODevice.get_output d ++ values /\
    IODevice.read 0xF0000000 d' = IODevice.read 0xF0000000 d /\
    IODevice.get_completion_status d' = IODevice.get_completion_status d /\
    (address <> 0xF0000004 -> address <> 0xF0000008 ->
     after_writes address values d = d).
Proof.
  intros d values address. cbv zeta.
  split; [|split; [|split]].
  - revert d. induction values as [|v vs IH]; intros d.
    + simpl. rewrite app_nil_r. reflexivity.
    + change (after_writes 0xF0000004 (v :: vs) d)
        with (after_writes 0xF0000004 vs (IODevice.write 0xF0000004 v d)).
      rewrite IH. unfold IODevice.get_output, IODevice.write. simpl.
      rewrite <- app_assoc. reflexivity.
  - revert d. induction values as [|v vs IH]; intros d; [reflexivity|].
    change (after_writes 0xF0000004 (v :: vs) d)
      with (after_writes 0xF0000004 vs (IODevice.write 0xF0000004 v d)).
    rewrite IH. reflexivity.
  - revert d. induction values as [|v vs IH]; intros d; [reflexivity|].
    change (after_writes 0xF0000004 (v :: vs) d)
      with (after_writes 0xF0000004 vs (IODevice.write 0xF0000004 v d)).
    rewrite IH. reflexivity.
  - intros H4 H8. induction values as [|v vs IH]; [reflexivity|].
    change (after_writes address (v :: vs) d)
      with (after_writes address vs (IODevice.write address v d)).
    unfold IODevice.write.
    destruct (Z.eqb_spec address 0xF0000004); [contradiction|].
    destruct (Z.eqb_spec address 0xF0000008); [contradiction|].
    exact IH.
Qed.

Lemma output_buffer_collects_writes_witness :
  let d' := after_writes 0xF0000004 [1; 1; 2; 3] IODevice.init in
  IODevice.get_output d' = IODevice.get_output IODevice.init ++ [1; 1; 2; 3] /\
  IODevice.read 0xF0000000 d' = IODevice.read 0xF0000000 IODevice.init /\
  IODevice.get_completion_status d' =
    IODevice.get_completion_status IODevice.init /\
  (0xF0000000 <> 0xF0000004 -> 0xF0000000 <> 0xF0000008 ->
   after_writes 0xF0000000 [1; 1; 2; 3] IODevice.init = IODevice.init).
Proof.
  apply (output_buffer_collects_writes IODevice.init [1; 1; 2; 3] 0xF0000000).
Defined.

(** * cpu.py: jumps, branches and the program counter *)

(** X28: JAL links before it checks the target.  With 32 registers and a
    PC [p], JAL stores [p + 4] (not reduced modulo 2^32) in register 31;
    when the target lies below [MEMORY_SIZE] it then sets the PC to the
    target minus 4, and otherwise it raises [MemoryError] with register
    31 already overwritten.  J with a target beyond the memory raises
    and changes nothing. *)
Theorem jal_links_before_the_bounds_check :
  forall (s : CPU.t) (p target26 : Z),
    well_formed s ->
    CPU.pc s = Some p ->
    let linked :=
      CPU.set_registers (<[31%nat := p + 4]> (CPU.registers s)) s in
    (jump_target p target26 < MemoryBus.MEMORY_SIZE ->
     CPU._execute_j_type (CPU.JType 0x03 target26) s =
       Ok tt (CPU.set_pc (Some (jump_target p target26 - 4)) linked)) /\
    (MemoryBus.MEMORY_SIZE <= jump_target p target26 ->
     CPU._execute_j_type (CPU.JType 0x03 target26) s =
       Raise MemoryError linked /\
     CPU._execute_j_type (CPU.JType 0x02 target26) s = Raise MemoryError s).
Proof.
  intros s p target26 Hwf Hpc linked. unfold well_formed in Hwf.
  assert (CPU._execute_j_type (CPU.JType 0x03 target26) s =
          CPU.jump_to target26 linked) as Hjal.
  { unfold CPU._execute_j_type. simpl CPU.key_opcode. simpl CPU.key_target.
    unfold orraise. unfold bind at 1. unfold ret at 1.
    change (0x03 =? 0x02) with false. change (0x03 =? 0x03) with true.
    cbv iota.
    rewrite (bind_Ok _ _ _ _ _ (get_pc_Ok _ _ Hpc)).
    erewrite bind_Ok by (apply set_reg_Ok; lia).
    reflexivity. }
  split.
  - intros Hlt. rewrite Hjal. apply jump_to_within; [exact Hpc | exact Hlt].
  - intros Hge. split.
    + rewrite Hjal. apply (jump_to_beyond linked p); [exact Hpc | exact Hge].
    + unfold CPU._execute_j_type. simpl CPU.key_opcode. simpl CPU.key_target.
      unfold orraise. unfold bind at 1. unfold ret at 1.
      change (0x02 =? 0x02) with true. cbv iota.
      apply (jump_to_beyond s p); [exact Hpc | exact Hge].
Qed.

Lemma jal_links_before_the_bounds_check_witness :
  let linked :=
    CPU.set_registers
      (<[31%nat := 0 + 4]> (CPU.registers (CPU.reset MemoryBus.init)))
      (CPU.reset MemoryBus.init) in
  (jump_target 0 0x40000 < MemoryBus.MEMORY_SIZE ->
   CPU._execute_j_type (CPU.JType 0x03 0x40000) (CPU.reset MemoryBus.init) =
     Ok tt (CPU.set_pc (Some (jump_target 0 0x40000 - 4)) linked)) /\
  (MemoryBus.MEMORY_SIZE <= jump_target 0 0x40000 ->
   CPU._execute_j_type (CPU.JType 0x03 0x40000) (CPU.reset MemoryBus.init) =
     Raise MemoryError linked /\
   CPU._execute_j_type (CPU.JType 0x02 0x40000) (CPU.reset MemoryBus.init) =
     Raise MemoryError (CPU.reset MemoryBus.init)).
Proof.
  apply (jal_links_before_the_bounds_check (CPU.reset MemoryBus.init) 0 0x40000).
  - reflexivity.
  - reflexivity.
Defined.

(** X29: BNE and BEQ decide on the same comparison.  With 32 registers,
    register 0 at 0 and a PC [p], BNE records a branch to
    [(p + 4 + 4 * sign_extend(imm)) mod 2^32] exactly when the two
    registers differ, BEQ exactly when they are equal, and the one that
    does not branch leaves the CPU as it was. *)
Theorem bne_and_beq_are_complementary :
  forall (s : CPU.t) (rs rt imm a b p : Z),
    well_formed s -> reg0_is_zero s ->
    0 <= rs < 32 -> 0 <= rt < 32 ->
    Py.getitem (CPU.registers s) rs = Some a ->
    Py.getitem (CPU.registers s) rt = Some b ->
    CPU.pc s = Some p ->
    let branched :=
      CPU.set_branch_taken true
        (CPU.set_branch_target
           (Some ((p + 4 + 4 * CPU.sign_extend imm) mod 2 ^ 32)) s) in
    CPU._execute_i_type (CPU.IType 0x05 rs rt imm) s =
      Ok tt (if a =? b then s else branched) /\
    CPU._execute_i_type (CPU.IType 0x04 rs rt imm) s =
      Ok tt (if a =? b then branched else s).
Proof.
  intros s rs rt imm a b p Hwf H0 Hrs Hrt Ha Hb Hpc branched.
  unfold well_formed in Hwf.
  assert (CPU.take_branch imm s = Ok tt branched) as Htake.
  { unfold CPU.take_branch.
    rewrite (bind_Ok _ _ _ _ _ (get_pc_Ok _ _ Hpc)).
    rewrite Z.shiftl_mul_pow2 by lia. change (2 ^ 2) with 4.
    rewrite land_mask32.
    replace (p + 4 + CPU.sign_extend imm * 4)
      with (p + 4 + 4 * CPU.sign_extend imm) by lia.
    reflexivity. }
  assert (forall s', reg0_is_zero s' -> length (CPU.registers s') = 32%nat ->
            CPU.set_reg 0 0 s' = Ok tt s') as Hzero.
  { intros s' Hz Hl. rewrite set_reg_Ok by lia. simpl Z.to_nat.
    rewrite insert_zero_id by exact Hz. rewrite set_registers_same.
    reflexivity. }
  split.
  - unfold CPU._execute_i_type. simpl CPU.key_opcode. simpl CPU.key_rs.
    simpl CPU.key_rt. simpl CPU.key_immediate. unfold orraise.
    unfold bind at 1. unfold ret at 1.
    rewrite (bind_Ok _ _ _ _ _ (get_reg_Ok _ _ _ Ha)).
    unfold bind at 1. unfold ret at 1.
    unfold bind at 1. unfold ret at 1.
    change (CPU.mem_of 5 [8; 35; 43]) with false. cbv iota.
    change (5 =? 8) with false. change (5 =? 35) with false.
    change (5 =? 43) with false. change (5 =? 5) with true. cbv iota.
    unfold bind at 1.
    rewrite (bind_Ok _ _ _ _ _ (get_reg_Ok _ _ _ Ha)).
    rewrite (bind_Ok _ _ _ _ _ (get_reg_Ok _ _ _ Hb)).
    destruct (a =? b); cbn [negb].
    + unfold ret at 1. apply Hzero; assumption.
    + rewrite Htake. apply Hzero; assumption.
  - unfold CPU._execute_i_type. simpl CPU.key_opcode. simpl CPU.key_rs.
    simpl CPU.key_rt. simpl CPU.key_immediate. unfold orraise.
    unfold bind at 1. unfold ret at 1.
    rewrite (bind_Ok _ _ _ _ _ (get_reg_Ok _ _ _ Ha)).
    unfold bind at 1. unfold ret at 1.
    unfold bind at 1. unfold ret at 1.
    change (CPU.mem_of 4 [8; 35; 43]) with false. cbv iota.
    change (4 =? 8) with false. change (4 =? 35) with false.
    change (4 =? 43) with false. change (4 =? 5) with false.
    change (4 =? 4) with true. cbv iota.
    unfold bind at 1.
    rewrite (bind_Ok _ _ _ _ _ (get_reg_Ok _ _ _ Ha)).
    rewrite (bind_Ok _ _ _ _ _ (get_reg_Ok _ _ _ Hb)).
    destruct (a =? b).
    + rewrite Htake. apply Hzero; assumption.
    + unfold ret at 1. apply Hzero; assumption.
Qed.

Lemma bne_and_beq_are_complementary_witness :
  let s := CPU.reset MemoryBus.init in
  let branched :=
    CPU.set_branch_taken true
      (CPU.set_branch_target
         (Some ((0 + 4 + 4 * CPU.sign_extend 0xFFFE) mod 2 ^ 32)) s) in
  CPU._execute_i_type (CPU.IType 0x05 29 0 0xFFFE) s =
    Ok tt (if 0x7FFFFFFF =? 0 then s else branched) /\
  CPU._execute_i_type (CPU.IType 0x04 29 0 0xFFFE) s =
    Ok tt (if 0x7FFFFFFF =? 0 then branched else s).
Proof.
  apply (bne_and_beq_are_complementary (CPU.reset MemoryBus.init)
           29 0 0xFFFE 0x7FFFFFFF 0 0).
  - reflexivity.
  - reflexivity.
  - lia.
  - lia.
  - reflexivity.
  - reflexivity.
  - reflexivity.
Defined.

(** X30: [update_pc] changes the PC before it checks it.  With no branch
    pending the PC becomes [(p + 4) mod 2^32], with a branch pending it
    becomes the branch target and the pending branch is cleared; the
    call returns when the new PC is below [MEMORY_SIZE] and otherwise
    raises [MemoryError], leaving the new PC in place. *)
Theorem update_pc_checks_after_the_update :
  forall (s : CPU.t) (p : Z),
    CPU.pc s = Some p ->
    (CPU.branch_taken s = false ->
     let next := CPU.set_pc (Some ((p + 4) mod 2 ^ 32)) s in
     CPU.update_pc s =
       if MemoryBus.MEMORY_SIZE <=? (p + 4) mod 2 ^ 32
       then Raise MemoryError next else Ok tt next) /\
    (forall target : Z,
       CPU.branch_taken s = true ->
       CPU.branch_target s = Some target ->
       let next :=
         CPU.set_branch_target None
           (CPU.set_branch_taken false (CPU.set_pc (Some target) s)) in
       CPU.update_pc s =
         if MemoryBus.MEMORY_SIZE <=? target
         then Raise MemoryError next else Ok tt next).
Proof.
  intros s p Hpc. split.
  - intros Et next. subst next.
    unfold CPU.update_pc, CPU.get_pc, bind, gets, orraise, modify, ret, raise.
    rewrite Et, Hpc. cbn [CPU.pc CPU.set_pc]. rewrite land_mask32.
    destruct (MemoryBus.MEMORY_SIZE <=? (p + 4) mod 2 ^ 32); reflexivity.
  - intros target Et Ht next. subst next.
    unfold CPU.update_pc, CPU.get_pc, bind, gets, orraise, modify, ret, raise.
    rewrite Et, Ht.
    cbn [CPU.pc CPU.set_pc CPU.set_branch_taken CPU.set_branch_target].
    destruct (MemoryBus.MEMORY_SIZE <=? target); reflexivity.
Qed.

Lemma update_pc_checks_after_the_update_witness :
  let s := CPU.set_pc (Some 0xFFFFC) (CPU.reset MemoryBus.init) in
  (CPU.branch_taken s = false ->
   let next := CPU.set_pc (Some ((0xFFFFC + 4) mod 2 ^ 32)) s in
   CPU.update_pc s =
     if MemoryBus.MEMORY_SIZE <=? (0xFFFFC + 4) mod 2 ^ 32
     then Raise MemoryError next else Ok tt next) /\
  (forall target : Z,
     CPU.branch_taken s = true ->
     CPU.branch_target s = Some target ->
     let next :=
       CPU.set_branch_target None
         (CPU.set_branch_taken false (CPU.set_pc (Some target) s)) in
     CPU.update_pc s =
       if MemoryBus.MEMORY_SIZE <=? target
       then Raise MemoryError next else Ok tt next).
Proof.
  apply (update_pc_checks_after_the_update
           (CPU.set_pc (Some 0xFFFFC) (CPU.reset MemoryBus.init)) 0xFFFFC).
  reflexivity.
Defined.
